(* ===== verification/_CoqProject ===== *)
-Q . S2P
Prelude.v
JsValue.v
Paths.v
Types.v
Templates.v
TemplateText.v
FsModel.v
Effects.v
Fixtures.v
RpcPatch.v
Workflow.v
Bounds.v
Cli.v
