(* ===== verification/Prelude.v ===== *)
(** * A verification development of create-bhvr-forge

    create-bhvr-forge is a command-line scaffolding tool (TypeScript, four
    source files under src/src/).  It asks the user a few questions,
    downloads a template repository snapshot with degit, patches a few
    JSON manifests and source files in the downloaded tree, and optionally
    runs [git init] and a package-manager install.  Its parts:

    - [src/src/types.ts]: the records [TemplateInfo], [ProjectOptions] and
      [ProjectResult];
    - [src/src/utils/templates.ts]: the registry [TEMPLATES] (template id to
      branch and description) and five file bodies written by the RPC
      patch;
    - [src/src/utils/helpers.ts]: [createProject], the whole workflow
      (name, template, target directory, download, manifest rename, [.git]
      removal, RPC opt-in, git, dependencies, result), [patchFilesForRPC]
      and [displayBanner];
    - [src/src/index.ts]: the commander command, its option defaults, and
      the action that prints the next steps and picks the exit code.

    The components interact only by calls: the CLI action calls
    [createProject], which calls [patchFilesForRPC]; every one of them acts
    on the outside world through the prompts library, the file system
    (fs-extra, node:path), degit and execa.

    ** Files, and what they model

    - [Prelude] (this file): the state-and-exception monad [stM] that every
      effectful function of the program is written in (an instance of
      stdpp's [MRet]/[MBind], so the code reads [x ← m; k]), [throw] and
      [try_catch] for JavaScript's [throw]/[try ... catch], the relational
      reasoning principle [respects] (a preorder on states that each
      operation respects, closed under bind and catch), association lists
      (JavaScript objects keep insertion order, so a JSON object is an
      association list), the predicates [raises] (which exceptions a
      computation can throw) and [ensures] (what it can return), each with
      its rules for bind, catch and if, the hint database [forge] and the
      tactics [forge_step], [ensures_auto] and [vm_refl].
    - [JsValue]: JSON values, JavaScript truthiness ([Truthy] type class),
      [||], and the semantics of property reads and writes in strict mode
      ([obj.k] on [undefined]/[null] throws a [TypeError]).
    - [Paths]: node:path's [path.resolve] and [path.join] on POSIX paths
      (split on ['/'], ['.'] and ['..'] segments), paths as segment lists.
    - [FsModel]: the file system as a stdpp [gmap] from absolute paths to
      nodes, with the fs-extra operations the code calls ([existsSync],
      [readdirSync], [ensureDirSync], [emptyDir], [remove], [readJson],
      [writeJson], [writeFile]) and degit's extraction, each with its error
      cases, the tree invariant [fs_wf] that they all preserve, and the
      frame relation [confined d] (nothing changes outside directory [d]
      but the creation of its missing ancestors) with the operations that
      respect it when they write at or below [d].
    - [Effects]: the world the program runs in (file system, working
      directory, queued prompt answers, the remote repositories, which
      external commands succeed, and the trace of observable events), and
      the effect primitives: the three prompt kinds, [execa], degit's
      [clone], and the file-system operations lifted into [stM].
    - [Types]: the records of [types.ts]; the fields that TypeScript marks
      optional are [option]s.
    - [Templates]: [templates.ts]: the
      [TEMPLATES] registry with JavaScript's object lookup (an unknown key
      is [undefined]; a key of [Object.prototype] such as ["toString"] is
      an inherited member with no [branch]), and the branch choice of
      [createProject], with its equivalence to the registry's branch.
    - [TemplateText]: the five template literals of [templates.ts], line
      by line and character for character ([honoRpcTemplate_lines] for
      lines 15-71 up to [shadcnTemplate_lines] for lines 279-383), and
      small scanners over them (statement ends, named imports, exports)
      in which the properties of the written files are stated.
    - [Fixtures]: concrete worlds for the examples and witnesses: a home
      directory, the template tree degit extracts, a remote serving the
      three branches, a remote whose [package.json] does not parse, tool
      sets with and without [bun].
    - [RpcPatch]: [patchFilesForRPC], its five steps and its catch-all.
    - [Workflow]: [createProject], one definition per step, composed as the
      code composes them, and the spec's result of a non-interactive run
      ([yes_result]) that the workflow refines; the step lemmas for a
      user who presses Enter at every prompt.
    - [Bounds]: how many events (prompts and commands) a computation adds
      to the trace, [adds_at_most], with its rules for bind, catch and if,
      a type class [Budget] whose instances give each step of the
      workflow its budget, and the tactic [bound_auto] that composes them.
    - [Cli]: the commander declaration as a parse of the argument list
      ([parse_args]), [displayBanner] (the lines it logs, with figlet's
      rendering as an input: [None] when figlet throws and the fallback is
      printed), the action handler with its printed next steps and exit
      code ([action]), and [main] composing them.

    ** Properties

    The manifest lists them in order of importance; the main groups are:
    non-interactive mode issues no prompt (a trace property proved with
    [respects] and the preorder [no_prompt]); the branch fetched for every
    template id; the refinement of the spec's non-interactive result
    (never a cancellation; the result is fixed by the name, the template
    id and which of [git], [bun] and [npm] succeed; else a fatal
    exception); cancellation at each prompt and what it leaves behind;
    the directory step (declining or accepting the overwrite prompt, and
    [--yes] reusing an existing directory as it is);
    confinement of every write of a run to the project directory (the
    preorder [confined], whatever the run's outcome); the exit code the
    command derives from the fatal/non-fatal error split ([raises
    fatal_error]); the error paths: a missing remote, a downloaded
    [package.json] that does not parse (fatal, against the spec), a
    failed [bun install hono] (the patch stops before its first write);
    the project directory existing after a successful run; the RPC
    patch's effect on each file, and what the written sources say (the
    helper's [./index] import resolved to the written server entry and
    satisfied by its exports, the [App.tsx] imports by template, and the
    server entry's Hono chain broken by a statement end); the bound of 11
    events on any run (reached by the interactive run that confirms
    everything); liveness of the interactive run in which the user
    presses Enter at every prompt (never cancelled).

    Witnesses are checked by evaluation.  A concrete run is
    stated through its result ([run_eq]) and lookups in its final state,
    never as an equation between whole worlds, so that the kernel checks
    them quickly.

    ** Choices and bounds

    Nothing recurses without a structural argument: path normalisation
    and splitting recurse on the string or the segment list, directory
    creation on the path, and the extraction of a downloaded tree on the
    list of its entries, so no fuel is needed.  Numbers in JSON are [Z]
    (package.json files hold none that the code reads).  A file's content
    is either a JSON value (written by [writeJson] or fetched as JSON) or
    text that does not parse as JSON; the RPC patch writes a template
    body by name ([template_body]), and [TemplateText.body_lines] gives
    each name its text.  Lines are [String.string]s; a double quote is
    spelled [dq] and the mojibake of the banner's emoji is kept byte for
    byte as it is in the source.  The event bound 11 is the sum of the
    step budgets: three prompts before the directory, one overwrite
    prompt, one download, and at most eight events after it (the RPC
    prompt and [bun install hono], the git prompt and [git init], the
    install prompt and at most two installs).

    ** Not modelled

    figlet's rendering of the banner text (an input of [displayBanner]),
    every console message other than the banner and the final lines, and
    the spinners (pure output);
    the effect of the external commands on the file system ([git init],
    [bun install] and [npm install] are recorded in the trace and succeed
    or fail as the world says); commander's [--opt=value] and combined
    short-flag forms, its help and version output, and the message it
    prints for an invalid command line (modelled as a fixed line with exit
    code 1); the colours chalk adds to the printed lines. *)

From stdpp Require Export base list gmap strings.
From Stdlib Require Export Ascii String.

Declare Scope forge_scope.
Delimit Scope forge_scope with forge.
Open Scope forge_scope.

Create HintDb forge.
Create Rewrite HintDb forge_rw.

(** ** The state-and-exception monad *)

(** The result of a computation that may throw: JavaScript's normal
    completion or throw completion. *)
Inductive outcome (E A : Type) : Type :=
| Ok (a : A)
| Exn (e : E).
Arguments Ok {E A} a.
Arguments Exn {E A} e.

(** An async function of the program, as a function of the world it runs
    in.  The world is returned also on a throw: what was done before the
    exception stays done. *)
Definition stM (S E A : Type) : Type := S → outcome E A * S.

#[export] Instance stM_ret S E : MRet (stM S E) := λ A a s, (Ok a, s).
#[export] Instance stM_bind S E : MBind (stM S E) := λ A B k m s,
  match m s with
  | (Ok a, s') => k a s'
  | (Exn e, s') => (Exn e, s')
  end.

Definition throw {S E A} (e : E) : stM S E A := λ s, (Exn e, s).

(** [try { m } catch (e) { h(e) }] *)
Definition try_catch {S E A} (m : stM S E A) (h : E → stM S E A) : stM S E A :=
  λ s, match m s with
       | (Exn e, s') => h e s'
       | r => r
       end.

Definition lift {S E A} (r : outcome E A) : stM S E A := λ s, (r, s).
Definition gets {S E A} (f : S → A) : stM S E A := λ s, (Ok (f s), s).
Definition modify {S E} (f : S → S) : stM S E unit := λ s, (Ok (), f s).

(** The outcome and the final state of a run. *)
Definition result_of {S E A} (m : stM S E A) (s : S) : outcome E A := fst (m s).
Definition state_of {S E A} (m : stM S E A) (s : S) : S := snd (m s).

Notation "'TRY' m 'CATCH' e => h" := (try_catch m (λ e, h))
  (at level 10, m at level 200, e name, h at level 200) : forge_scope.

Section monad_laws.
Context {S E : Type}.

Lemma bind_ret_l {A B} (a : A) (k : A → stM S E B) s :
  (mret a ≫= k) s = k a s.
Proof. done. Qed.

Lemma bind_ok {A B} (m : stM S E A) (k : A → stM S E B) s a s' :
  m s = (Ok a, s') → (m ≫= k) s = k a s'.
Proof. intros H. unfold mbind, stM_bind. by rewrite H. Qed.

Lemma bind_gets {A B} (f : S → A) (k : A → stM S E B) s : (gets f ≫= k) s = k (f s) s.
Proof. done. Qed.

Lemma bind_exn {A B} (m : stM S E A) (k : A → stM S E B) s e s' :
  m s = (Exn e, s') → (m ≫= k) s = (Exn e, s').
Proof. intros H. unfold mbind, stM_bind. by rewrite H. Qed.

Lemma bind_assoc {A B C} (m : stM S E A) (k : A → stM S E B)
      (k' : B → stM S E C) s :
  ((m ≫= k) ≫= k') s = (m ≫= (λ a, k a ≫= k')) s.
Proof. unfold mbind, stM_bind. by destruct (m s) as [[] ?]. Qed.

Lemma catch_ok {A} (m : stM S E A) h s a s' :
  m s = (Ok a, s') → try_catch m h s = (Ok a, s').
Proof. intros H. unfold try_catch. by rewrite H. Qed.

Lemma catch_exn {A} (m : stM S E A) h s e s' :
  m s = (Exn e, s') → try_catch m h s = h e s'.
Proof. intros H. unfold try_catch. by rewrite H. Qed.
End monad_laws.

(** ** Reasoning about effects: preorders that a computation respects

    A property of the whole workflow (no prompt was issued, the file
    system stays a tree, nothing was written) is a preorder [R] between
    the state before and the state after.  [respects R m] says that [m]
    moves the state only along [R], whatever it returns; it is closed under
    every combinator, so the workflow's proofs reduce to its primitives. *)
Section respects.
Context {S E : Type} (R : relation S) `{!PreOrder R}.

Definition respects {A} (m : stM S E A) : Prop := ∀ s, R s (state_of m s).

Lemma respects_ret {A} (a : A) : respects (mret a).
Proof. intros s. reflexivity. Qed.

Lemma respects_throw {A} (e : E) : respects (throw (A:=A) e).
Proof. intros s. reflexivity. Qed.

Lemma respects_lift {A} (r : outcome E A) : respects (lift r).
Proof. intros s. reflexivity. Qed.

Lemma respects_gets {A} (f : S → A) : respects (gets f).
Proof. intros s. reflexivity. Qed.

Lemma respects_bind {A B} (m : stM S E A) (k : A → stM S E B) :
  respects m → (∀ a, respects (k a)) → respects (m ≫= k).
Proof.
  intros Hm Hk s. unfold state_of, mbind, stM_bind.
  specialize (Hm s). unfold state_of in Hm.
  destruct (m s) as [[a|e] s'] eqn:E1; cbn in *; [|done].
  etrans; [exact Hm|]. apply Hk.
Qed.

Lemma respects_catch {A} (m : stM S E A) (h : E → stM S E A) :
  respects m → (∀ e, respects (h e)) → respects (try_catch m h).
Proof.
  intros Hm Hh s. unfold state_of, try_catch.
  specialize (Hm s). unfold state_of in Hm.
  destruct (m s) as [[a|e] s'] eqn:E1; cbn in *; [done|].
  etrans; [exact Hm|]. apply Hh.
Qed.

Lemma respects_if {A} (b : bool) (m1 m2 : stM S E A) :
  respects m1 → respects m2 → respects (if b then m1 else m2).
Proof. by destruct b. Qed.
End respects.

#[export] Hint Resolve respects_ret respects_throw respects_lift respects_gets
  respects_bind respects_catch respects_if : forge.

(** An invariant of the state, as the preorder "[I] before implies [I]
    after". *)
Definition preserving {S} (I : S → Prop) : relation S := λ s s', I s → I s'.

#[export] Instance preserving_preorder {S} (I : S → Prop) : PreOrder (preserving I).
Proof. split; [by intros ??|]. intros x y z H1 H2 Hx. auto. Qed.

(** The case analysis that every proof about a step of the program needs:
    split on the matches and ifs of the goal, keep the equations. *)
Ltac forge_step :=
  repeat match goal with
  | |- context [match ?x with _ => _ end] =>
      lazymatch x with
      | context [match _ with _ => _ end] => fail
      | _ => destruct x eqn:?
      end
  | |- context [if ?b then _ else _] => destruct b eqn:?
  end.

(** ** Association lists with string keys

    A JavaScript object with string keys keeps its keys in insertion
    order: reading [o.k] finds the key, writing [o.k = v] replaces the
    value in place when [k] is present and appends [k] otherwise. *)
Fixpoint assoc_lookup {V} (k : string) (l : list (string * V)) : option V :=
  match l with
  | [] => None
  | (k', v) :: l' => if String.eqb k k' then Some v else assoc_lookup k l'
  end.

Fixpoint assoc_set {V} (k : string) (v : V) (l : list (string * V)) : list (string * V) :=
  match l with
  | [] => [(k, v)]
  | (k', v') :: l' =>
      if String.eqb k k' then (k', v) :: l' else (k', v') :: assoc_set k v l'
  end.

Section assoc.
Context {V : Type}.

Lemma assoc_lookup_set_eq (k : string) (v : V) l :
  assoc_lookup k (assoc_set k v l) = Some v.
Proof.
  induction l as [|[k' v'] l IH]; cbn; [by rewrite String.eqb_refl|].
  destruct (String.eqb_spec k k') as [->|Hne]; cbn.
  - by rewrite String.eqb_refl.
  - apply String.eqb_neq in Hne. by rewrite Hne.
Qed.

Lemma assoc_lookup_set_ne (k k' : string) (v : V) l :
  k ≠ k' → assoc_lookup k' (assoc_set k v l) = assoc_lookup k' l.
Proof.
  intros Hne. induction l as [|[k'' v''] l IH]; cbn.
  - destruct (String.eqb_spec k' k); congruence.
  - destruct (String.eqb_spec k k'') as [->|Hne']; cbn.
    + destruct (String.eqb_spec k' k''); congruence.
    + by rewrite IH.
Qed.

(** The keys, in order: a write never reorders them. *)
Lemma assoc_set_keys (k : string) (v : V) l :
  map fst (assoc_set k v l) =
  if bool_decide (k ∈ map fst l) then map fst l else map fst l ++ [k].
Proof.
  induction l as [|[k' v'] l IH]; cbn; [done|].
  destruct (String.eqb_spec k k') as [->|Hne]; cbn.
  - rewrite bool_decide_eq_true_2; [done|]. by left.
  - rewrite IH. case_bool_decide as Hin.
    + rewrite bool_decide_eq_true_2; [done|]. by right.
    + rewrite bool_decide_eq_false_2; [done|].
      intros Hin'. apply elem_of_cons in Hin' as [?|?]; auto.
Qed.
End assoc.

#[export] Hint Rewrite @assoc_lookup_set_eq : forge_rw.

(** A [catch] whose handler never throws never throws. *)
Lemma try_catch_total {S E A} (m : stM S E A) (h : E → stM S E A) s :
  (∀ e s', ∃ a, result_of (h e) s' = Ok a) → ∃ a, result_of (try_catch m h) s = Ok a.
Proof.
  intros Hh. unfold result_of, try_catch.
  destruct (m s) as [[a|e] s'] eqn:E1; cbn; [by eexists|]. apply Hh.
Qed.

(** ** Reasoning about exceptions: what a computation can throw

    [raises P m]: every exception [m] throws satisfies [P].  Like
    [respects], it is closed under the combinators; a [try_catch] whose
    handler throws nothing throws nothing, whatever its body throws. *)
Section raises.
Context {S E : Type} (P : E → Prop).

Definition raises {A} (m : stM S E A) : Prop := ∀ s e, result_of m s = Exn e → P e.

Lemma raises_ret {A} (a : A) : raises (mret a).
Proof. by intros s e. Qed.

Lemma raises_throw {A} (e : E) : P e → raises (throw (A:=A) e).
Proof. intros He s e' H. by injection H as <-. Qed.

Lemma raises_lift_ok {A} (a : A) : raises (lift (Ok a)).
Proof. by intros s e. Qed.

Lemma raises_gets {A} (f : S → A) : raises (gets f).
Proof. by intros s e. Qed.

Lemma raises_bind {A B} (m : stM S E A) (k : A → stM S E B) :
  raises m → (∀ a, raises (k a)) → raises (m ≫= k).
Proof.
  intros Hm Hk s e. unfold result_of, mbind, stM_bind.
  destruct (m s) as [[a|e'] s'] eqn:E1; cbn.
  - apply Hk.
  - intros [= <-]. apply (Hm s). unfold result_of. by rewrite E1.
Qed.

Lemma raises_catch {A} (m : stM S E A) (h : E → stM S E A) :
  (∀ e, raises (h e)) → raises (try_catch m h).
Proof.
  intros Hh s e. unfold result_of, try_catch.
  destruct (m s) as [[a|e'] s'] eqn:E1; cbn; [done|]. apply Hh.
Qed.

Lemma raises_if {A} (b : bool) (m1 m2 : stM S E A) :
  raises m1 → raises m2 → raises (if b then m1 else m2).
Proof. by destruct b. Qed.

End raises.

Arguments raises {S E} P {A} m.

Lemma raises_mono {S E A} (P Q : E → Prop) (m : stM S E A) :
  (∀ e, Q e → P e) → raises Q m → raises P m.
Proof. intros HQ Hm s e He. apply HQ. by eapply Hm. Qed.

#[export] Hint Resolve raises_ret raises_lift_ok raises_gets raises_bind raises_catch raises_if : forge.

(** ** Inverting a successful run *)

Section inversion.
Context {S E : Type}.

Lemma bind_ok_inv {A B} (m : stM S E A) (k : A → stM S E B) s b s'' :
  (m ≫= k) s = (Ok b, s'') → ∃ a s', m s = (Ok a, s') ∧ k a s' = (Ok b, s'').
Proof.
  unfold mbind, stM_bind. destruct (m s) as [[a|e] s'] eqn:E1; [|done]. eauto.
Qed.

Lemma catch_ok_inv {A} (m : stM S E A) (h : E → stM S E A) s a s' :
  try_catch m h s = (Ok a, s') →
  m s = (Ok a, s') ∨ ∃ e s1, m s = (Exn e, s1) ∧ h e s1 = (Ok a, s').
Proof. unfold try_catch. destruct (m s) as [[a'|e] s1] eqn:E1; [left; congruence|eauto]. Qed.

(** [try { m } catch (err) { throw err; }] is [m]. *)
Lemma catch_rethrow {A} (m : stM S E A) s : try_catch m throw s = m s.
Proof. unfold try_catch, throw. by destruct (m s) as [[] ?]. Qed.
End inversion.

(** Close [a = b] by evaluating both sides in the virtual machine; the
    kernel re-checks the cast with the virtual machine too. *)
Ltac vm_refl := match goal with |- ?a = ?b => exact (@eq_refl _ a <: a = b) end.

(** A run is its result paired with its final state: a concrete run is
    checked by evaluating its result alone. *)
Lemma run_eq {S E A} (m : stM S E A) s r : result_of m s = r → m s = (r, state_of m s).
Proof. intros <-. unfold result_of, state_of. by destruct (m s). Qed.

(** [try { m } catch (err) { throw err; }] throws what [m] throws. *)
Lemma raises_catch_rethrow {S E A} (P : E → Prop) (m : stM S E A) :
  raises P m → raises P (try_catch m throw).
Proof. intros Hm s e. unfold result_of. rewrite catch_rethrow. apply Hm. Qed.

(** ** Reasoning about returned values *)

Section ensures.
Context {S E : Type}.

(** Every value [m] returns satisfies [Q]. *)
Definition ensures {A} (Q : A → Prop) (m : stM S E A) : Prop :=
  ∀ s a s', m s = (Ok a, s') → Q a.

Lemma ensures_ret {A} (Q : A → Prop) a : Q a → ensures Q (mret a).
Proof. intros Ha s a' s' [= <- _]. done. Qed.

Lemma ensures_bind {A B} (Q : B → Prop) (m : stM S E A) (k : A → stM S E B) :
  (∀ a, ensures Q (k a)) → ensures Q (m ≫= k).
Proof. intros Hk s b s'' (a & s' & _ & H)%bind_ok_inv. by eapply Hk. Qed.

Lemma ensures_if {A} (Q : A → Prop) (b : bool) (m1 m2 : stM S E A) :
  ensures Q m1 → ensures Q m2 → ensures Q (if b then m1 else m2).
Proof. by destruct b. Qed.

Lemma ensures_throw {A} (Q : A → Prop) e : ensures Q (throw e).
Proof. by intros s a s'. Qed.

(** A bind whose continuation relies on what the first computation
    returns. *)
Lemma ensures_bind_post {A B} (P : A → Prop) (Q : B → Prop) (m : stM S E A) (k : A → stM S E B) :
  ensures P m → (∀ a, P a → ensures Q (k a)) → ensures Q (m ≫= k).
Proof. intros Hm Hk s b s'' (a & s' & H1 & H)%bind_ok_inv. eapply Hk; [|done]. by eapply Hm. Qed.
End ensures.

Ltac ensures_auto :=
  repeat match goal with
  | |- context [?b && false] => rewrite (andb_false_r b)
  | |- ensures _ (if true then _ else _) => cbv beta iota
  | |- ensures _ (if false then _ else _) => cbv beta iota
  | |- ensures _ (_ ≫= _) => apply ensures_bind; intros ?
  | |- ensures _ (if _ then _ else _) => apply ensures_if
  | |- ensures _ (mret _) => apply ensures_ret
  | |- ensures _ (throw _) => apply ensures_throw
  end.

Lemma respects_run {S E A} (R : relation S) (m : stM S E A) s r s' :
  respects R m → m s = (r, s') → R s s'.
Proof. intros Hm Hrun. specialize (Hm s). unfold state_of in Hm. by rewrite Hrun in Hm. Qed.
