(* ===== verification/JsValue.v ===== *)
(** * JavaScript values as the program uses them

    The program reads and writes [package.json] files with fs-extra's
    [readJson]/[writeJson] and mutates the parsed objects with property
    writes ([pkgJson.name = projectName], [serverPkg.scripts.dev = ...]).
    It tests options and prompt answers with JavaScript's truthiness
    ([!options.yes], [options.template || "default"]).  This file holds
    JSON values, [undefined] as [None], truthiness as the type class
    [Truthy], [||] and [??], and property reads and writes with the
    [TypeError]s that strict-mode JavaScript throws. *)

From S2P Require Import Prelude.

#[local] Set Warnings "-register-all".

(** ** JSON values

    An object keeps its keys in insertion order, which is the order
    [JSON.stringify] writes them back in. *)
Inductive json : Type :=
| JNull
| JBool (b : bool)
| JNum (n : Z)
| JStr (s : string)
| JArr (l : list json)
| JObj (fields : list (string * json)).

(** A value read from a property or a prompt answer: [None] is
    [undefined]. *)
Abbreviation jsval := (option json).

(** ** Truthiness *)
Class Truthy (A : Type) := truthy : A → bool.

#[export] Instance truthy_bool : Truthy bool := λ b, b.
#[export] Instance truthy_string : Truthy string := λ s, negb (String.eqb s "").
#[export] Instance truthy_json : Truthy json := λ v,
  match v with
  | JNull => false
  | JBool b => b
  | JNum n => negb (Z.eqb n 0)
  | JStr s => truthy s
  | JArr _ | JObj _ => true
  end.
(** [undefined] is falsy; a defined value is as truthy as its value. *)
#[export] Instance truthy_option {A} `{Truthy A} : Truthy (option A) := λ o,
  match o with
  | None => false
  | Some a => truthy a
  end.

(** [a || b] where [a] may be [undefined]: the value of [a] when it is
    truthy, [b] otherwise. *)
Definition js_or {A} `{Truthy A} (a : option A) (b : A) : A :=
  match a with
  | Some x => if truthy x then x else b
  | None => b
  end.

(** [a ?? b]: the value of [a] unless it is [undefined]. *)
Definition nullish {A} (a : option A) (b : A) : A :=
  match a with
  | Some x => x
  | None => b
  end.

Notation "a '|||' b" := (js_or a b) (at level 50, left associativity) : forge_scope.
Notation "a '??' b" := (nullish a b) (at level 50, left associativity) : forge_scope.

(** ** Property reads and writes

    The keys the program reads and writes ("name", "dependencies",
    "hono", "scripts", "dev") are neither array indices nor members of
    [Object.prototype], so on a value other than an object such a key
    reads as [undefined]. *)
Inductive type_error : Type :=
| ReadOfUndefined (key : string)
| ReadOfNull (key : string)
| SetOnUndefined (key : string)
| SetOnNull (key : string)
| SetOnPrimitive (key : string).

(** [v.k] *)
Definition get_prop (v : jsval) (k : string) : outcome type_error jsval :=
  match v with
  | None => Exn (ReadOfUndefined k)
  | Some JNull => Exn (ReadOfNull k)
  | Some (JObj fs) => Ok (assoc_lookup k fs)
  | Some _ => Ok None
  end.

(** [v.k = x], in strict mode (the package is an ES module): a write to a
    primitive throws; a named property written on an array is kept in
    memory but [JSON.stringify] does not write it, so the serialised
    array is unchanged. *)
Definition set_prop (v : jsval) (k : string) (x : json) : outcome type_error json :=
  match v with
  | None => Exn (SetOnUndefined k)
  | Some JNull => Exn (SetOnNull k)
  | Some (JObj fs) => Ok (JObj (assoc_set k x fs))
  | Some (JArr l) => Ok (JArr l)
  | Some (JBool _ | JNum _ | JStr _) => Exn (SetOnPrimitive k)
  end.

(** [o.k1.k2 = x]: the inner object is shared by reference with [o], so
    the write is seen through [o]; as values, [o] gets the updated inner
    object back at [k1]. *)
Definition set_prop2 (o : json) (k1 k2 : string) (x : json) : outcome type_error json :=
  match get_prop (Some o) k1 with
  | Exn e => Exn e
  | Ok inner =>
      match set_prop inner k2 x with
      | Exn e => Exn e
      | Ok inner' => set_prop (Some o) k1 inner'
      end
  end.

(** ** Lemmas *)

Lemma js_or_some_truthy {A} `{Truthy A} (x b : A) :
  truthy x = true → js_or (Some x) b = x.
Proof. intros Hx. cbn. by rewrite Hx. Qed.

Lemma js_or_falsy {A} `{Truthy A} (a : option A) (b : A) :
  truthy a = false → js_or a b = b.
Proof. destruct a as [x|]; cbn; [|done]. intros Hx. by rewrite Hx. Qed.

Lemma truthy_string_nonempty (s : string) : truthy s = true ↔ s ≠ "".
Proof.
  unfold truthy, truthy_string. destruct (String.eqb_spec s ""); cbn; naive_solver.
Qed.

(** [a || b] is always [b] or the value of [a]. *)
Lemma js_or_cases {A} `{Truthy A} (a : option A) (b : A) :
  (js_or a b = b ∧ truthy a = false) ∨ (a = Some (js_or a b) ∧ truthy a = true).
Proof.
  destruct a as [x|]; cbn; [|by left].
  unfold truthy at 2 4. cbn. destruct (truthy x) eqn:Hx; [right|left]; done.
Qed.

Lemma get_prop_obj fs k : get_prop (Some (JObj fs)) k = Ok (assoc_lookup k fs).
Proof. done. Qed.

Lemma get_set_prop_obj fs k x :
  set_prop (Some (JObj fs)) k x = Ok (JObj (assoc_set k x fs)) ∧
  get_prop (Some (JObj (assoc_set k x fs))) k = Ok (Some x).
Proof. split; [done|]. cbn. by rewrite assoc_lookup_set_eq. Qed.

(** A property write succeeds exactly on objects and arrays. *)
Lemma set_prop_ok_iff v k x :
  (∃ r, set_prop v k x = Ok r) ↔ (∃ fs, v = Some (JObj fs)) ∨ (∃ l, v = Some (JArr l)).
Proof.
  split.
  - intros [r Hr]. destruct v as [[]|]; cbn in Hr; try done; eauto.
  - intros [[fs ->]|[l ->]]; eexists; done.
Qed.

#[export] Hint Rewrite get_prop_obj : forge_rw.
