(* ===== verification/Paths.v ===== *)
(** * node:path on POSIX paths

    [createProject] computes [path.resolve(process.cwd(), projectName)]
    and then [path.join(projectPath, "package.json")] and the like.  An
    absolute path is a list of segments from the root ([[]] is ["/"]).
    [path.resolve] splits the name on ['/'], starts from the root when the
    name is absolute and from the working directory otherwise, drops empty
    and ['.'] segments and lets ['..'] remove the last segment (at the
    root it stays at the root).  The file proves that splitting and
    joining on ['/'] are inverse and that [path.join] of plain segments
    appends them. *)

From S2P Require Import Prelude.

Abbreviation path := (list string).

(** ** Splitting and joining on ['/'] *)

Fixpoint split_slash (s : string) : list string :=
  match s with
  | EmptyString => [""]
  | String c s' =>
      let rest := split_slash s' in
      if Ascii.eqb c "/"%char then "" :: rest
      else match rest with
           | [] => [String c ""]
           | x :: xs => String c x :: xs
           end
  end.

Fixpoint join_slash (l : list string) : string :=
  match l with
  | [] => ""
  | [x] => x
  | x :: xs => (x ++ "/" ++ join_slash xs)%string
  end.

Definition has_slash (s : string) : bool :=
  existsb (λ c, Ascii.eqb c "/"%char) (list_ascii_of_string s).

(** ** Normal form *)

(** A segment of a normalised path. *)
Definition seg_ok (s : string) : bool :=
  negb (String.eqb s "") && negb (String.eqb s ".") && negb (String.eqb s "..")
  && negb (has_slash s).

Definition path_wf (p : path) : Prop := Forall (λ s, seg_ok s = true) p.

#[export] Instance path_wf_dec p : Decision (path_wf p).
Proof. unfold path_wf. apply _. Defined.

(** One segment of [normalizeString]; the accumulator is reversed. *)
Definition norm_step (acc : list string) (seg : string) : list string :=
  if String.eqb seg "" || String.eqb seg "." then acc
  else if String.eqb seg ".." then tail acc
  else seg :: acc.

Definition normalize (base : path) (segs : list string) : path :=
  rev (fold_left norm_step segs (rev base)).

Definition is_absolute (s : string) : bool :=
  match s with
  | String c _ => Ascii.eqb c "/"%char
  | EmptyString => false
  end.

(** [path.resolve(cwd, name)] *)
Definition resolve (cwd : path) (name : string) : path :=
  if is_absolute name then normalize [] (split_slash name)
  else normalize cwd (split_slash name).

(** [path.join(p, s1, ..., sn)] for an absolute [p]. *)
Definition join (p : path) (segs : list string) : path :=
  normalize p (List.concat (map split_slash segs)).

(** ** Lemmas *)

Lemma split_slash_nonempty s : split_slash s ≠ [].
Proof.
  induction s as [|c s IH]; cbn; [done|].
  destruct (Ascii.eqb c "/"%char); [done|]. by destruct (split_slash s).
Qed.

Lemma join_slash_cons_char c x xs :
  join_slash (String c x :: xs) = String c (join_slash (x :: xs)).
Proof. by destruct xs. Qed.

(** Splitting a string on ['/'] and joining the pieces with ['/']
    gives the string back (the split loses nothing, not even empty
    segments). *)
Lemma join_split_slash s : join_slash (split_slash s) = s.
Proof.
  induction s as [|c s IH]; cbn; [done|].
  pose proof (split_slash_nonempty s) as Hne.
  destruct (Ascii.eqb c "/"%char) eqn:Hc.
  - apply Ascii.eqb_eq in Hc as ->.
    destruct (split_slash s) as [|x xs]; [done|]. rewrite <-IH. by destruct xs.
  - destruct (split_slash s) as [|x xs]; [done|].
    rewrite join_slash_cons_char. by rewrite IH.
Qed.

Lemma has_slash_cons c s :
  has_slash (String c s) = Ascii.eqb c "/"%char || has_slash s.
Proof. done. Qed.

(** No piece of a split contains ['/']. *)
Lemma split_slash_no_slash s : Forall (λ x, has_slash x = false) (split_slash s).
Proof.
  induction s as [|c s IH]; cbn; [by repeat constructor|].
  destruct (Ascii.eqb c "/"%char) eqn:Hc; [by constructor|].
  destruct (split_slash s) as [|x xs]; [by repeat constructor; rewrite has_slash_cons, Hc|].
  inversion IH; subst. constructor; [|done]. by rewrite has_slash_cons, Hc.
Qed.

Lemma norm_step_wf acc seg :
  has_slash seg = false → path_wf acc → path_wf (norm_step acc seg).
Proof.
  intros Hs Hacc. unfold norm_step.
  destruct (String.eqb seg "") eqn:H1; [done|].
  destruct (String.eqb seg ".") eqn:H2; [done|]. cbn.
  destruct (String.eqb seg "..") eqn:H3.
  - destruct acc; [constructor|]. by inversion Hacc.
  - constructor; [|done]. unfold seg_ok. by rewrite H1, H2, H3, Hs.
Qed.

Lemma fold_norm_step_wf segs acc :
  Forall (λ x, has_slash x = false) segs → path_wf acc →
  path_wf (fold_left norm_step segs acc).
Proof.
  revert acc. induction segs as [|s segs IH]; intros acc Hs Hacc; cbn; [done|].
  inversion Hs; subst. apply IH; [done|]. by apply norm_step_wf.
Qed.

Lemma path_wf_rev p : path_wf (rev p) ↔ path_wf p.
Proof.
  unfold path_wf. split; [|apply Forall_rev].
  intros H. rewrite <-(rev_involutive p). by apply Forall_rev.
Qed.

Lemma normalize_wf base segs :
  path_wf base → Forall (λ x, has_slash x = false) segs → path_wf (normalize base segs).
Proof.
  intros Hb Hs. unfold normalize. apply path_wf_rev.
  apply fold_norm_step_wf; [done|]. by apply path_wf_rev.
Qed.

(** A segment in normal form is pushed as it is. *)
Lemma norm_step_ok acc seg : seg_ok seg = true → norm_step acc seg = seg :: acc.
Proof.
  unfold seg_ok, norm_step.
  destruct (String.eqb seg ""), (String.eqb seg "."), (String.eqb seg ".."); done.
Qed.

Lemma normalize_plain base segs :
  path_wf segs → normalize base segs = base ++ segs.
Proof.
  intros Hs. unfold normalize.
  enough (H : ∀ acc, fold_left norm_step segs acc = rev segs ++ acc).
  { by rewrite H, rev_app_distr, !rev_involutive. }
  induction Hs as [|s segs Hs Hsegs IH]; intros acc; cbn; [done|].
  rewrite norm_step_ok by done. rewrite IH. by rewrite <-app_assoc.
Qed.

Lemma split_slash_plain s : has_slash s = false → s ≠ "" → split_slash s = [s].
Proof.
  induction s as [|c s IH]; [done|]. intros Hs _. cbn.
  rewrite has_slash_cons in Hs. apply orb_false_iff in Hs as [Hc Hs]. rewrite Hc.
  destruct s as [|c' s']; [done|]. rewrite IH by done. done.
Qed.

#[export] Hint Resolve split_slash_no_slash normalize_wf : forge.

(** Joining one segment in normal form appends it. *)
Lemma join_segment p s : seg_ok s = true → join p [s] = p ++ [s].
Proof.
  intros Hs. unfold join. cbn. rewrite app_nil_r.
  assert (has_slash s = false) as Hslash.
  { unfold seg_ok in Hs. apply andb_true_iff in Hs as [_ H]. by apply negb_true_iff. }
  rewrite split_slash_plain; [| done | intros ->; vm_compute in Hs; discriminate].
  apply normalize_plain. by repeat constructor.
Qed.

Lemma join_segment_ne_nil p s : seg_ok s = true → join p [s] ≠ [].
Proof. intros Hs. rewrite join_segment by done. by destruct p. Qed.

#[export] Hint Resolve join_segment_ne_nil : forge.
#[export] Hint Extern 1 (seg_ok _ = true) => reflexivity : forge.

(** Joining segments in normal form appends them. *)
Lemma join_plain p segs : path_wf segs → join p segs = p ++ segs.
Proof.
  intros Hs. unfold join.
  assert (List.concat (map split_slash segs) = segs) as ->.
  { induction Hs as [|s segs Hs' _ IH]; [done|]. cbn. rewrite IH.
    unfold seg_ok in Hs'. apply andb_true_iff in Hs' as [H1 H2].
    rewrite split_slash_plain; [done|by apply negb_true_iff|].
    intros ->. vm_compute in H1. discriminate. }
  by apply normalize_plain.
Qed.
