(* ===== verification/Types.v ===== *)
(** * The records of [src/src/types.ts]

    [ProjectOptions] is the options object commander builds: every field
    is optional ([None] is [undefined]).  [ProjectResult] is what
    [createProject] returns on success.  The two records share the field
    name [template] (and [ProjectOptions] shares [branch] with
    [TemplateInfo]), so each sits in a module of its own. *)

From S2P Require Import Prelude.

(** [interface TemplateInfo] *)
Record TemplateInfo : Type := {
  branch : string;
  description : string;
}.

Module Opt.
(** [interface ProjectOptions] *)
Record ProjectOptions : Type := {
  yes : option bool;
  typescript : option bool;
  repo : option string;
  template : option string;
  branch : option string;
  rpc : option bool;
}.
End Opt.

Module Res.
(** [interface ProjectResult] *)
Record ProjectResult : Type := {
  projectName : string;
  gitInitialized : bool;
  dependenciesInstalled : bool;
  template : string;
}.
End Res.
