(* ===== verification/Templates.v ===== *)
(** * The template registry of [src/src/utils/templates.ts]

    [TEMPLATES] maps a template id to the branch of the template
    repository that holds it.  [createProject] looks the user's choice up
    with JavaScript's [TEMPLATES[templateChoice]], falls back to
    [TEMPLATES.default] when that is [undefined], and takes the branch
    from an explicit [--branch], else from the entry, else ["main"].
    The lookup is an object lookup: an own key gives its entry, a key of
    [Object.prototype] (["toString"], ["__proto__"], ...) gives an
    inherited member that has no [branch], any other key is [undefined].

    The five file bodies that [patchFilesForRPC] writes are named
    constants of [template_body]; their text is not spelled out. *)

From S2P Require Import Prelude JsValue Types.

(** ** The registry *)

Definition TEMPLATES : list (string * TemplateInfo) := [
  ("default", {| branch := "main";
                 description := "Basic setup with Bun, Hono, Vite and React" |});
  ("tailwind", {| branch := "tailwindcss"; description := "Basic setup + TailwindCSS" |});
  ("shadcn", {| branch := "shadcn-ui";
                description := "Basic setup + TailwindCSS + shadcn/ui" |})
].

(** The file bodies exported by [templates.ts]. *)
Inductive template_body : Type :=
| HonoRpcBody
| HonoClientBody
| DefaultAppBody
| TailwindAppBody
| ShadcnAppBody.

#[export] Instance template_body_eq_dec : EqDecision template_body.
Proof. solve_decision. Defined.

Definition honoRpcTemplate : template_body := HonoRpcBody.
Definition honoClientTemplate : template_body := HonoClientBody.
Definition defaultTemplate : template_body := DefaultAppBody.
Definition tailwindTemplate : template_body := TailwindAppBody.
Definition shadcnTemplate : template_body := ShadcnAppBody.

(** ** JavaScript's object lookup on [TEMPLATES] *)

(** The names of the members of [Object.prototype], which every object
    literal inherits. *)
Definition object_prototype_keys : list string :=
  ["constructor"; "hasOwnProperty"; "isPrototypeOf"; "propertyIsEnumerable";
   "toString"; "toLocaleString"; "valueOf"; "__proto__";
   "__defineGetter__"; "__defineSetter__"; "__lookupGetter__"; "__lookupSetter__"].

(** A defined value of [TEMPLATES[k]]: an entry of the registry, or an
    inherited member (a function, or [Object.prototype] itself), which is
    truthy and has no [branch]. *)
Inductive member : Type :=
| OwnEntry (t : TemplateInfo)
| Inherited.

(** [TEMPLATES[k]] *)
Definition templates_get (k : string) : option member :=
  match assoc_lookup k TEMPLATES with
  | Some t => Some (OwnEntry t)
  | None => if bool_decide (k ∈ object_prototype_keys) then Some Inherited else None
  end.

(** [m?.branch] *)
Definition member_branch (m : member) : option string :=
  match m with
  | OwnEntry t => Some (branch t)
  | Inherited => None
  end.

(** [TEMPLATES.default] *)
Definition default_info : TemplateInfo :=
  {| branch := "main"; description := "Basic setup with Bun, Hono, Vite and React" |}.

(** [const templateConfig = TEMPLATES[templateChoice] || TEMPLATES.default]:
    both kinds of member are truthy objects, so only [undefined] falls
    back. *)
Definition templateConfig (templateChoice : string) : member :=
  match templates_get templateChoice with
  | Some m => m
  | None => OwnEntry default_info
  end.

(** [const branch = options.branch || (templateConfig?.branch ?? "main")] *)
Definition template_branch (optBranch : option string) (templateChoice : string) : string :=
  optBranch ||| (member_branch (templateConfig templateChoice) ?? "main").

(** [const repoUrl = `${repoPath}#${branch}`] with
    [const repoPath = options.repo || DEFAULT_REPO]. *)
Definition DEFAULT_REPO : string := "stevedylandev/bhvr-forge".

Definition repo_url (optRepo optBranch : option string) (templateChoice : string) : string :=
  (optRepo ||| DEFAULT_REPO) ++ "#" ++ template_branch optBranch templateChoice.

(** The reference the branch choice should agree with: the branch the
    registry lists for the id, ["main"] for an id it does not list. *)
Definition registry_branch (k : string) : string :=
  match assoc_lookup k TEMPLATES with
  | Some t => branch t
  | None => "main"
  end.

(** ** Lemmas *)

Lemma templates_default : assoc_lookup "default" TEMPLATES = Some default_info.
Proof. done. Qed.

Lemma template_branch_override b k :
  truthy b = true → template_branch (Some b) k = b.
Proof. intros Hb. unfold template_branch. by apply js_or_some_truthy. Qed.

Lemma template_branch_no_override ob k :
  truthy ob = false →
  template_branch ob k = member_branch (templateConfig k) ?? "main".
Proof. intros Hb. unfold template_branch. by apply js_or_falsy. Qed.

(** The registry's entries are exactly its three own keys. *)
Lemma templates_keys : map fst TEMPLATES = ["default"; "tailwind"; "shadcn"].
Proof. done. Qed.

Lemma object_prototype_not_template k :
  k ∈ object_prototype_keys → assoc_lookup k TEMPLATES = None.
Proof. intros Hk. repeat (apply elem_of_cons in Hk as [->|Hk]; [done|]). set_solver. Qed.


(** ** Theorems *)

(** C2. Without an explicit [--branch] (absent or empty), the code's
    branch choice (object lookup with its prototype chain, [||] and
    [?.branch ?? "main"]) is equivalent to the plain registry lookup
    [registry_branch]: the branch the registry gives the template id, and
    ["main"] for any id the registry does not hold, whether it is unknown
    or the name of an inherited [Object.prototype] member such as
    ["toString"]. *)
Theorem template_branch_registered ob k :
  truthy ob = false → template_branch ob k = registry_branch k.
Proof.
  intros Hb. rewrite template_branch_no_override by done.
  unfold templateConfig, templates_get, registry_branch.
  destruct (assoc_lookup k TEMPLATES); [done|]. by case_bool_decide.
Qed.

Lemma template_branch_registered_witness :
  truthy (None : option string) = false ∧
  template_branch None "tailwind" = registry_branch "tailwind".
Proof. split; [reflexivity|]. apply template_branch_registered. reflexivity. Defined.
