(* ===== verification/TemplateText.v ===== *)
(** * The text of the template bodies of [src/src/utils/templates.ts]

    [templates.ts] exports five bodies as template literals:
    [honoRpcTemplate] (the Hono server with its RPC routes),
    [honoClientTemplate] (the typed client helper) and the three [App.tsx]
    variants [defaultTemplate], [tailwindTemplate] and [shadcnTemplate].
    [patchFilesForRPC] writes them into the project (see [RpcPatch]).

    Each body is modelled as the list of its lines, the value of the
    template literal split on its newlines: the escapes [\`] and [\$]
    of the source stand for the characters themselves, and a double quote
    is written with [q], which joins the pieces of a line with the
    double-quote character [dq].
    [body_text] joins the lines back into the string the code writes.

    The scanners below read the lines the way a reader checks them: the
    first statement that starts with [.] right after a statement closed
    by [;] (a syntax error in TypeScript), the named imports of each
    module, and the names a body exports. *)

From S2P Require Import Prelude Paths Templates.

(** ** Characters and lines *)

Definition dq : string := String (ascii_of_nat 34) EmptyString.
Definition nl : string := String (ascii_of_nat 10) EmptyString.

(** The pieces of a line, joined by double quotes. *)
Fixpoint q (pieces : list string) : string :=
  match pieces with
  | [] => EmptyString
  | [s] => s
  | s :: rest => (s ++ dq ++ q rest)%string
  end.

(** The lines of a body joined by newlines: the string value. *)
Fixpoint join_lines (ls : list string) : string :=
  match ls with
  | [] => EmptyString
  | [l] => l
  | l :: rest => (l ++ nl ++ join_lines rest)%string
  end.

(** ** The five bodies *)

(** [honoRpcTemplate], [templates.ts] lines 15-71. *)
Definition honoRpcTemplate_lines : list string := [
  q ["import { Hono } from "; "hono"; ";"];
  q ["import { cors } from "; "hono/cors"; ";"];
  q ["import type { ApiResponse } from "; "shared/dist"; ";"];
  q ["import { createTestClient, http, publicActions, walletActions } from "; "viem"; ";"];
  "import { foundry } from 'viem/chains'";
  "import { counterAbi } from 'contracts'";
  EmptyString;
  "const client = createTestClient({";
  "  chain: foundry,";
  "  mode: 'anvil',";
  "  transport: http()";
  "})";
  "  .extend(publicActions)";
  "  .extend(walletActions);";
  EmptyString;
  "export const app = new Hono()";
  EmptyString;
  ".use(cors())";
  EmptyString;
  q [".get("; "/"; ", (c) => {"];
  q ["	return c.text("; "Hello Hono!"; ");"];
  "})";
  EmptyString;
  q [".get("; "/hello"; ", async (c) => {"];
  "	const data: ApiResponse = {";
  q ["		message: "; "Hello BHVR!"; ","];
  "		success: true,";
  "	};";
  EmptyString;
  "	return c.json(data, { status: 200 });";
  "});";
  EmptyString;
  ".get('/contracts/:address/counter', async (c) => {";
  "  try {";
  "    const address = c.req.param('address') as `0x${ string }`";
  EmptyString;
  "    const result = await client.readContract({";
  "      address,";
  "      abi: counterAbi,";
  "      functionName: 'number'";
  "    })";
  EmptyString;
  "    const response: ApiResponse = {";
  "      message: `Counter value: ${ result } `,";
  "      success: true";
  "    }";
  EmptyString;
  "    return c.json(response)";
  "  } catch (error) {";
  "    return c.json({";
  "      message: 'Failed to read contract',";
  "      success: false";
  "    }, 500)";
  "  }";
  "})";
  EmptyString;
  "export default app;"
].

(** [honoClientTemplate], [templates.ts] lines 73-80. *)
Definition honoClientTemplate_lines : list string := [
  q ["import { hc } from "; "hono/client"; ";"];
  q ["import type { app } from "; "./index"; ";"];
  EmptyString;
  "export type AppType = typeof app;";
  "export type Client = ReturnType<typeof hc<AppType>>;";
  EmptyString;
  "export const hcWithType = (...args: Parameters<typeof hc>): Client =>";
  "  hc<AppType>(...args);"
].

(** [defaultTemplate], [templates.ts] lines 82-175. *)
Definition defaultTemplate_lines : list string := [
  "import { useState } from 'react'";
  "import beaver from './assets/beaver.svg'";
  "import { hcWithType } from 'server/dist/client'";
  q ["import { createTestClient, http, publicActions, walletActions } from "; "viem"; ";"];
  "import { foundry } from 'viem/chains'";
  "import { counterAbi } from 'contracts'";
  "import './App.css'";
  EmptyString;
  q ["const SERVER_URL = import.meta.env.VITE_SERVER_URL || "; "http://localhost:3000"; EmptyString];
  q ["const CONTRACT_ADDRESS = "; "0x742d35Cc6634C0532925a3b8D404fBaF464DfD85"; EmptyString];
  EmptyString;
  "const client = hcWithType(SERVER_URL);";
  "const viemClient = createTestClient({";
  "  chain: foundry,";
  "  mode: 'anvil',";
  "  transport: http()";
  "})";
  "  .extend(publicActions)";
  "  .extend(walletActions)";
  EmptyString;
  "type ResponseType = Awaited<ReturnType<typeof client.hello.$get>>;";
  EmptyString;
  "function App() {";
  q ["  const [data, setData] = useState<Awaited<ReturnType<ResponseType["; "json"; "]>> | undefined>()"];
  "  const [counterValue, setCounterValue] = useState<bigint | undefined>()";
  EmptyString;
  "  async function sendRequest() {";
  "    try {";
  "      const res = await client.hello.$get()";
  "      if (!res.ok) {";
  q ["        console.log("; "Error fetching data"; ")"];
  "        return";
  "      }";
  "      const data = await res.json()";
  "      setData(data)";
  "    } catch (error) {";
  "      console.log(error)";
  "    }";
  "  }";
  EmptyString;
  "  async function readContract() {";
  "    try {";
  "      const result = await viemClient.readContract({";
  "        address: CONTRACT_ADDRESS,";
  "        abi: counterAbi,";
  q ["        functionName: "; "number"; EmptyString];
  "      })";
  "      setCounterValue(result)";
  "    } catch (error) {";
  q ["      console.log("; "Contract read error:"; ", error)"];
  "    }";
  "  }";
  EmptyString;
  "  return (";
  "    <>";
  "      <div>";
  q ["        <a href="; "https://github.com/stevedylandev/bhvr-forge"; " target="; "_blank"; ">"];
  q ["          <img src={beaver} className="; "logo"; " alt="; "beaver logo"; " />"];
  "        </a>";
  "      </div>";
  "      <h1>bhvr forge</h1>";
  "      <h2>Bun + Hono + Vite + React + Forge</h2>";
  "      <p>A typesafe fullstack monorepo with smart contracts</p>";
  q ["      <div className="; "card"; ">"];
  "        <div className='button-container'>";
  "          <button onClick={sendRequest}>";
  "            Call API";
  "          </button>";
  "          <button onClick={readContract}>";
  "            Read Contract";
  "          </button>";
  q ["          <a className='docs-link' target='_blank' href="; "https://forge.bhvr.dev"; ">Docs</a>"];
  "        </div>";
  "        {data && (";
  "          <pre className='response'>";
  "            <code>";
  "            Message: {data.message} <br />";
  "            Success: {data.success.toString()}";
  "            </code>";
  "          </pre>";
  "        )}";
  "        {counterValue !== undefined && (";
  "          <pre className='response'>";
  "            <code>";
  "            Counter Value: {counterValue.toString()}";
  "            </code>";
  "          </pre>";
  "        )}";
  "      </div>";
  "    </>";
  "  )";
  "}";
  EmptyString;
  "export default App"
].

(** [tailwindTemplate], [templates.ts] lines 177-277. *)
Definition tailwindTemplate_lines : list string := [
  "import { useState } from 'react'";
  "import beaver from './assets/beaver.svg'";
  "import { hcWithType } from 'server/dist/client'";
  q ["import { createTestClient, http, publicActions, walletActions } from "; "viem"; ";"];
  "import { foundry } from 'viem/chains'";
  "import { counterAbi } from 'contracts'";
  EmptyString;
  q ["const SERVER_URL = import.meta.env.VITE_SERVER_URL || "; "http://localhost:3000"; EmptyString];
  q ["const CONTRACT_ADDRESS = "; "0x742d35Cc6634C0532925a3b8D404fBaF464DfD85"; EmptyString];
  EmptyString;
  "type ResponseType = Awaited<ReturnType<typeof client.hello.$get>>;";
  EmptyString;
  "const client = hcWithType(SERVER_URL);";
  "const viemClient = createTestClient({";
  "  chain: foundry,";
  "  mode: 'anvil',";
  "  transport: http()";
  "})";
  "  .extend(publicActions)";
  "  .extend(walletActions);";
  EmptyString;
  "function App() {";
  q ["  const [data, setData] = useState<Awaited<ReturnType<ResponseType["; "json"; "]>> | undefined>()"];
  "  const [counterValue, setCounterValue] = useState<bigint | undefined>()";
  EmptyString;
  "  async function sendRequest() {";
  "    try {";
  "      const res = await client.hello.$get()";
  "      if (!res.ok) {";
  q ["        console.log("; "Error fetching data"; ")"];
  "        return";
  "      }";
  "      const data = await res.json()";
  "      setData(data)";
  "    } catch (error) {";
  "      console.log(error)";
  "    }";
  "  }";
  EmptyString;
  "  async function readContract() {";
  "    try {";
  "      const result = await viemClient.readContract({";
  "        address: CONTRACT_ADDRESS,";
  "        abi: counterAbi,";
  q ["        functionName: "; "number"; EmptyString];
  "      })";
  "      setCounterValue(result)";
  "    } catch (error) {";
  q ["      console.log("; "Contract read error:"; ", error)"];
  "    }";
  "  }";
  EmptyString;
  "  return (";
  q ["    <div className="; "max-w-xl mx-auto flex flex-col gap-6 items-center justify-center min-h-screen"; ">"];
  q ["      <a href="; "https://github.com/stevedylandev/bhvr-forge"; " target="; "_blank"; ">"];
  "        <img";
  "          src={beaver}";
  q ["          className="; "w-16 h-16 cursor-pointer"; EmptyString];
  q ["          alt="; "beaver logo"; EmptyString];
  "        />";
  "      </a>";
  q ["      <h1 className="; "text-5xl font-black"; ">bhvr forge</h1>"];
  q ["      <h2 className="; "text-2xl font-bold"; ">Bun + Hono + Vite + React + Forge</h2>"];
  "      <p>A typesafe fullstack monorepo with smart contracts</p>";
  "      <div className='flex items-center gap-4'>";
  "        <button";
  "          onClick={sendRequest}";
  q ["          className="; "bg-black text-white px-2.5 py-1.5 rounded-md"; EmptyString];
  "        >";
  "          Call API";
  "        </button>";
  "        <button";
  "          onClick={readContract}";
  q ["          className="; "bg-black text-white px-2.5 py-1.5 rounded-md"; EmptyString];
  "        >";
  "          Read Contract";
  "        </button>";
  q ["        <a target='_blank' href="; "https://forge.bhvr.dev"; " className='border-1 border-black text-black px-2.5 py-1.5 rounded-md'>"];
  "          Docs";
  "        </a>";
  "      </div>";
  "        {data && (";
  q ["          <pre className="; "bg-gray-100 p-4 rounded-md"; ">"];
  "            <code>";
  "            Message: {data.message} <br />";
  "            Success: {data.success.toString()}";
  "            </code>";
  "          </pre>";
  "        )}";
  "        {counterValue !== undefined && (";
  q ["          <pre className="; "bg-gray-100 p-4 rounded-md"; ">"];
  "            <code>";
  "            Counter Value: {counterValue.toString()}";
  "            </code>";
  "          </pre>";
  "        )}";
  "    </div>";
  "  )";
  "}";
  EmptyString;
  "export default App"
].

(** [shadcnTemplate], [templates.ts] lines 279-383. *)
Definition shadcnTemplate_lines : list string := [
  "import { useState } from 'react'";
  "import beaver from './assets/beaver.svg'";
  "import { Button } from './components/ui/button'";
  "import { hcWithType } from 'server/dist/client'";
  q ["import { createTestClient, http, publicActions, walletActions } from "; "viem"; ";"];
  "import { forge } from 'viem/chains'";
  "import { counterAbi } from 'contracts'";
  EmptyString;
  q ["const SERVER_URL = import.meta.env.VITE_SERVER_URL || "; "http://localhost:3000"; EmptyString];
  q ["const CONTRACT_ADDRESS = "; "0x742d35Cc6634C0532925a3b8D404fBaF464DfD85"; EmptyString];
  EmptyString;
  "const client = hcWithType(SERVER_URL);";
  "const viemClient = createTestClient({";
  "  chain: forge,";
  "  mode: 'anvil',";
  "  transport: http()";
  "})";
  "  .extend(publicActions)";
  "  .extend(walletActions);";
  EmptyString;
  "type ResponseType = Awaited<ReturnType<typeof client.hello.$get>>;";
  EmptyString;
  "function App() {";
  q ["  const [data, setData] = useState<Awaited<ReturnType<ResponseType["; "json"; "]>> | undefined>()"];
  "  const [counterValue, setCounterValue] = useState<bigint | undefined>()";
  EmptyString;
  "  async function sendRequest() {";
  "    try {";
  "      const res = await client.hello.$get()";
  "      if (!res.ok) {";
  q ["        console.log("; "Error fetching data"; ")"];
  "        return";
  "      }";
  "      const data = await res.json()";
  "      setData(data)";
  "    } catch (error) {";
  "      console.log(error)";
  "    }";
  "  }";
  EmptyString;
  "  async function readContract() {";
  "    try {";
  "      const result = await viemClient.readContract({";
  "        address: CONTRACT_ADDRESS,";
  "        abi: counterAbi,";
  q ["        functionName: "; "number"; EmptyString];
  "      })";
  "      setCounterValue(result)";
  "    } catch (error) {";
  q ["      console.log("; "Contract read error:"; ", error)"];
  "    }";
  "  }";
  EmptyString;
  "  return (";
  q ["    <div className="; "max-w-xl mx-auto flex flex-col gap-6 items-center justify-center min-h-screen"; ">"];
  q ["      <a href="; "https://github.com/stevedylandev/bhvr-forge"; " target="; "_blank"; ">"];
  "        <img";
  "          src={beaver}";
  q ["          className="; "w-16 h-16 cursor-pointer"; EmptyString];
  q ["          alt="; "beaver logo"; EmptyString];
  "        />";
  "      </a>";
  q ["      <h1 className="; "text-5xl font-black"; ">bhvr forge</h1>"];
  q ["      <h2 className="; "text-2xl font-bold"; ">Bun + Hono + Vite + React + Forge</h2>"];
  "      <p>A typesafe fullstack monorepo with smart contracts</p>";
  "      <div className='flex items-center gap-4'>";
  "        <Button";
  "          onClick={sendRequest}";
  "        >";
  "          Call API";
  "        </Button>";
  "        <Button";
  "          onClick={readContract}";
  "        >";
  "          Read Contract";
  "        </Button>";
  "        <Button";
  "          variant='secondary'";
  "          asChild";
  "        >";
  q ["          <a target='_blank' href="; "https://forge.bhvr.dev"; ">"];
  "          Docs";
  "          </a>";
  "        </Button>";
  "      </div>";
  "        {data && (";
  q ["          <pre className="; "bg-gray-100 p-4 rounded-md"; ">"];
  "            <code>";
  "            Message: {data.message} <br />";
  "            Success: {data.success.toString()}";
  "            </code>";
  "          </pre>";
  "        )}";
  "        {counterValue !== undefined && (";
  q ["          <pre className="; "bg-gray-100 p-4 rounded-md"; ">"];
  "            <code>";
  "            Counter Value: {counterValue.toString()}";
  "            </code>";
  "          </pre>";
  "        )}";
  "    </div>";
  "  )";
  "}";
  EmptyString;
  "export default App"
].
Definition body_lines (b : template_body) : list string :=
  match b with
  | HonoRpcBody => honoRpcTemplate_lines
  | HonoClientBody => honoClientTemplate_lines
  | DefaultAppBody => defaultTemplate_lines
  | TailwindAppBody => tailwindTemplate_lines
  | ShadcnAppBody => shadcnTemplate_lines
  end.

(** The string [patchFilesForRPC] writes for a body. *)
Definition body_text (b : template_body) : string := join_lines (body_lines b).

(** ** Reading the lines *)

Definition is_space (c : ascii) : bool := Ascii.eqb c " "%char || Ascii.eqb c "009"%char.

Definition nonspace (l : string) : list ascii := filter (λ c, negb (is_space c)) (list_ascii_of_string l).

(** The first and the last character of a line that is not blank. *)
Definition first_nonspace (l : string) : option ascii := hd_error (nonspace l).
Definition last_nonspace (l : string) : option ascii := hd_error (rev (nonspace l)).

(** The index of the first line that starts with [.] while the last
    non-blank line before it ends with [;]: the [;] ends the statement,
    so the line starts a new statement with a member access, which
    TypeScript rejects. *)
Fixpoint dangling_member_from (prev : option ascii) (i : nat) (ls : list string) : option nat :=
  match ls with
  | [] => None
  | l :: ls' =>
      match first_nonspace l with
      | None => dangling_member_from prev (S i) ls'
      | Some c =>
          if Ascii.eqb c "."%char && bool_decide (prev = Some ";"%char) then Some i
          else dangling_member_from (last_nonspace l) (S i) ls'
      end
  end.

Definition dangling_member (ls : list string) : option nat := dangling_member_from None 0 ls.

(** [s] without the prefix [pre], if it starts with it. *)
Definition strip_prefix (pre s : string) : option string :=
  if String.prefix pre s
  then Some (String.substring (String.length pre) (String.length s - String.length pre) s)
  else None.

Fixpoint take_while (f : ascii → bool) (s : string) : string :=
  match s with
  | String c s' => if f c then String c (take_while f s') else EmptyString
  | EmptyString => EmptyString
  end.

Fixpoint drop_while (f : ascii → bool) (s : string) : string :=
  match s with
  | String c s' => if f c then drop_while f s' else s
  | EmptyString => EmptyString
  end.

(** The pieces of [s] between the commas, without surrounding blanks. *)
Fixpoint split_commas_from (cur : string) (s : string) : list string :=
  match s with
  | EmptyString => [cur]
  | String c s' =>
      if Ascii.eqb c ","%char then cur :: split_commas_from EmptyString s'
      else split_commas_from (cur ++ String c EmptyString)%string s'
  end.

Definition trim (s : string) : string :=
  string_of_list_ascii (rev (list_ascii_of_string
    (drop_while is_space (string_of_list_ascii (rev (list_ascii_of_string (drop_while is_space s))))))).

(** The module of [import ... from 'm'] or [import ... from "m"]: the
    characters between the opening quote and the matching one. *)
Definition unquote (s : string) : string :=
  match s with
  | String c s' => take_while (λ c', negb (Ascii.eqb c' c)) s'
  | EmptyString => EmptyString
  end.

(** [import { a, b } from 'm'] and [import type { a } from "m"]: the
    names and the module. *)
Definition named_import (l : string) : option (list string * string) :=
  rest ← strip_prefix "import " l;
  let rest := match strip_prefix "type " rest with Some r => r | None => rest end in
  rest ← strip_prefix "{ " rest;
  i ← String.index 0 " } from " rest;
  let names := String.substring 0 i rest in
  let m := String.substring (i + 8) (String.length rest - (i + 8)) rest in
  Some (map trim (split_commas_from EmptyString names), unquote m).

(** The names a body imports from module [m]. *)
Definition imports_from (m : string) (ls : list string) : list string :=
  List.concat (omap (λ l, match named_import l with
                          | Some (ns, m') => if String.eqb m m' then Some ns else None
                          | None => None
                          end) ls).

Definition is_ident_char (c : ascii) : bool :=
  let n := nat_of_ascii c in
  (Nat.leb 48 n && Nat.leb n 57) || (Nat.leb 65 n && Nat.leb n 90) ||
  (Nat.leb 97 n && Nat.leb n 122) || Nat.eqb n 95 || Nat.eqb n 36.

(** [export const x], [export type x] and [export default ...]. *)
Definition export_name (l : string) : option string :=
  match strip_prefix "export const " l with
  | Some r => Some (take_while is_ident_char r)
  | None =>
      match strip_prefix "export type " l with
      | Some r => Some (take_while is_ident_char r)
      | None => match strip_prefix "export default " l with
                | Some _ => Some "default"
                | None => None
                end
      end
  end.

Definition exports (ls : list string) : list string := omap export_name ls.

(** ** What the bodies say *)

(** The client helper imports exactly [app] from ["./index"], and the
    RPC server exports it. *)
Lemma helper_index_import :
  imports_from "./index" (body_lines HonoClientBody) = ["app"] ∧
  "app" ∈ exports (body_lines HonoRpcBody).
Proof. split; [vm_refl|]. vm_compute. by left. Qed.

(** The bodies that can become [client/src/App.tsx]. *)
Definition app_bodies : list template_body := [DefaultAppBody; TailwindAppBody; ShadcnAppBody].

(** What each [App.tsx] variant imports from ['server/dist/client']
    ([hcWithType]) is exported by the client helper body. *)
Lemma app_bodies_import_helper b :
  b ∈ app_bodies →
  imports_from "server/dist/client" (body_lines b) ⊆ exports (body_lines HonoClientBody).
Proof.
  assert (exports (body_lines HonoClientBody) = ["AppType"; "Client"; "hcWithType"]) as Hex
    by vm_refl.
  rewrite Hex. intros Hb.
  assert (imports_from "server/dist/client" (body_lines b) = ["hcWithType"]) as ->.
  { unfold app_bodies in Hb.
    repeat (apply elem_of_cons in Hb as [->|Hb]; [vm_refl|]). by apply not_elem_of_nil in Hb. }
  intros x ->%list_elem_of_singleton. rewrite !elem_of_cons. tauto.
Qed.
