(* ===== verification/FsModel.v ===== *)
(** * The file system, as fs-extra and degit use it

    A file system is a stdpp [gmap] from absolute paths to nodes (a
    directory, or a file with its content).  Each operation the program
    calls is a computation of [stM fs fs_error] with the errors node
    raises: [existsSync], [readdirSync], [ensureDirSync] ([mkdir -p]),
    [emptyDir], [remove] ([rm -rf]), [readJson], [writeJson],
    [writeFile], and [extract], which writes a downloaded tree under a
    directory the way degit's tar extraction does (creating the parents
    of each entry, overwriting files that are there).

    [fs_wf] is the invariant of a tree: the root is a directory, and the
    parent of every entry is a directory.  Every operation preserves it
    (section [wf]). *)

From S2P Require Import Prelude JsValue Paths Templates.

(** ** Data *)

Inductive content : Type :=
| CJson (v : json)          (** a file that parses as JSON *)
| CText (s : string)        (** text that does not parse as JSON *)
| CBody (b : template_body). (** a body of [templates.ts] *)

Inductive node : Type :=
| NDir
| NFile (c : content).

Abbreviation fs := (gmap path node).

Inductive fs_error : Type :=
| ENOENT (p : path)
| ENOTDIR (p : path)
| EISDIR (p : path)
| EEXIST (p : path)
| EJSONPARSE (p : path).

Abbreviation fsM := (stM fs fs_error).

Definition fs_wf (m : fs) : Prop :=
  m !! [] = Some NDir ∧ ∀ p x n, m !! (p ++ [x]) = Some n → m !! p = Some NDir.

(** ** Operations *)

(** [fs.existsSync(p)] *)
Definition exists_sync (p : path) : fsM bool :=
  gets (λ m : fs, bool_decide (is_Some (m !! p))).

(** Walk from [base] down [rest]: the first segment that is missing or a
    file stops the walk with the error node reports. *)
Fixpoint walk_dirs (m : fs) (base : path) (rest : list string) : option fs_error :=
  match rest with
  | [] => None
  | x :: rest' =>
      match m !! (base ++ [x]) with
      | None => Some (ENOENT (base ++ [x]))
      | Some (NFile _) => Some (ENOTDIR (base ++ [x]))
      | Some NDir => walk_dirs m (base ++ [x]) rest'
      end
  end.

(** The name of [q] inside directory [p], when [q] is an entry of [p]. *)
Definition child_name (p q : path) : option string :=
  if bool_decide (p `prefix_of` q) then
    match drop (List.length p) q with
    | [x] => Some x
    | _ => None
    end
  else None.

(** [fs.readdirSync(p)] (in the map's order; the code uses only the
    length). *)
Definition read_dir (p : path) : fsM (list string) := λ m,
  match walk_dirs m [] p with
  | Some e => (Exn e, m)
  | None =>
      match m !! p with
      | None => (Exn (ENOENT p), m)
      | Some (NFile _) => (Exn (ENOTDIR p), m)
      | Some NDir => (Ok (omap (λ kv : path * node, child_name p kv.1) (map_to_list m)), m)
      end
  end.

(** [mkdir -p]: create each missing directory from [base] down [rest]. *)
Fixpoint mkdirp_from (base : path) (rest : list string) : fsM unit := λ m,
  match rest with
  | [] => (Ok (), m)
  | x :: rest' =>
      match m !! (base ++ [x]) with
      | None => mkdirp_from (base ++ [x]) rest' (<[base ++ [x] := NDir]> m)
      | Some NDir => mkdirp_from (base ++ [x]) rest' m
      | Some (NFile _) =>
          match rest' with
          | [] => (Exn (EEXIST (base ++ [x])), m)
          | _ :: _ => (Exn (ENOTDIR (base ++ [x])), m)
          end
      end
  end.

(** [fs.ensureDirSync(p)] *)
Definition ensure_dir (p : path) : fsM unit := mkdirp_from [] p.

(** [q] is [p] or below it. *)
Definition at_or_below (p q : path) : bool := bool_decide (p `prefix_of` q).

(** Strictly below [p]. *)
Definition strictly_below (p q : path) : bool :=
  bool_decide (p `prefix_of` q ∧ p ≠ q).

(** [fs.emptyDir(p)]: delete everything below [p]; when [p] does not exist
    fs-extra creates it, and when it is a file its [mkdirs] fails. *)
Definition empty_dir (p : path) : fsM unit := λ m,
  match m !! p with
  | Some NDir => (Ok (), filter (λ kv : path * node, strictly_below p kv.1 = false) m)
  | Some (NFile _) => (Exn (EEXIST p), m)
  | None => ensure_dir p m
  end.

(** [fs.remove(p)]: delete [p] and everything below it; no error when
    [p] does not exist. *)
Definition remove (p : path) : fsM unit := λ m,
  (Ok (), filter (λ kv : path * node, at_or_below p kv.1 = false) m).

(** [fs.writeFile(p, c)]: the parent must be a directory, and [p] must
    not be one. *)
Definition write_file (p : path) (c : content) : fsM unit := λ m,
  match p with
  | [] => (Exn (EISDIR []), m)
  | _ :: _ =>
      match walk_dirs m [] (removelast p) with
      | Some e => (Exn e, m)
      | None =>
          match m !! p with
          | Some NDir => (Exn (EISDIR p), m)
          | _ => (Ok (), <[p := NFile c]> m)
          end
      end
  end.

(** [fs.readFile(p)] *)
Definition read_file (p : path) : fsM content := λ m,
  match walk_dirs m [] (removelast p) with
  | Some e => (Exn e, m)
  | None =>
      match m !! p with
      | None => (Exn (ENOENT p), m)
      | Some NDir => (Exn (EISDIR p), m)
      | Some (NFile c) => (Ok c, m)
      end
  end.

(** [fs.readJson(p)]: read, then [JSON.parse]. *)
Definition read_json (p : path) : fsM json :=
  c ← read_file p;
  match c with
  | CJson v => mret v
  | _ => throw (EJSONPARSE p)
  end.

(** [fs.writeJson(p, v, { spaces: 2 })]: the file holds [JSON.stringify]
    of [v], which parses back to [v]. *)
Definition write_json (p : path) (v : json) : fsM unit := write_file p (CJson v).

(** A downloaded tree: entries relative to the target directory. *)
Abbreviation tree := (list (path * node)).

(** degit's extraction of a tree into [dst]. *)
Fixpoint extract (dst : path) (t : tree) : fsM unit :=
  match t with
  | [] => mret ()
  | (rel, NDir) :: t' => ensure_dir (dst ++ rel);; extract dst t'
  | (rel, NFile c) :: t' =>
      ensure_dir (dst ++ removelast rel);; write_file (dst ++ rel) c;; extract dst t'
  end.

(** ** The tree invariant *)

Section wf.
Implicit Types (m : fs) (p q : path).

Lemma wf_root m : fs_wf m → m !! [] = Some NDir.
Proof. by intros [? _]. Qed.

(** Every proper ancestor of an entry is a directory. *)
Lemma wf_ancestor m p q n :
  fs_wf m → m !! (p ++ q) = Some n → q ≠ [] → m !! p = Some NDir.
Proof.
  intros [_ Hwf]. revert n. induction q as [|y q IH] using rev_ind; intros n Hq Hne; [done|].
  rewrite app_assoc in Hq. apply Hwf in Hq.
  destruct q as [|z q']; [by rewrite app_nil_r in Hq|].
  by eapply IH.
Qed.

Lemma walk_dirs_none m base rest :
  m !! base = Some NDir → walk_dirs m base rest = None → m !! (base ++ rest) = Some NDir.
Proof.
  revert base. induction rest as [|x rest IH]; intros base Hb Hw; cbn in *.
  - by rewrite app_nil_r.
  - destruct (m !! (base ++ [x])) as [[]|] eqn:Hx; try done.
    rewrite cons_middle, app_assoc. by apply IH.
Qed.

Lemma walk_dirs_dir m base rest :
  fs_wf m → m !! (base ++ rest) = Some NDir → walk_dirs m base rest = None.
Proof.
  intros Hwf. revert base. induction rest as [|x rest IH]; intros base Hd; cbn; [done|].
  rewrite cons_middle, app_assoc in Hd.
  destruct rest as [|y rest'].
  - rewrite app_nil_r in Hd. by rewrite Hd.
  - assert (m !! (base ++ [x]) = Some NDir) as Hx by (eapply wf_ancestor; eauto).
    rewrite Hx. by apply IH.
Qed.

(** Under the invariant, the walk from the root succeeds exactly on
    directories. *)
Lemma walk_root_iff m p : fs_wf m → walk_dirs m [] p = None ↔ m !! p = Some NDir.
Proof.
  intros Hwf. split.
  - intros Hw. apply (walk_dirs_none m [] p (wf_root m Hwf) Hw).
  - intros Hd. by apply walk_dirs_dir.
Qed.

(** Adding an entry below a directory keeps a tree, unless a file
    replaces a directory (whose entries would lose their parent). *)
Lemma wf_insert_child m p x n :
  fs_wf m → m !! p = Some NDir → (n = NDir ∨ m !! (p ++ [x]) ≠ Some NDir) →
  fs_wf (<[p ++ [x] := n]> m).
Proof.
  intros [Hroot Hwf] Hp Hn. split.
  - rewrite lookup_insert_ne; [done|]. intros Heq. by destruct p.
  - intros q y n' Hq.
    destruct (decide (q ++ [y] = p ++ [x])) as [Heq|Hne].
    + apply app_inj_tail in Heq as [-> ->].
      rewrite lookup_insert_ne; [done|]. intros Heq.
      apply (f_equal List.length) in Heq. rewrite length_app in Heq. cbn in Heq. lia.
    + rewrite lookup_insert_ne in Hq by done.
      destruct (decide (q = p ++ [x])) as [->|Hqne].
      * rewrite lookup_insert_eq. destruct Hn as [->|Hn]; [done|].
        exfalso. apply Hn. by eapply Hwf.
      * rewrite lookup_insert_ne by done. by eapply Hwf.
Qed.

(** Deleting a set of paths closed downwards (the entries below a
    deleted path are deleted, the root is not) keeps a tree. *)
Lemma wf_filter m (del : path → bool) :
  fs_wf m → del [] = false → (∀ q y, del q = true → del (q ++ [y]) = true) →
  fs_wf (filter (λ kv : path * node, del kv.1 = false) m).
Proof.
  intros [Hroot Hwf] Hkr Hkd. split.
  - apply map_lookup_filter_Some. by split.
  - intros q y n Hq. apply map_lookup_filter_Some in Hq as [Hq Hk]. cbn in Hk.
    apply map_lookup_filter_Some. split; [by eapply Hwf|]. cbn.
    destruct (del q) eqn:Hd; [|done]. by rewrite (Hkd q y Hd) in Hk.
Qed.

Lemma mkdirp_from_wf base rest m :
  fs_wf m → m !! base = Some NDir → fs_wf (state_of (mkdirp_from base rest) m).
Proof.
  revert base m. induction rest as [|x rest IH]; intros base m Hwf Hb; [done|].
  unfold state_of; cbn.
  destruct (m !! (base ++ [x])) as [[|c]|] eqn:Hx.
  - by apply IH.
  - by destruct rest.
  - apply IH.
    + apply wf_insert_child; auto.
    + by rewrite lookup_insert_eq.
Qed.

Lemma write_file_wf p c m : fs_wf m → fs_wf (state_of (write_file p c) m).
Proof.
  intros Hwf. unfold state_of, write_file.
  destruct p as [|y p'] eqn:Hp; [done|]. rewrite <-Hp.
  destruct (walk_dirs m [] (removelast p)) eqn:Hw; [done|].
  assert (p = removelast p ++ [List.last p ""]) as Hsplit.
  { apply app_removelast_last. by rewrite Hp. }
  destruct (m !! p) as [[|c']|] eqn:Hm; [done| |]; cbn;
    rewrite Hsplit; apply wf_insert_child; auto;
    try (apply (walk_root_iff m); done); right; rewrite <-Hsplit, Hm; done.
Qed.
End wf.

#[export] Hint Resolve wf_root : forge.

(** ** Every operation preserves the invariant *)

Abbreviation wf_kept := (preserving fs_wf).

(** An operation that leaves the file system as it is. *)
Definition reads_only {A : Type} (op : fsM A) : Prop := ∀ m, state_of op m = m.

Lemma reads_only_respects {A : Type} (R : relation fs) `{!PreOrder R} (op : fsM A) :
  reads_only op → respects R op.
Proof. intros Hop m. rewrite Hop. reflexivity. Qed.

Lemma exists_sync_reads p : reads_only (exists_sync p).
Proof. done. Qed.

Lemma read_dir_reads p : reads_only (read_dir p).
Proof. intros m. unfold state_of, read_dir. by forge_step. Qed.

Lemma read_file_reads p : reads_only (read_file p).
Proof. intros m. unfold state_of, read_file. by forge_step. Qed.

Lemma read_json_reads p : reads_only (read_json p).
Proof.
  intros m. unfold state_of, read_json, mbind, stM_bind.
  pose proof (read_file_reads p m) as H. unfold state_of in H.
  destruct (read_file p m) as [[[]|] m'] eqn:E; cbn in *; by subst.
Qed.

#[export] Hint Resolve exists_sync_reads read_dir_reads read_file_reads read_json_reads
  reads_only_respects : forge.

Lemma ensure_dir_wf p : respects wf_kept (ensure_dir p).
Proof. intros m Hwf. apply mkdirp_from_wf; auto with forge. Qed.

Lemma write_file_respects_wf p c : respects wf_kept (write_file p c).
Proof. intros m Hwf. by apply write_file_wf. Qed.

Lemma write_json_wf p v : respects wf_kept (write_json p v).
Proof. apply write_file_respects_wf. Qed.

Lemma empty_dir_wf p : respects wf_kept (empty_dir p).
Proof.
  intros m Hwf. unfold state_of, empty_dir.
  destruct (m !! p) as [[|c]|] eqn:Hp; cbn; [| done | by apply ensure_dir_wf].
  apply wf_filter; [done| |]; unfold strictly_below.
  - apply bool_decide_eq_false_2. intros [Hpre Hne]. by apply prefix_nil_inv in Hpre.
  - intros q y. rewrite !bool_decide_eq_true. intros [Hpre Hne]. split.
    + by apply prefix_app_r.
    + intros ->. by apply (prefix_snoc_not q y).
Qed.

Lemma remove_wf p : p ≠ [] → respects wf_kept (remove p).
Proof.
  intros Hp m Hwf. unfold state_of, remove.
  apply wf_filter; [done| |]; unfold at_or_below.
  - apply bool_decide_eq_false_2. intros Hpre. by apply prefix_nil_inv in Hpre.
  - intros q y. rewrite !bool_decide_eq_true. apply prefix_app_r.
Qed.

Lemma extract_wf dst t : respects wf_kept (extract dst t).
Proof.
  induction t as [|[rel [|c]] t IH]; cbn.
  - apply respects_ret, _.
  - apply respects_bind; [apply _|apply ensure_dir_wf|done].
  - apply respects_bind; [apply _|apply ensure_dir_wf|intros _].
    apply respects_bind; [apply _|apply write_file_respects_wf|done].
Qed.

#[export] Hint Resolve ensure_dir_wf write_file_respects_wf write_json_wf empty_dir_wf
  remove_wf extract_wf : forge.

(** ** Deciding the invariant *)

(** [fs_wf] as a check over the entries: the root is a directory and the
    parent of every other entry is one. *)
Definition is_dir (o : option node) : bool :=
  match o with
  | Some NDir => true
  | _ => false
  end.

Definition fs_wfb (m : fs) : bool :=
  is_dir (m !! []) &&
  forallb (λ kv : path * node,
             match kv.1 with
             | [] => true
             | _ :: _ => is_dir (m !! removelast kv.1)
             end) (map_to_list m).

Lemma is_dir_spec o : is_dir o = true ↔ o = Some NDir.
Proof. destruct o as [[]|]; naive_solver. Qed.

Lemma fs_wfb_spec m : fs_wfb m = true ↔ fs_wf m.
Proof.
  unfold fs_wfb, fs_wf. rewrite andb_true_iff, is_dir_spec, forallb_forall.
  split; intros [Hroot H]; split; [done| | done|].
  - intros p x n Hp.
    specialize (H (p ++ [x], n)). rewrite <-list_elem_of_In, elem_of_map_to_list in H.
    specialize (H Hp). cbn in H. destruct (p ++ [x]) eqn:E; [by destruct p|].
    rewrite <-E, removelast_last in H. by apply is_dir_spec in H.
  - intros [q n] Hin. rewrite <-list_elem_of_In, elem_of_map_to_list in Hin. cbn.
    destruct q as [|y q']; [done|]. apply is_dir_spec.
    rewrite (app_removelast_last "" (l:=y :: q')) in Hin by done. by eapply H.
Qed.

#[export] Instance fs_wf_dec m : Decision (fs_wf m).
Proof. destruct (fs_wfb m) eqn:E; [left|right]; rewrite <-fs_wfb_spec; congruence. Defined.

(** ** Directory listings *)

Lemma child_name_spec p q x : child_name p q = Some x ↔ q = p ++ [x].
Proof.
  unfold child_name. split.
  - case_bool_decide as Hpre; [|done]. destruct Hpre as [r ->].
    rewrite drop_app_length. destruct r as [|y [|]]; naive_solver.
  - intros ->. rewrite bool_decide_eq_true_2 by by eexists. by rewrite drop_app_length.
Qed.

(** Reading an existing directory succeeds, and its listing is empty
    exactly when the directory has no entry. *)
Lemma read_dir_dir m p :
  fs_wf m → m !! p = Some NDir →
  ∃ l, read_dir p m = (Ok l, m) ∧ (0 < List.length l ↔ ∃ x n, m !! (p ++ [x]) = Some n).
Proof.
  intros Hwf Hp. unfold read_dir.
  rewrite (walk_dirs_dir m [] p Hwf Hp), Hp. eexists. split; [done|].
  split.
  - intros Hl. destruct (omap _ _) as [|x l] eqn:E; [cbn in Hl; lia|].
    assert (x ∈ x :: l) as Hx by left. rewrite <-E in Hx.
    apply list_elem_of_omap in Hx as [[q n] [Hq Hc]].
    apply elem_of_map_to_list in Hq. apply child_name_spec in Hc. cbn in Hc. subst. eauto.
  - intros (x & n & Hx). destruct (omap _ _) as [|y l] eqn:E; cbn; [|lia].
    assert (x ∈ omap (λ kv : path * node, child_name p kv.1) (map_to_list m)) as Hin.
    { apply list_elem_of_omap. exists (p ++ [x], n). split.
      - by apply elem_of_map_to_list.
      - by apply child_name_spec. }
    rewrite E in Hin. by apply elem_of_nil in Hin.
Qed.

(** [mkdir -p] that succeeds leaves a directory at the path. *)
Lemma mkdirp_from_dir base rest m m' :
  m !! base = Some NDir → mkdirp_from base rest m = (Ok (), m') →
  m' !! (base ++ rest) = Some NDir.
Proof.
  revert base m. induction rest as [|x rest IH]; intros base m Hb Hrun; cbn in Hrun.
  - injection Hrun as <-. by rewrite app_nil_r.
  - rewrite cons_middle, app_assoc.
    destruct (m !! (base ++ [x])) as [[|c]|] eqn:Hx.
    + by eapply IH.
    + by destruct rest.
    + eapply IH; [|done]. by rewrite lookup_insert_eq.
Qed.

Lemma ensure_dir_dir p m m' :
  fs_wf m → ensure_dir p m = (Ok (), m') → m' !! p = Some NDir.
Proof. intros Hwf Hrun. apply (mkdirp_from_dir [] p m m'); auto with forge. Qed.

(** ** Inverting successful operations *)

Lemma write_file_ok_inv p c m m' : write_file p c m = (Ok (), m') → m' = <[p := NFile c]> m.
Proof.
  unfold write_file. destruct p as [|y p']; [congruence|].
  destruct (walk_dirs _ _ _); [congruence|].
  destruct (m !! _) as [[]|]; congruence.
Qed.

Lemma read_json_ok_inv p m v m' :
  read_json p m = (Ok v, m') → m' = m ∧ m !! p = Some (NFile (CJson v)).
Proof.
  unfold read_json, read_file, mbind, stM_bind.
  destruct (walk_dirs m [] (removelast p)); [congruence|].
  destruct (m !! p) as [[|[]]|] eqn:E; cbn; unfold mret, stM_ret, throw; try congruence.
  intros [= -> <-]. done.
Qed.

(** Reading a file that is there, in a tree. *)
Lemma read_file_run m q c : fs_wf m → m !! q = Some (NFile c) → read_file q m = (Ok c, m).
Proof.
  intros Hwf Hq. unfold read_file.
  induction q as [|x q _] using rev_ind; [by rewrite wf_root in Hq|].
  rewrite removelast_last, walk_dirs_dir; [by rewrite Hq|done|].
  by eapply (wf_ancestor m q [x]).
Qed.

Lemma read_json_run m q v : fs_wf m → m !! q = Some (NFile (CJson v)) → read_json q m = (Ok v, m).
Proof. intros Hwf Hq. unfold read_json, mbind, stM_bind. by rewrite (read_file_run m q (CJson v)). Qed.

(** [mkdir -p] on a directory that is there changes nothing. *)
Lemma mkdirp_from_existing m base rest :
  fs_wf m → m !! (base ++ rest) = Some NDir → mkdirp_from base rest m = (Ok (), m).
Proof.
  intros Hwf. revert base. induction rest as [|x rest IH]; intros base Hd; [done|]. cbn.
  rewrite cons_middle, app_assoc in Hd.
  assert (m !! (base ++ [x]) = Some NDir) as ->; [|by apply IH].
  destruct rest as [|y rest']; [by rewrite app_nil_r in Hd|].
  by eapply (wf_ancestor m (base ++ [x]) (y :: rest')).
Qed.

Lemma ensure_dir_existing m p : fs_wf m → m !! p = Some NDir → ensure_dir p m = (Ok (), m).
Proof. apply (mkdirp_from_existing m []). Qed.

(** ** Keeping a directory *)

(** The directory at [d], if there is one, is still there. *)
Definition dir_kept (d : path) : relation fs := λ m m', m !! d = Some NDir → m' !! d = Some NDir.

#[export] Instance dir_kept_preorder d : PreOrder (dir_kept d).
Proof. split; [by intros m|]. intros x y z H1 H2 Hx. auto. Qed.

Lemma mkdirp_from_keeps d base rest : respects (dir_kept d) (mkdirp_from base rest).
Proof.
  revert base. induction rest as [|x rest IH]; intros base m Hd; unfold state_of; cbn; [done|].
  destruct (m !! (base ++ [x])) as [[|c]|] eqn:Hx.
  - by apply IH.
  - by destruct rest.
  - apply IH. destruct (decide (base ++ [x] = d)) as [->|Hne]; [by rewrite lookup_insert_eq|].
    by rewrite lookup_insert_ne.
Qed.

Lemma ensure_dir_keeps d p : respects (dir_kept d) (ensure_dir p).
Proof. apply mkdirp_from_keeps. Qed.

Lemma write_file_keeps d p c : respects (dir_kept d) (write_file p c).
Proof.
  intros m Hd. unfold state_of, write_file.
  destruct p as [|y p']; [done|]. destruct (walk_dirs _ _ _); [done|].
  destruct (m !! (y :: p')) as [[|c']|] eqn:Hp; [done| |]; cbn;
    rewrite lookup_insert_ne; congruence.
Qed.

Lemma write_json_keeps d p v : respects (dir_kept d) (write_json p v).
Proof. apply write_file_keeps. Qed.

Lemma remove_keeps d q : at_or_below q d = false → respects (dir_kept d) (remove q).
Proof.
  intros Hq m Hd. unfold state_of, remove. cbn.
  apply map_lookup_filter_Some. by split.
Qed.

Lemma extract_keeps d dst t : respects (dir_kept d) (extract dst t).
Proof.
  induction t as [|[rel [|c]] t IH]; cbn.
  - apply respects_ret, _.
  - apply respects_bind; [apply _|apply ensure_dir_keeps|done].
  - apply respects_bind; [apply _|apply ensure_dir_keeps|intros _].
    apply respects_bind; [apply _|apply write_file_keeps|done].
Qed.

(** A child of [d] is not at or above [d]. *)
Lemma at_or_below_child d x : at_or_below (d ++ [x]) d = false.
Proof. apply bool_decide_eq_false_2, prefix_snoc_not. Qed.

#[export] Hint Resolve ensure_dir_keeps write_file_keeps write_json_keeps remove_keeps
  extract_keeps : forge.

Lemma at_or_below_join_child d s : seg_ok s = true → at_or_below (join d [s]) d = false.
Proof. intros Hs. rewrite join_segment by done. apply at_or_below_child. Qed.

#[export] Hint Resolve at_or_below_join_child : forge.

(** ** Staying inside a directory

    [confined d m m']: from [m] to [m'] nothing changed outside [d]
    except that missing ancestors of [d] became directories.  Every
    write the program makes for a project is confined to the project
    directory; [confined] is a preorder, and each operation below is
    confined to [d] when the path it writes is at or below [d]. *)
Definition confined (d : path) : relation fs := λ m m',
  ∀ q, ¬ d `prefix_of` q →
       m' !! q = m !! q ∨ (q `prefix_of` d ∧ m !! q = None ∧ m' !! q = Some NDir).

#[export] Instance confined_preorder d : PreOrder (confined d).
Proof.
  split; [intros m q _; by left|].
  intros m1 m2 m3 H12 H23 q Hq.
  destruct (H12 q Hq) as [E1|(Hd1 & N1 & D1)], (H23 q Hq) as [E2|(Hd2 & N2 & D2)].
  - left. congruence.
  - right. split_and!; [done|congruence|done].
  - right. split_and!; [done|done|congruence].
  - congruence.
Qed.

Section confined.
Context (d : path).
Implicit Types (m : fs) (p q : path).

(** Paths that are comparable with [d]: at or below it, or above it. *)
Definition comparable p : Prop := ∀ q, q `prefix_of` p → q `prefix_of` d ∨ d `prefix_of` q.

Lemma comparable_below r : comparable (d ++ r).
Proof. intros q Hq. apply (prefix_weak_total q d (d ++ r)); [done|]. by exists r. Qed.

Lemma insert_confined m q n :
  (d `prefix_of` q ∨ (q `prefix_of` d ∧ m !! q = None ∧ n = NDir)) → confined d m (<[q := n]> m).
Proof.
  intros Hq q' Hq'. destruct (decide (q = q')) as [<-|Hne].
  - destruct Hq as [?|(? & ? & ->)]; [done|]. right. by rewrite lookup_insert_eq.
  - left. by rewrite lookup_insert_ne.
Qed.

Lemma filter_confined m (f : path → bool) :
  (∀ q, f q = true → d `prefix_of` q) →
  confined d m (filter (λ kv : path * node, f kv.1 = false) m).
Proof.
  intros Hf q Hq. left. destruct (f q) eqn:Hfq; [by apply Hf in Hfq|].
  destruct (m !! q) as [n|] eqn:Hm.
  - by apply map_lookup_filter_Some.
  - apply map_lookup_filter_None. by left.
Qed.

Lemma mkdirp_from_confined base rest :
  comparable (base ++ rest) → respects (confined d) (mkdirp_from base rest).
Proof.
  revert base. induction rest as [|x rest IH]; intros base Hc m; unfold state_of; cbn; [reflexivity|].
  assert (comparable ((base ++ [x]) ++ rest)) as Hc' by by rewrite <-app_assoc.
  destruct (m !! (base ++ [x])) as [[|c]|] eqn:Hx.
  - apply IH, Hc'.
  - destruct rest; reflexivity.
  - etrans; [|apply IH, Hc']. apply insert_confined.
    destruct (Hc (base ++ [x])) as [?|?]; [|right; by split_and!|by left].
    exists rest. by rewrite <-app_assoc.
Qed.

Lemma ensure_dir_confined p : comparable p → respects (confined d) (ensure_dir p).
Proof. intros Hp. exact (mkdirp_from_confined [] p Hp). Qed.

Lemma write_file_confined p c : d `prefix_of` p → respects (confined d) (write_file p c).
Proof.
  intros Hp m. unfold state_of, write_file.
  destruct p as [|y p']; [reflexivity|]. destruct (walk_dirs _ _ _); [reflexivity|].
  destruct (m !! (y :: p')) as [[|c']|]; [reflexivity| |]; cbn; apply insert_confined; by left.
Qed.

Lemma write_json_confined p v : d `prefix_of` p → respects (confined d) (write_json p v).
Proof. apply write_file_confined. Qed.

Lemma remove_confined p : d `prefix_of` p → respects (confined d) (remove p).
Proof.
  intros Hp m. apply filter_confined. intros q Hq%bool_decide_eq_true_1. by etrans.
Qed.

Lemma empty_dir_confined : respects (confined d) (empty_dir d).
Proof.
  intros m. unfold state_of, empty_dir.
  destruct (m !! d) as [[|c]|]; [|reflexivity|].
  - apply filter_confined. by intros q [? _]%bool_decide_eq_true_1.
  - apply ensure_dir_confined. rewrite <-(app_nil_r d). apply comparable_below.
Qed.

Lemma extract_confined t : respects (confined d) (extract d t).
Proof.
  induction t as [|[rel [|c]] t IH]; cbn.
  - apply respects_ret, _.
  - apply respects_bind; [apply _|apply ensure_dir_confined, comparable_below|done].
  - apply respects_bind; [apply _|apply ensure_dir_confined, comparable_below|intros _].
    apply respects_bind; [apply _|apply write_file_confined; by exists rel|done].
Qed.
Lemma ensure_dir_confined_self : respects (confined d) (ensure_dir d).
Proof. apply ensure_dir_confined. rewrite <-(app_nil_r d). apply comparable_below. Qed.

(** [path.join(d, ...)] of plain segments is below [d]. *)
Lemma prefix_join segs : path_wf segs → d `prefix_of` join d segs.
Proof. intros Hs. rewrite join_plain by done. by exists segs. Qed.
End confined.

#[export] Hint Resolve empty_dir_confined extract_confined ensure_dir_confined_self
  write_file_confined write_json_confined remove_confined : forge.
#[export] Hint Extern 1 (_ `prefix_of` join _ _) => apply prefix_join; repeat constructor : forge.
#[export] Hint Extern 1 (?d `prefix_of` ?d ++ _) => eexists; reflexivity : forge.
