(* ===== verification/Effects.v ===== *)
(** * The world the program runs in, and its effect primitives

    [createProject] talks to four things besides its own variables: the
    user (the [prompts] library), the file system (fs-extra), the network
    (degit) and child processes (execa).  A [World] holds the file system,
    the working directory, the answers the user will give in order, the
    trees the remote repositories hold (by degit locator
    ["owner/repo#branch"]), which commands succeed, and the trace of the
    observable events (prompts shown, commands run, downloads started) in
    the order they happened.  Every effectful function of the program is a
    computation of [M := stM World error].

    The prompts library answers a cancelled prompt (Ctrl-C, Esc, closed
    input) with an [undefined] field; pressing Enter on an empty text
    prompt, or accepting a confirm or select prompt without moving,
    answers the prompt's [initial] value. *)

From S2P Require Import Prelude JsValue Paths Templates FsModel.

(** ** Data *)

Inductive prompt_kind : Type := PText | PSelect | PConfirm.

Inductive event : Type :=
| EvPrompt (kind : prompt_kind) (name : string)
| EvExec (cmd : string) (args : list string) (cwd : path)
| EvClone (url : string) (dst : path).

(** What the user does at the next prompt. *)
Inductive answer : Type :=
| AText (s : string)       (** types [s] and presses Enter *)
| AChoice (i : nat)        (** selects the [i]-th choice *)
| AConfirm (b : bool)      (** answers yes or no *)
| ADefault                 (** presses Enter on the initial value *)
| AAbort.                  (** cancels the prompt *)

Record World : Type := mkWorld {
  w_fs : fs;
  w_cwd : path;
  w_answers : list answer;
  w_remote : string → option tree;
  w_exec_ok : string → list string → bool;
  w_trace : list event;
}.

Inductive error : Type :=
| EFs (e : fs_error)
| EType (e : type_error)
| EExec (cmd : string) (args : list string)
| EClone (url : string).

Abbreviation M := (stM World error).

(** The exceptions that abort the program: all but a failed command. *)
Definition fatal_error (e : error) : Prop :=
  match e with
  | EExec _ _ => False
  | _ => True
  end.

Definition set_fs (m : fs) (w : World) : World :=
  mkWorld m (w_cwd w) (w_answers w) (w_remote w) (w_exec_ok w) (w_trace w).
Definition set_answers (a : list answer) (w : World) : World :=
  mkWorld (w_fs w) (w_cwd w) a (w_remote w) (w_exec_ok w) (w_trace w).
Definition set_trace (t : list event) (w : World) : World :=
  mkWorld (w_fs w) (w_cwd w) (w_answers w) (w_remote w) (w_exec_ok w) t.

(** ** Primitives *)

Definition emit (e : event) : M unit := modify (λ w, set_trace (w_trace w ++ [e]) w).

(** Take the user's next answer; with none left the prompt is cancelled. *)
Definition next_answer : M answer := λ w,
  match w_answers w with
  | [] => (Ok AAbort, w)
  | a :: rest => (Ok a, set_answers rest w)
  end.

(** [prompts({ type: "text", name, initial })] *)
Definition prompt_text (name initial : string) : M (option string) :=
  emit (EvPrompt PText name);;
  a ← next_answer;
  mret (match a with
        | AText s => Some (if String.eqb s "" then initial else s)
        | ADefault => Some initial
        | _ => None
        end).

(** [prompts({ type: "select", name, choices, initial })]: the answer is
    the [value] of the chosen choice. *)
Definition prompt_select {A} (name : string) (choices : list (string * A)) (initial : nat)
  : M (option A) :=
  emit (EvPrompt PSelect name);;
  a ← next_answer;
  mret (match a with
        | AChoice i => snd <$> choices !! i
        | ADefault => snd <$> choices !! initial
        | _ => None
        end).

(** [prompts({ type: "confirm", name, initial })] *)
Definition prompt_confirm (name : string) (initial : bool) : M (option bool) :=
  emit (EvPrompt PConfirm name);;
  a ← next_answer;
  mret (match a with
        | AConfirm b => Some b
        | ADefault => Some initial
        | _ => None
        end).

(** Run a file-system operation on the world's file system. *)
Definition on_fs {A} (op : fsM A) : M A := λ w,
  match op (w_fs w) with
  | (Ok a, m) => (Ok a, set_fs m w)
  | (Exn e, m) => (Exn (EFs e), set_fs m w)
  end.

(** Raise a JavaScript [TypeError] as the code would. *)
Definition js {A} (r : outcome type_error A) : M A :=
  match r with
  | Ok a => mret a
  | Exn e => throw (EType e)
  end.

(** [await execa(cmd, args, { cwd })]: rejects when the command fails. *)
Definition exec (cmd : string) (args : list string) (cwd : path) : M unit :=
  emit (EvExec cmd args cwd);;
  ok ← (gets (λ w, w_exec_ok w cmd args) : M bool);
  if (ok : bool) then mret () else throw (EExec cmd args).

(** [degit(url, { force: true }).clone(dst)]: fetch the tree at [url]
    and extract it over [dst]. *)
Definition clone (url : string) (dst : path) : M unit :=
  emit (EvClone url dst);;
  t ← (gets (λ w, w_remote w url) : M (option tree));
  match t with
  | None => throw (EClone url)
  | Some t => on_fs (extract dst t)
  end.

Definition cwd : M path := gets w_cwd.

(** ** Preorders on worlds *)

(** A preorder on file systems, seen on worlds. *)
Definition on_fs_rel (R : relation fs) : relation World := λ w w', R (w_fs w) (w_fs w').

#[export] Instance on_fs_rel_preorder R `{!PreOrder R} : PreOrder (on_fs_rel R).
Proof. split; [intros w; unfold on_fs_rel; reflexivity|]. intros x y z; unfold on_fs_rel. apply transitivity. Qed.

(** The trace only grows, by events satisfying [P]. *)
Definition trace_grows (P : event → Prop) : relation World := λ w w',
  ∃ t, w_trace w' = w_trace w ++ t ∧ Forall P t.

#[export] Instance trace_grows_preorder P : PreOrder (trace_grows P).
Proof.
  split.
  - intros w. exists []. by rewrite app_nil_r.
  - intros x y z [t1 [H1 F1]] [t2 [H2 F2]]. exists (t1 ++ t2).
    rewrite H2, H1, app_assoc. split; [done|]. by apply Forall_app.
Qed.

Definition is_prompt (e : event) : Prop :=
  match e with EvPrompt _ _ => True | _ => False end.

(** No prompt was shown in between. *)
Abbreviation no_prompt := (trace_grows (λ e, ¬ is_prompt e)).

(** ** Frame lemmas: what each primitive leaves alone *)

Definition fs_frame {A} (m : M A) : Prop := ∀ w, w_fs (state_of m w) = w_fs w.
Definition trace_frame {A} (m : M A) : Prop := ∀ w, w_trace (state_of m w) = w_trace w.

Lemma fs_frame_respects {A} (m : M A) R `{!PreOrder R} :
  fs_frame m → respects (on_fs_rel R) m.
Proof. intros Hm w. unfold on_fs_rel. rewrite Hm. reflexivity. Qed.

Lemma trace_frame_respects {A} (m : M A) P :
  trace_frame m → respects (trace_grows P) m.
Proof. intros Hm w. exists []. by rewrite Hm, app_nil_r. Qed.

Lemma emit_trace P e : P e → respects (trace_grows P) (emit e).
Proof. intros He w. exists [e]. split; [done|]. by constructor. Qed.

Lemma emit_fs e : fs_frame (emit e).
Proof. done. Qed.

Lemma next_answer_fs : fs_frame next_answer.
Proof. intros w. unfold state_of, next_answer. by destruct (w_answers w). Qed.

Lemma next_answer_trace : trace_frame next_answer.
Proof. intros w. unfold state_of, next_answer. by destruct (w_answers w). Qed.

(** A composite whose pieces leave the file system alone leaves it alone. *)
Lemma fs_frame_bind {A B} (m : M A) (k : A → M B) :
  fs_frame m → (∀ a, fs_frame (k a)) → fs_frame (m ≫= k).
Proof.
  intros Hm Hk w. unfold state_of, mbind, stM_bind.
  specialize (Hm w). unfold state_of in Hm.
  destruct (m w) as [[a|e] w'] eqn:E; cbn in *; [|done].
  rewrite <-Hm. apply Hk.
Qed.

Lemma fs_frame_ret {A} (a : A) : fs_frame (mret a).
Proof. done. Qed.

Lemma prompt_text_fs name initial : fs_frame (prompt_text name initial).
Proof.
  apply fs_frame_bind; [apply emit_fs|intros _].
  apply fs_frame_bind; [apply next_answer_fs|intros a]. apply fs_frame_ret.
Qed.

Lemma prompt_select_fs {A} name (choices : list (string * A)) initial :
  fs_frame (prompt_select name choices initial).
Proof.
  apply fs_frame_bind; [apply emit_fs|intros _].
  apply fs_frame_bind; [apply next_answer_fs|intros a]. apply fs_frame_ret.
Qed.

Lemma prompt_confirm_fs name initial : fs_frame (prompt_confirm name initial).
Proof.
  apply fs_frame_bind; [apply emit_fs|intros _].
  apply fs_frame_bind; [apply next_answer_fs|intros a]. apply fs_frame_ret.
Qed.

Lemma exec_fs cmd args dir : fs_frame (exec cmd args dir).
Proof.
  apply fs_frame_bind; [apply emit_fs|intros _].
  apply fs_frame_bind; [done|intros b]. by destruct b.
Qed.

Lemma js_fs {A} (r : outcome type_error A) : fs_frame (js r).
Proof. by destruct r. Qed.

Lemma js_trace {A} (r : outcome type_error A) : trace_frame (js r).
Proof. by destruct r. Qed.

Lemma cwd_fs : fs_frame cwd.
Proof. done. Qed.

Lemma cwd_trace : trace_frame cwd.
Proof. done. Qed.

Lemma on_fs_trace {A} (op : fsM A) : trace_frame (on_fs op).
Proof. intros w. unfold state_of, on_fs. by destruct (op (w_fs w)) as [[] ?]. Qed.

Lemma on_fs_respects {A} R `{!PreOrder R} (op : fsM A) :
  respects R op → respects (on_fs_rel R) (on_fs op).
Proof.
  intros Hop w. unfold on_fs_rel, state_of, on_fs. specialize (Hop (w_fs w)).
  unfold state_of in Hop. by destruct (op (w_fs w)) as [[] ?].
Qed.

#[export] Hint Resolve fs_frame_respects trace_frame_respects emit_fs next_answer_fs
  next_answer_trace prompt_text_fs prompt_select_fs prompt_confirm_fs exec_fs js_fs
  js_trace cwd_fs cwd_trace on_fs_trace on_fs_respects : forge.

#[export] Hint Resolve emit_trace : forge.
#[export] Hint Extern 1 (¬ is_prompt _) => cbn; tauto : forge.

(** Break a [respects] goal along the structure of the program: binds,
    catches, ifs and matches, leaving the primitives to the hints. *)
Ltac respects_auto :=
  repeat match goal with
  | |- PreOrder _ => typeclasses eauto
  | |- context [?b && false] => rewrite (andb_false_r b)
  | |- respects _ (if true then _ else _) => cbv beta iota
  | |- respects _ (if false then _ else _) => cbv beta iota
  | |- respects _ (_ ≫= _) => apply respects_bind; [apply _| |intros ?]
  | |- respects _ (try_catch _ _) => apply respects_catch; [apply _| |intros ?]
  | |- respects _ (if _ then _ else _) => apply respects_if
  | |- respects _ (match ?x with _ => _ end) => destruct x
  | |- respects _ (mret _) => apply respects_ret
  | |- respects _ (throw _) => apply respects_throw
  | |- respects _ _ => solve [eauto with forge typeclass_instances]
  end.

Lemma exec_no_prompt cmd args dir : respects no_prompt (exec cmd args dir).
Proof. unfold exec. respects_auto. Qed.

Lemma clone_no_prompt url dst : respects no_prompt (clone url dst).
Proof. unfold clone. respects_auto. Qed.

Lemma clone_fs R `{!PreOrder R} url dst :
  (∀ t, respects R (extract dst t)) → respects (on_fs_rel R) (clone url dst).
Proof. intros Hext. unfold clone. respects_auto. Qed.

#[export] Hint Resolve exec_no_prompt clone_no_prompt clone_fs : forge.

(** ** Rewriting worlds *)

Lemma set_fs_id w : set_fs (w_fs w) w = w.
Proof. by destruct w. Qed.

Lemma prompt_confirm_run name initial w a rest :
  w_answers w = a :: rest →
  prompt_confirm name initial w =
  (Ok (match a with AConfirm b => Some b | ADefault => Some initial | _ => None end),
   set_answers rest (set_trace (w_trace w ++ [EvPrompt PConfirm name]) w)).
Proof. intros Ha. unfold prompt_confirm, next_answer, emit, modify, mbind, stM_bind. cbn. by rewrite Ha. Qed.

Lemma prompt_text_run name initial w a rest :
  w_answers w = a :: rest →
  prompt_text name initial w =
  (Ok (match a with
       | AText s => Some (if String.eqb s "" then initial else s)
       | ADefault => Some initial
       | _ => None
       end),
   set_answers rest (set_trace (w_trace w ++ [EvPrompt PText name]) w)).
Proof. intros Ha. unfold prompt_text, next_answer, emit, modify, mbind, stM_bind. cbn. by rewrite Ha. Qed.

#[export] Hint Rewrite set_fs_id : forge_rw.

(** ** Which exceptions the primitives throw *)

Section raises_prims.
Context (P : error → Prop).

Lemma emit_raises e : raises P (emit e).
Proof. by intros w err. Qed.

Lemma next_answer_raises : raises P next_answer.
Proof. intros w err. unfold result_of, next_answer. by destruct (w_answers w). Qed.

Lemma prompt_text_raises name initial : raises P (prompt_text name initial).
Proof.
  apply raises_bind; [apply emit_raises|intros _].
  apply raises_bind; [apply next_answer_raises|intros a]. apply raises_ret.
Qed.

Lemma prompt_select_raises {A} name (choices : list (string * A)) initial :
  raises P (prompt_select name choices initial).
Proof.
  apply raises_bind; [apply emit_raises|intros _].
  apply raises_bind; [apply next_answer_raises|intros a]. apply raises_ret.
Qed.

Lemma prompt_confirm_raises name initial : raises P (prompt_confirm name initial).
Proof.
  apply raises_bind; [apply emit_raises|intros _].
  apply raises_bind; [apply next_answer_raises|intros a]. apply raises_ret.
Qed.

Lemma cwd_raises : raises P cwd.
Proof. by intros w err. Qed.

Lemma on_fs_raises {A} (op : fsM A) : (∀ f, P (EFs f)) → raises P (on_fs op).
Proof.
  intros HP w err. unfold result_of, on_fs.
  destruct (op (w_fs w)) as [[a|f] m]; cbn; [done|]. by intros [= <-].
Qed.

Lemma js_raises {A} (r : outcome type_error A) : (∀ t, P (EType t)) → raises P (js r).
Proof. intros HP. destruct r; [apply raises_ret|by apply raises_throw]. Qed.

Lemma exec_raises cmd args dir : P (EExec cmd args) → raises P (exec cmd args dir).
Proof.
  intros HP. apply raises_bind; [apply emit_raises|intros _].
  apply raises_bind; [apply raises_gets|intros b]. destruct b; [apply raises_ret|by apply raises_throw].
Qed.

Lemma clone_raises url dst : P (EClone url) → (∀ f, P (EFs f)) → raises P (clone url dst).
Proof.
  intros HC HF. apply raises_bind; [apply emit_raises|intros _].
  apply raises_bind; [apply raises_gets|intros t].
  destruct t; [by apply on_fs_raises|by apply raises_throw].
Qed.
End raises_prims.

#[export] Hint Resolve emit_raises next_answer_raises prompt_text_raises prompt_select_raises
  prompt_confirm_raises cwd_raises on_fs_raises js_raises exec_raises clone_raises : forge.

(** A computation that throws nothing returns. *)
Lemma raises_nothing_ok {A} (m : M A) w : raises (λ _, False) m → ∃ a, result_of m w = Ok a.
Proof.
  intros Hm. destruct (result_of m w) as [a|e] eqn:E; [by eexists|]. by destruct (Hm w e E).
Qed.

(** Break a [raises] goal along the structure of the program. *)
Ltac raises_auto :=
  repeat match goal with
  | |- raises _ (try_catch _ (λ _, throw _)) => apply raises_catch_rethrow
  | |- raises _ (_ ≫= _) => apply raises_bind; [|intros ?]
  | |- raises _ (try_catch _ _) => apply raises_catch; intros ?
  | |- raises _ (if _ then _ else _) => apply raises_if
  | |- raises _ (match ?x with _ => _ end) => destruct x
  | |- raises _ (mret _) => apply raises_ret
  | |- raises _ (throw _) => apply raises_throw
  | |- raises _ _ => solve [eauto with forge]
  | |- _ => progress (intros; cbn)
  end.

(** ** Inverting successful primitives *)

Lemma on_fs_ok_inv {A} (op : fsM A) w a w' :
  on_fs op w = (Ok a, w') → ∃ m, op (w_fs w) = (Ok a, m) ∧ w' = set_fs m w.
Proof. unfold on_fs. destruct (op (w_fs w)) as [[a'|e] m]; intros [= <- <-]; eauto. Qed.

Lemma js_ok_inv {A} (r : outcome type_error A) w a w' : js r w = (Ok a, w') → r = Ok a ∧ w' = w.
Proof. destruct r; cbn; intros [= <- <-]; done. Qed.

Lemma fs_frame_ok {A} (m : M A) w a w' : fs_frame m → m w = (Ok a, w') → w_fs w' = w_fs w.
Proof. intros Hm Hrun. specialize (Hm w). unfold state_of in Hm. by rewrite Hrun in Hm. Qed.

(** ** The environment never changes *)

(** The run never changes its working directory, the remote it
    downloads from or which commands succeed. *)
Definition env_kept : relation World := λ w w',
  w_cwd w' = w_cwd w ∧ w_remote w' = w_remote w ∧ w_exec_ok w' = w_exec_ok w.

#[export] Instance env_kept_preorder : PreOrder env_kept.
Proof.
  split; [by intros w|]. intros x y z (?&?&?) (?&?&?). unfold env_kept in *.
  split_and!; congruence.
Qed.

Lemma emit_env e : respects env_kept (emit e).
Proof. by intros w. Qed.

Lemma next_answer_env : respects env_kept next_answer.
Proof. intros w. unfold env_kept, state_of, next_answer. by destruct (w_answers w). Qed.

Lemma on_fs_env {A} (op : fsM A) : respects env_kept (on_fs op).
Proof. intros w. unfold env_kept, state_of, on_fs. by destruct (op (w_fs w)) as [[] ?]. Qed.

#[export] Hint Resolve emit_env next_answer_env on_fs_env : forge.

Lemma prompt_text_env name initial : respects env_kept (prompt_text name initial).
Proof. unfold prompt_text. respects_auto. Qed.

Lemma prompt_select_env {A} name (choices : list (string * A)) initial :
  respects env_kept (prompt_select name choices initial).
Proof. unfold prompt_select. respects_auto. Qed.

Lemma prompt_confirm_env name initial : respects env_kept (prompt_confirm name initial).
Proof. unfold prompt_confirm. respects_auto. Qed.

Lemma exec_env cmd args dir : respects env_kept (exec cmd args dir).
Proof. unfold exec. respects_auto. Qed.

Lemma clone_env url dst : respects env_kept (clone url dst).
Proof. unfold clone. respects_auto. Qed.

Lemma js_env {A} (r : outcome type_error A) : respects env_kept (js r).
Proof. destruct r; respects_auto. Qed.

#[export] Hint Resolve prompt_text_env prompt_select_env prompt_confirm_env exec_env clone_env
  js_env : forge.

(** ** Only the prompts consume answers *)

Definition answers_kept : relation World := λ w w', w_answers w' = w_answers w.

#[export] Instance answers_kept_preorder : PreOrder answers_kept.
Proof. split; [by intros w|]. intros x y z H1 H2. unfold answers_kept in *. congruence. Qed.

Lemma emit_answers e : respects answers_kept (emit e).
Proof. by intros w. Qed.

Lemma on_fs_answers {A} (op : fsM A) : respects answers_kept (on_fs op).
Proof. intros w. unfold answers_kept, state_of, on_fs. by destruct (op (w_fs w)) as [[] ?]. Qed.

#[export] Hint Resolve emit_answers on_fs_answers : forge.

Lemma exec_answers cmd args dir : respects answers_kept (exec cmd args dir).
Proof. unfold exec. respects_auto. Qed.

Lemma clone_answers url dst : respects answers_kept (clone url dst).
Proof. unfold clone. respects_auto. Qed.

Lemma js_answers {A} (r : outcome type_error A) : respects answers_kept (js r).
Proof. destruct r; respects_auto. Qed.

#[export] Hint Resolve exec_answers clone_answers js_answers : forge.

Lemma prompt_select_run {A} name (choices : list (string * A)) initial w a rest :
  w_answers w = a :: rest →
  prompt_select name choices initial w =
  (Ok (match a with
       | AChoice i => snd <$> choices !! i
       | ADefault => snd <$> choices !! initial
       | _ => None
       end),
   set_answers rest (set_trace (w_trace w ++ [EvPrompt PSelect name]) w)).
Proof. intros Ha. unfold prompt_select, next_answer, emit, modify, mbind, stM_bind. cbn. by rewrite Ha. Qed.
