(* ===== verification/Fixtures.v ===== *)
(** * Concrete worlds and options

    Sample inputs on which the theorems of [RpcPatch], [Workflow] and
    [Cli] are applied and on which whole runs are evaluated: a home
    directory, the bhvr-forge template tree as degit downloads it (with a
    stray [.git], the root, client and server manifests and the sources
    the RPC patch overwrites), a remote that serves it on the three
    registered branches, and option records as commander builds them. *)

From S2P Require Import Prelude JsValue Paths Types Templates FsModel Effects.

Definition home : path := ["home"; "dev"].

(** An empty home directory. *)
Definition fs_home : fs := <[home := NDir]> (<[["home"] := NDir]> {[ [] := NDir ]}).

(** The home directory with a non-empty [my-app] in it. *)
Definition fs_home_with_app : fs :=
  <[home ++ ["my-app"; "notes.txt"] := NFile (CText "todo")]>
    (<[home ++ ["my-app"] := NDir]> fs_home).

(** The template repository as degit extracts it. *)
Definition app_tree : tree := [
  (["package.json"], NFile (CJson (JObj [("name", JStr "bhvr"); ("private", JBool true)])));
  ([".git"], NDir);
  ([".git"; "HEAD"], NFile (CText "ref: refs/heads/main"));
  (["client"; "package.json"],
    NFile (CJson (JObj [("name", JStr "client"); ("dependencies", JObj [("react", JStr "^19")])])));
  (["client"; "src"; "App.tsx"], NFile (CText "export default App"));
  (["server"; "package.json"],
    NFile (CJson (JObj [("name", JStr "server"); ("scripts", JObj [("dev", JStr "bun --watch run src/index.ts")])])));
  (["server"; "src"; "index.ts"], NFile (CText "export default app"))
].

(** A remote holding the template on its three branches. *)
Definition bhvr_remote (url : string) : option tree :=
  if bool_decide (url ∈ ["stevedylandev/bhvr-forge#main"; "stevedylandev/bhvr-forge#tailwindcss";
                         "stevedylandev/bhvr-forge#shadcn-ui"])
  then Some app_tree else None.

Definition all_tools_ok (cmd : string) (args : list string) : bool := true.
Definition no_bun (cmd : string) (args : list string) : bool := negb (String.eqb cmd "bun").

Definition world (m : fs) (answers : list answer) (tools : string → list string → bool) : World :=
  {| w_fs := m; w_cwd := home; w_answers := answers; w_remote := bhvr_remote;
     w_exec_ok := tools; w_trace := [] |}.

(** [create-bhvr-forge <dir> --yes --template <t> [--rpc]], with commander's
    defaults for [--repo] and [--template]. *)
Definition yes_options (t : string) (rpc : option bool) : Opt.ProjectOptions :=
  {| Opt.yes := Some true; Opt.typescript := None; Opt.repo := Some DEFAULT_REPO;
     Opt.template := Some t; Opt.branch := None; Opt.rpc := rpc |}.

(** [create-bhvr-forge] with no flag. *)
Definition interactive_options : Opt.ProjectOptions :=
  {| Opt.yes := None; Opt.typescript := None; Opt.repo := Some DEFAULT_REPO;
     Opt.template := Some "default"; Opt.branch := None; Opt.rpc := None |}.

(** The home directory right after degit extracted the template into
    [my-app]. *)
Definition fs_app : fs := state_of (extract (home ++ ["my-app"]) app_tree) fs_home.

(** A template repository whose [package.json] does not parse, served for
    every locator. *)
Definition malformed_tree : tree := [(["package.json"], NFile (CText "{ name: bhvr"))].

Definition malformed_world : World :=
  {| w_fs := fs_home; w_cwd := home; w_answers := []; w_remote := λ _, Some malformed_tree;
     w_exec_ok := all_tools_ok; w_trace := [] |}.

(** [--yes] with a repository the remote does not hold. *)
Definition missing_repo_options : Opt.ProjectOptions :=
  {| Opt.yes := Some true; Opt.typescript := None; Opt.repo := Some "someone/missing";
     Opt.template := Some "default"; Opt.branch := None; Opt.rpc := None |}.
