(* ===== verification/RpcPatch.v ===== *)
(** * [patchFilesForRPC] (src/src/utils/helpers.ts)

    The RPC patch rewrites the downloaded project for Hono's typed RPC
    client: it reads [client/package.json] and runs [bun install hono]
    (in the project root) when the client has no [hono] dependency, writes
    the client manifest back, sets the server's [dev] script, and writes
    three source files; the [App.tsx] body is chosen by the template id.
    Any exception inside is caught: the function then returns [false],
    and the files written before the failure stay written.  The theorems
    say which files a successful patch writes and what they say, that
    every write is inside the project, and what a failed install leaves. *)

From S2P Require Import Prelude JsValue Paths Templates TemplateText FsModel Effects Fixtures.

(** The [dev] script the patch gives the server. *)
Definition rpc_dev_script : string := "bun --watch run src/index.ts && tsc --watch".

(** [switch (templateChoice)] of step 5. *)
Definition app_body (templateChoice : string) : template_body :=
  if String.eqb templateChoice "shadcn" then shadcnTemplate
  else if String.eqb templateChoice "tailwind" then tailwindTemplate
  else defaultTemplate.

Definition clientPkgPath (projectPath : path) : path := join projectPath ["client"; "package.json"].
Definition serverPkgPath (projectPath : path) : path := join projectPath ["server"; "package.json"].
Definition serverIndexPath (projectPath : path) : path := join projectPath ["server"; "src"; "index.ts"].
Definition clientHelperPath (projectPath : path) : path := join projectPath ["server"; "src"; "client.ts"].
Definition appTsxPath (projectPath : path) : path := join projectPath ["client"; "src"; "App.tsx"].

(** The file a relative module specifier names when it is imported from
    [importer]: resolved against the importer's directory, with the
    [.ts] extension TypeScript's module resolution adds. *)
Definition module_file (importer : path) (spec : string) : path :=
  let r := resolve (removelast importer) spec in
  removelast r ++ [(default EmptyString (last r) ++ ".ts")%string].

Definition patchFilesForRPC (projectPath : path) (templateChoice : string) : M bool :=
  TRY
    (* 1. client package.json *)
    clientPkg ← on_fs (read_json (clientPkgPath projectPath));
    deps ← js (get_prop (Some clientPkg) "dependencies");
    hono ← js (get_prop deps "hono");
    (if truthy hono then mret () else exec "bun" ["install"; "hono"] projectPath);;
    on_fs (write_json (clientPkgPath projectPath) clientPkg);;
    (* 2. server package.json: scripts.dev *)
    serverPkg ← on_fs (read_json (serverPkgPath projectPath));
    serverPkg' ← js (set_prop2 serverPkg "scripts" "dev" (JStr rpc_dev_script));
    on_fs (write_json (serverPkgPath projectPath) serverPkg');;
    (* 3. server index, 4. client helper *)
    on_fs (write_file (serverIndexPath projectPath) (CBody honoRpcTemplate));;
    on_fs (write_file (clientHelperPath projectPath) (CBody honoClientTemplate));;
    (* 5. App.tsx by template *)
    on_fs (write_file (appTsxPath projectPath) (CBody (app_body templateChoice)));;
    mret true
  CATCH _ => mret false.

(** ** Lemmas *)

Lemma patchFilesForRPC_no_prompt p t : respects no_prompt (patchFilesForRPC p t).
Proof. unfold patchFilesForRPC. respects_auto. Qed.

Lemma patchFilesForRPC_wf p t : respects (on_fs_rel wf_kept) (patchFilesForRPC p t).
Proof. unfold patchFilesForRPC. respects_auto. Qed.

Lemma patchFilesForRPC_env p t : respects env_kept (patchFilesForRPC p t).
Proof. unfold patchFilesForRPC. respects_auto. Qed.

(** Every file the patch writes is inside the project. *)
Lemma patchFilesForRPC_confined p t : respects (on_fs_rel (confined p)) (patchFilesForRPC p t).
Proof. unfold patchFilesForRPC, clientPkgPath, serverPkgPath, serverIndexPath, clientHelperPath, appTsxPath. respects_auto. Qed.

#[export] Hint Resolve patchFilesForRPC_no_prompt patchFilesForRPC_wf patchFilesForRPC_env
  patchFilesForRPC_confined : forge.

(** A run that returns [true] read a JSON client manifest and a JSON
    server manifest, and left exactly five writes on the file system:
    the client manifest as it was read, the server manifest with its
    [dev] script set, and the three bodies. *)
Lemma patchFilesForRPC_ok_fs p t w w' :
  patchFilesForRPC p t w = (Ok true, w') →
  ∃ v sv sv',
    w_fs w !! clientPkgPath p = Some (NFile (CJson v)) ∧
    (<[clientPkgPath p := NFile (CJson v)]> (w_fs w)) !! serverPkgPath p = Some (NFile (CJson sv)) ∧
    set_prop2 sv "scripts" "dev" (JStr rpc_dev_script) = Ok sv' ∧
    w_fs w' = <[appTsxPath p := NFile (CBody (app_body t))]>
               (<[clientHelperPath p := NFile (CBody honoClientTemplate)]>
                (<[serverIndexPath p := NFile (CBody honoRpcTemplate)]>
                 (<[serverPkgPath p := NFile (CJson sv')]>
                  (<[clientPkgPath p := NFile (CJson v)]> (w_fs w))))).
Proof.
  intros H. unfold patchFilesForRPC in H.
  apply catch_ok_inv in H as [H|(e & w1 & _ & H)];
    [|unfold mret, stM_ret in H; cbn in H; congruence].
  apply bind_ok_inv in H as (v & w1 & H1 & H).
  apply on_fs_ok_inv in H1 as (m1 & H1 & ->). apply read_json_ok_inv in H1 as [-> Hv].
  apply bind_ok_inv in H as (deps & w2 & H2 & H). apply js_ok_inv in H2 as [_ ->].
  apply bind_ok_inv in H as (hono & w3 & H3 & H). apply js_ok_inv in H3 as [_ ->].
  apply bind_ok_inv in H as ([] & w4 & H4 & H).
  assert (w_fs w4 = w_fs w) as Hw4.
  { destruct (truthy hono).
    - unfold mret, stM_ret in H4. by injection H4 as <-.
    - apply fs_frame_ok in H4; [|apply exec_fs]. by rewrite H4. }
  apply bind_ok_inv in H as ([] & w5 & H5 & H).
  apply on_fs_ok_inv in H5 as (m5 & H5 & ->). apply write_file_ok_inv in H5. rewrite Hw4 in H5.
  apply bind_ok_inv in H as (sv & w6 & H6 & H).
  apply on_fs_ok_inv in H6 as (m6 & H6 & ->). apply read_json_ok_inv in H6 as [-> Hsv]. cbn in Hsv.
  apply bind_ok_inv in H as (sv' & w7 & H7 & H). apply js_ok_inv in H7 as [Hset ->].
  apply bind_ok_inv in H as ([] & w8 & H8 & H).
  apply on_fs_ok_inv in H8 as (m8 & H8 & ->). apply write_file_ok_inv in H8. cbn in H8.
  apply bind_ok_inv in H as ([] & w9 & H9 & H).
  apply on_fs_ok_inv in H9 as (m9 & H9 & ->). apply write_file_ok_inv in H9. cbn in H9.
  apply bind_ok_inv in H as ([] & w10 & H10 & H).
  apply on_fs_ok_inv in H10 as (m10 & H10 & ->). apply write_file_ok_inv in H10. cbn in H10.
  apply bind_ok_inv in H as ([] & w11 & H11 & H).
  apply on_fs_ok_inv in H11 as (m11 & H11 & ->). apply write_file_ok_inv in H11. cbn in H11.
  unfold mret, stM_ret in H. injection H as <-. cbn in *.
  exists v, sv, sv'. split_and!; [done| |done|].
  - by rewrite <-H5.
  - by subst.
Qed.

Lemma rpc_paths p :
  clientPkgPath p = p ++ ["client"; "package.json"] ∧
  serverPkgPath p = p ++ ["server"; "package.json"] ∧
  serverIndexPath p = p ++ ["server"; "src"; "index.ts"] ∧
  clientHelperPath p = p ++ ["server"; "src"; "client.ts"] ∧
  appTsxPath p = p ++ ["client"; "src"; "App.tsx"].
Proof. split_and!; apply join_plain; repeat constructor. Qed.

Ltac rpc_paths_rw p :=
  let H1 := fresh in let H2 := fresh in let H3 := fresh in let H4 := fresh in let H5 := fresh in
  destruct (rpc_paths p) as (H1 & H2 & H3 & H4 & H5); rewrite ?H1, ?H2, ?H3, ?H4, ?H5 in *;
  clear H1 H2 H3 H4 H5.

(** Distinct files of the project are distinct paths. *)
Ltac rpc_lookup := rewrite ?lookup_insert_ne by (intros ?Heq%app_inv_head; done); by simplify_map_eq.

(** The three source files a successful patch leaves. *)
Lemma patchFilesForRPC_ok_sources p t w w' :
  patchFilesForRPC p t w = (Ok true, w') →
  w_fs w' !! appTsxPath p = Some (NFile (CBody (app_body t))) ∧
  w_fs w' !! clientHelperPath p = Some (NFile (CBody honoClientTemplate)) ∧
  w_fs w' !! serverIndexPath p = Some (NFile (CBody honoRpcTemplate)).
Proof.
  intros H. apply patchFilesForRPC_ok_fs in H as (v & sv & sv' & _ & _ & _ & ->).
  rpc_paths_rw p. split_and!; rpc_lookup.
Qed.

(** ["./index"] imported from the client helper is the server entry. *)
Lemma module_file_helper_index p : module_file (clientHelperPath p) "./index" = serverIndexPath p.
Proof.
  rpc_paths_rw p. unfold module_file, resolve, normalize.
  rewrite removelast_app by done. cbn.
  rewrite rev_involutive, last_snoc, removelast_app by done. cbn.
  by rewrite app_nil_r, <-app_assoc.
Qed.

(** ** Theorems *)

(** C10. The RPC patch never throws: whatever fails inside it (a missing
    or malformed manifest, a manifest without [dependencies] or
    [scripts], a failed [bun install hono], a write error), the failure is
    caught and the call returns, with [false]. *)
Theorem patchFilesForRPC_never_throws p t w : ∃ b, result_of (patchFilesForRPC p t) w = Ok b.
Proof.
  apply raises_nothing_ok. unfold patchFilesForRPC.
  apply raises_catch. intros _. apply raises_ret.
Qed.

(** C7. A patch that reports success has written the RPC server to
    [server/src/index.ts], the typed client helper to
    [server/src/client.ts], the [App.tsx] body of the chosen template
    ([shadcn], [tailwind], anything else the default one) and the server
    manifest with its [scripts.dev] set to the RPC watch script. *)
Theorem patchFilesForRPC_writes p t w w' :
  patchFilesForRPC p t w = (Ok true, w') →
  w_fs w' !! appTsxPath p = Some (NFile (CBody (app_body t))) ∧
  w_fs w' !! clientHelperPath p = Some (NFile (CBody honoClientTemplate)) ∧
  w_fs w' !! serverIndexPath p = Some (NFile (CBody honoRpcTemplate)) ∧
  ∃ sv sv', w_fs w !! serverPkgPath p = Some (NFile (CJson sv)) ∧
            set_prop2 sv "scripts" "dev" (JStr rpc_dev_script) = Ok sv' ∧
            w_fs w' !! serverPkgPath p = Some (NFile (CJson sv')).
Proof.
  intros H. destruct (patchFilesForRPC_ok_sources _ _ _ _ H) as (Ha & Hh & Hi).
  split_and!; [done..|].
  apply patchFilesForRPC_ok_fs in H as (v & sv & sv' & Hc & Hs & Hset & ->).
  rpc_paths_rw p. rewrite lookup_insert_ne in Hs by (intros Heq%app_inv_head; done).
  exists sv, sv'. split_and!; [done|done|]. rpc_lookup.
Qed.

(** C11. A patch that reports success leaves the client manifest exactly
    as it was: the code writes back the object it read before running
    [bun install hono] (in the project root), so a client without a
    [hono] dependency still has none afterwards. *)
Theorem patchFilesForRPC_client_manifest_unchanged p t w w' :
  patchFilesForRPC p t w = (Ok true, w') →
  w_fs w' !! clientPkgPath p = w_fs w !! clientPkgPath p.
Proof.
  intros H. apply patchFilesForRPC_ok_fs in H as (v & sv & sv' & Hc & Hs & Hset & ->).
  rewrite Hc. rpc_paths_rw p.
  rewrite !lookup_insert_ne by (intros Heq%app_inv_head; done). by simplify_map_eq.
Qed.

(** C12. The two server files a successful patch writes fit together:
    the module ["./index"] that the client helper
    [server/src/client.ts] imports resolves to [server/src/index.ts],
    the patch writes the RPC server body there, and that body exports
    every name the helper imports from it. *)
Theorem patchFilesForRPC_helper_import p t w w' :
  patchFilesForRPC p t w = (Ok true, w') →
  ∃ hb sb,
    w_fs w' !! clientHelperPath p = Some (NFile (CBody hb)) ∧
    w_fs w' !! module_file (clientHelperPath p) "./index" = Some (NFile (CBody sb)) ∧
    imports_from "./index" (body_lines hb) ≠ [] ∧
    imports_from "./index" (body_lines hb) ⊆ exports (body_lines sb).
Proof.
  intros H. destruct (patchFilesForRPC_ok_sources _ _ _ _ H) as (_ & Hh & Hi).
  exists honoClientTemplate, honoRpcTemplate. rewrite module_file_helper_index.
  destruct helper_index_import as [Himp Happ]. unfold honoClientTemplate, honoRpcTemplate in *.
  rewrite Himp.
  split_and!; [done|done|done|]. by intros x ->%list_elem_of_singleton.
Qed.

(** C13. What the sources a successful patch writes say, for every
    template choice: the [App.tsx] it writes imports from
    ['server/dist/client'] only names that the client helper it writes
    exports; the chain that [App.tsx] imports from [viem/chains] is
    [forge] (which viem does not export) exactly when the choice is
    [shadcn], and [foundry] otherwise; and the server entry it writes has
    a line that starts with a member access right after the [});] that
    ends the Hono chain (body line 32, [templates.ts] line 47), so it does
    not parse. *)
Theorem patchFilesForRPC_written_sources p t w w' :
  patchFilesForRPC p t w = (Ok true, w') →
  ∃ ab hb sb,
    w_fs w' !! appTsxPath p = Some (NFile (CBody ab)) ∧
    w_fs w' !! clientHelperPath p = Some (NFile (CBody hb)) ∧
    w_fs w' !! serverIndexPath p = Some (NFile (CBody sb)) ∧
    imports_from "server/dist/client" (body_lines ab) ⊆ exports (body_lines hb) ∧
    imports_from "viem/chains" (body_lines ab) =
      [if String.eqb t "shadcn" then "forge" else "foundry"] ∧
    dangling_member (body_lines sb) = Some 32.
Proof.
  intros H. destruct (patchFilesForRPC_ok_sources _ _ _ _ H) as (Ha & Hh & Hi).
  exists (app_body t), honoClientTemplate, honoRpcTemplate. split_and!; [done..| | |vm_refl].
  - apply app_bodies_import_helper. unfold app_body, app_bodies.
    case_match; [|case_match]; rewrite !elem_of_cons; tauto.
  - unfold app_body. destruct (String.eqb t "shadcn"); [vm_refl|].
    destruct (String.eqb t "tailwind"); vm_refl.
Qed.

(** C14. A failed [bun install hono] leaves the project unpatched: when
    the client manifest declares no [hono] dependency and the install
    fails, the patch stops at the install, before its first write,
    reports [false], and the only trace of the call is the failed
    command; every file, the client manifest included, is as the
    download left it. *)
Theorem patchFilesForRPC_bun_failure p t w cv deps :
  fs_wf (w_fs w) →
  w_fs w !! clientPkgPath p = Some (NFile (CJson cv)) →
  get_prop (Some cv) "dependencies" = Ok deps →
  get_prop deps "hono" = Ok None →
  w_exec_ok w "bun" ["install"; "hono"] = false →
  patchFilesForRPC p t w =
  (Ok false, set_trace (w_trace w ++ [EvExec "bun" ["install"; "hono"] p]) w).
Proof.
  intros Hwf Hc Hd Hh Hbun.
  unfold patchFilesForRPC, try_catch, mbind, stM_bind, on_fs.
  rewrite (read_json_run _ _ _ Hwf Hc). cbn -[get_prop exec join].
  rewrite set_fs_id, Hd. cbn -[get_prop exec join]. rewrite Hh. cbn -[exec join].
  unfold exec, emit, modify, gets, mbind, stM_bind. cbn. by rewrite Hbun.
Qed.

(** ** Witnesses *)

Lemma patchFilesForRPC_writes_witness :
  let p := home ++ ["my-app"] in
  let w := world fs_app [] all_tools_ok in
  patchFilesForRPC p "tailwind" w = (Ok true, state_of (patchFilesForRPC p "tailwind") w) ∧
  (w_fs (state_of (patchFilesForRPC p "tailwind") w) !! appTsxPath p =
     Some (NFile (CBody (app_body "tailwind"))) ∧
   w_fs (state_of (patchFilesForRPC p "tailwind") w) !! clientHelperPath p =
     Some (NFile (CBody honoClientTemplate)) ∧
   w_fs (state_of (patchFilesForRPC p "tailwind") w) !! serverIndexPath p =
     Some (NFile (CBody honoRpcTemplate)) ∧
   ∃ sv sv', w_fs w !! serverPkgPath p = Some (NFile (CJson sv)) ∧
             set_prop2 sv "scripts" "dev" (JStr rpc_dev_script) = Ok sv' ∧
             w_fs (state_of (patchFilesForRPC p "tailwind") w) !! serverPkgPath p =
               Some (NFile (CJson sv'))).
Proof.
  intros p w. split; [apply run_eq; vm_refl|].
  apply (patchFilesForRPC_writes p "tailwind" w). apply run_eq. vm_refl.
Defined.

Lemma patchFilesForRPC_client_manifest_unchanged_witness :
  let p := home ++ ["my-app"] in
  let w := world fs_app [] all_tools_ok in
  patchFilesForRPC p "default" w = (Ok true, state_of (patchFilesForRPC p "default") w) ∧
  w_fs (state_of (patchFilesForRPC p "default") w) !! clientPkgPath p = w_fs w !! clientPkgPath p.
Proof.
  intros p w. split; [apply run_eq; vm_refl|].
  apply (patchFilesForRPC_client_manifest_unchanged p "default" w). apply run_eq. vm_refl.
Defined.

Lemma patchFilesForRPC_helper_import_witness :
  let p := home ++ ["my-app"] in
  let w := world fs_app [] all_tools_ok in
  patchFilesForRPC p "default" w = (Ok true, state_of (patchFilesForRPC p "default") w) ∧
  ∃ hb sb,
    w_fs (state_of (patchFilesForRPC p "default") w) !! clientHelperPath p = Some (NFile (CBody hb)) ∧
    w_fs (state_of (patchFilesForRPC p "default") w) !! module_file (clientHelperPath p) "./index" =
      Some (NFile (CBody sb)) ∧
    imports_from "./index" (body_lines hb) ≠ [] ∧
    imports_from "./index" (body_lines hb) ⊆ exports (body_lines sb).
Proof.
  intros p w. split; [apply run_eq; vm_refl|].
  apply (patchFilesForRPC_helper_import p "default" w). apply run_eq. vm_refl.
Defined.

Lemma patchFilesForRPC_written_sources_witness :
  let p := home ++ ["my-app"] in
  let w := world fs_app [] all_tools_ok in
  patchFilesForRPC p "shadcn" w = (Ok true, state_of (patchFilesForRPC p "shadcn") w) ∧
  ∃ ab hb sb,
    w_fs (state_of (patchFilesForRPC p "shadcn") w) !! appTsxPath p = Some (NFile (CBody ab)) ∧
    w_fs (state_of (patchFilesForRPC p "shadcn") w) !! clientHelperPath p = Some (NFile (CBody hb)) ∧
    w_fs (state_of (patchFilesForRPC p "shadcn") w) !! serverIndexPath p = Some (NFile (CBody sb)) ∧
    imports_from "server/dist/client" (body_lines ab) ⊆ exports (body_lines hb) ∧
    imports_from "viem/chains" (body_lines ab) =
      [if String.eqb "shadcn" "shadcn" then "forge" else "foundry"] ∧
    dangling_member (body_lines sb) = Some 32.
Proof.
  intros p w. split; [apply run_eq; vm_refl|].
  apply (patchFilesForRPC_written_sources p "shadcn" w). apply run_eq. vm_refl.
Defined.

Lemma patchFilesForRPC_bun_failure_witness :
  let p := home ++ ["my-app"] in
  let w := world fs_app [] no_bun in
  let cv := JObj [("name", JStr "client"); ("dependencies", JObj [("react", JStr "^19")])] in
  let deps := Some (JObj [("react", JStr "^19")]) in
  fs_wf (w_fs w) ∧
  w_fs w !! clientPkgPath p = Some (NFile (CJson cv)) ∧
  get_prop (Some cv) "dependencies" = Ok deps ∧
  get_prop deps "hono" = Ok None ∧
  w_exec_ok w "bun" ["install"; "hono"] = false ∧
  patchFilesForRPC p "tailwind" w =
  (Ok false, set_trace (w_trace w ++ [EvExec "bun" ["install"; "hono"] p]) w).
Proof.
  intros p w cv deps.
  assert (fs_wf (w_fs w)) as Hwf by (apply fs_wfb_spec; vm_refl).
  assert (w_fs w !! clientPkgPath p = Some (NFile (CJson cv))) as Hc by vm_refl.
  split_and!; [exact Hwf|exact Hc|reflexivity|reflexivity|reflexivity|].
  by apply (patchFilesForRPC_bun_failure p "tailwind" w cv deps).
Defined.
