(* ===== verification/Workflow.v ===== *)
(** * [createProject] (src/src/utils/helpers.ts, lines 115-341)

    The workflow, one definition per step of the code, composed as the
    code composes them.  A step that can cancel returns an [option]:
    [None] is the early [return null] of the code.  The steps:

    - [resolve_project_name]: the directory argument, else a text prompt
      (cancelled by an empty or aborted answer), else (with [--yes]) the
      default name;
    - [resolve_template]: [options.template || "default"], or a select
      prompt over the registry unless [--yes] or [--branch] is given;
    - [prepare_directory]: resolve the name against the working directory,
      ask before emptying an existing non-empty directory (never with
      [--yes]), then [ensureDirSync];
    - [download_template]: the degit download, the rename in
      [package.json], the removal of a downloaded [.git];
    - [resolve_rpc]: [options.rpc], or a confirm prompt unless [--yes] or
      [--rpc] is given, whose cancellation cancels the run although the
      files are already on disk;
    - [initialize_git] and [install_dependencies]: a confirm prompt
      (skipped with [--yes]), then [git init], or [bun install] with
      [npm install] as the fallback; failures only clear the flag.

    The body after [ensureDirSync] runs inside
    [try { ... } catch (err) { spinner.fail(...); throw err; }], which
    rethrows every exception unchanged. *)

From S2P Require Import Prelude JsValue Paths Types Templates FsModel Effects Fixtures RpcPatch.

Definition DEFAULT_NAME : string := "my-bhvr-app".

(** ** The steps *)

(** Lines 119-137. *)
Definition resolve_project_name (projectDirectory : option string) (options : Opt.ProjectOptions)
  : M (option string) :=
  if negb (truthy projectDirectory) && negb (truthy (Opt.yes options)) then
    response ← prompt_text "projectName" DEFAULT_NAME;
    if negb (truthy response) then mret None
    else mret response
  else if negb (truthy projectDirectory) then mret (Some DEFAULT_NAME)
  else mret projectDirectory.

(** Lines 142-145: one choice per own key of [TEMPLATES], in order. *)
Definition template_choices : list (string * string) :=
  map (λ kv : string * TemplateInfo,
         ((kv.1 ++ " (" ++ description kv.2 ++ ")")%string, kv.1)) TEMPLATES.

(** Lines 139-161. *)
Definition resolve_template (options : Opt.ProjectOptions) : M (option string) :=
  let templateChoice := Opt.template options ||| "default" in
  if negb (truthy (Opt.yes options)) && negb (truthy (Opt.branch options)) then
    templateResponse ← prompt_select "template" template_choices 0;
    match templateResponse with
    | None => mret None
    | Some t => mret (Some t)
    end
  else mret (Some templateChoice).

(** Lines 163-185: the project path, or [None] when the user declines to
    overwrite. *)
Definition prepare_directory (projectName : string) (options : Opt.ProjectOptions)
  : M (option path) :=
  base ← cwd;
  let projectPath := resolve base projectName in
  ex ← on_fs (exists_sync projectPath);
  proceed ←
    (if (ex : bool) then
       files ← on_fs (read_dir projectPath);
       if bool_decide (0 < List.length files) && negb (truthy (Opt.yes options)) then
         overwrite ← prompt_confirm "overwrite" false;
         if negb (truthy overwrite) then mret false
         else on_fs (empty_dir projectPath);; mret true
       else mret true
     else mret true);
  if (proceed : bool) then on_fs (ensure_dir projectPath);; mret (Some projectPath)
  else mret None.

(** Lines 187-191: the degit locator. *)
Definition template_url (options : Opt.ProjectOptions) (templateChoice : string) : string :=
  repo_url (Opt.repo options) (Opt.branch options) templateChoice.

(** Lines 194-217. *)
Definition download_template (projectName : string) (projectPath : path)
  (templateChoice : string) (options : Opt.ProjectOptions) : M unit :=
  clone (template_url options templateChoice) projectPath;;
  let pkgJsonPath := join projectPath ["package.json"] in
  hasPkg ← on_fs (exists_sync pkgJsonPath);
  (if (hasPkg : bool) then
     pkgJson ← on_fs (read_json pkgJsonPath);
     pkgJson' ← js (set_prop (Some pkgJson) "name" (JStr projectName));
     on_fs (write_json pkgJsonPath pkgJson')
   else mret ());;
  let gitDir := join projectPath [".git"] in
  hasGit ← on_fs (exists_sync gitDir);
  if (hasGit : bool) then on_fs (remove gitDir) else mret ().

(** Lines 219-235: whether to patch for RPC ([if (useRpc)] only tests
    its truthiness), or [None] when the prompt is cancelled. *)
Definition resolve_rpc (options : Opt.ProjectOptions) : M (option bool) :=
  if negb (truthy (Opt.yes options)) && negb (truthy (Opt.rpc options)) then
    rpcResponse ← prompt_confirm "useRpc" false;
    match rpcResponse with
    | None => mret None
    | Some useRpc => mret (Some useRpc)
    end
  else mret (Some (truthy (Opt.rpc options))).

(** [git init], lines 252-266 and 269-276. *)
Definition git_init (projectPath : path) : M bool :=
  TRY (exec "git" ["init"] projectPath;; mret true) CATCH _ => mret false.

(** Lines 241-277. *)
Definition initialize_git (options : Opt.ProjectOptions) (projectPath : path) : M bool :=
  if negb (truthy (Opt.yes options)) then
    initGit ← prompt_confirm "initGit" true;
    if truthy initGit then git_init projectPath else mret false
  else git_init projectPath.

(** [bun install], falling back to [npm install], lines 290-309 and
    312-328. *)
Definition install_with_fallback (projectPath : path) : M bool :=
  TRY (exec "bun" ["install"] projectPath;; mret true)
  CATCH _ => (TRY (exec "npm" ["install"] projectPath;; mret true) CATCH _ => mret false).

(** Lines 279-329. *)
Definition install_dependencies (options : Opt.ProjectOptions) (projectPath : path) : M bool :=
  if negb (truthy (Opt.yes options)) then
    installDeps ← prompt_confirm "installDeps" true;
    if truthy installDeps then install_with_fallback projectPath else mret false
  else install_with_fallback projectPath.

(** Lines 194-340: the body of the [try]. *)
Definition after_directory (projectName : string) (projectPath : path) (templateChoice : string)
  (options : Opt.ProjectOptions) : M (option Res.ProjectResult) :=
  download_template projectName projectPath templateChoice options;;
  useRpc ← resolve_rpc options;
  match useRpc with
  | None => mret None
  | Some useRpc =>
      (if (useRpc : bool) then patchFilesForRPC projectPath templateChoice;; mret ()
       else mret ());;
      gitInitialized ← initialize_git options projectPath;
      dependenciesInstalled ← install_dependencies options projectPath;
      mret (Some {| Res.projectName := projectName;
                    Res.gitInitialized := gitInitialized;
                    Res.dependenciesInstalled := dependenciesInstalled;
                    Res.template := templateChoice |})
  end.

(** [createProject(projectDirectory, options)] *)
Definition createProject (projectDirectory : option string) (options : Opt.ProjectOptions)
  : M (option Res.ProjectResult) :=
  projectName ← resolve_project_name projectDirectory options;
  match projectName with
  | None => mret None
  | Some projectName =>
      templateChoice ← resolve_template options;
      match templateChoice with
      | None => mret None
      | Some templateChoice =>
          projectPath ← prepare_directory projectName options;
          match projectPath with
          | None => mret None
          | Some projectPath =>
              TRY after_directory projectName projectPath templateChoice options
              CATCH err => throw err
          end
      end
  end.

(** ** Non-interactive mode shows no prompt *)

(** Rewrite the [--yes] tests of a step and drop the prompting branches. *)
Ltac yes_branches H :=
  rewrite ?H; cbn [negb andb]; rewrite ?andb_false_r; cbv beta iota.

Section yes_mode.
Context (options : Opt.ProjectOptions) (Hyes : truthy (Opt.yes options) = true).

Lemma resolve_project_name_yes d : respects no_prompt (resolve_project_name d options).
Proof. unfold resolve_project_name. yes_branches Hyes. respects_auto. Qed.

Lemma resolve_template_yes : respects no_prompt (resolve_template options).
Proof. unfold resolve_template. yes_branches Hyes. respects_auto. Qed.

Lemma prepare_directory_yes name : respects no_prompt (prepare_directory name options).
Proof. unfold prepare_directory. yes_branches Hyes. respects_auto. Qed.

Lemma download_template_yes name p t :
  respects no_prompt (download_template name p t options).
Proof. unfold download_template. respects_auto. Qed.

Lemma resolve_rpc_yes : respects no_prompt (resolve_rpc options).
Proof. unfold resolve_rpc. yes_branches Hyes. respects_auto. Qed.

Lemma initialize_git_yes p : respects no_prompt (initialize_git options p).
Proof. unfold initialize_git, git_init. yes_branches Hyes. respects_auto. Qed.

Lemma install_dependencies_yes p : respects no_prompt (install_dependencies options p).
Proof. unfold install_dependencies, install_with_fallback. yes_branches Hyes. respects_auto. Qed.

#[local] Hint Resolve resolve_project_name_yes resolve_template_yes prepare_directory_yes
  download_template_yes resolve_rpc_yes initialize_git_yes install_dependencies_yes : forge.

Lemma createProject_yes_respects d : respects no_prompt (createProject d options).
Proof. unfold createProject, after_directory. respects_auto. Qed.
End yes_mode.


(** ** Theorems *)

(** C1. Non-interactive mode ([--yes]) never shows a prompt: whatever the
    directory argument, the other options and the world, every event the
    run adds to the trace is a command, a download or nothing else but
    never a prompt. *)
Theorem createProject_yes_no_prompt d options w :
  truthy (Opt.yes options) = true →
  ∃ t, w_trace (state_of (createProject d options) w) = w_trace w ++ t ∧
       Forall (λ e, ¬ is_prompt e) t.
Proof. intros Hyes. apply (createProject_yes_respects options Hyes d w). Qed.

(** Dependency installation runs [bun install], and runs
    [npm install] exactly when [bun install] failed; it reports success
    when one of them succeeded, and never throws. *)
Lemma install_with_fallback_run p w :
  install_with_fallback p w =
  (Ok (w_exec_ok w "bun" ["install"] || w_exec_ok w "npm" ["install"]),
   set_trace (w_trace w ++ EvExec "bun" ["install"] p ::
              (if w_exec_ok w "bun" ["install"] then [] else [EvExec "npm" ["install"] p])) w).
Proof.
  unfold install_with_fallback, try_catch, exec, emit, modify, gets, mbind, stM_bind. cbn.
  destruct (w_exec_ok w "bun" ["install"]) eqn:Hb; cbn; [done|].
  destruct (w_exec_ok w "npm" ["install"]); cbn; by rewrite <-app_assoc.
Qed.

(** C4. Declining the overwrite prompt: in interactive mode, when the
    project path is an existing directory with at least one entry and the
    user's answer to the overwrite prompt is anything but an explicit yes
    (no, Enter on the default no, or a cancel), the directory step shows
    exactly that prompt, returns no project path (so [createProject]
    returns [null]) and leaves the file system untouched. *)
Theorem prepare_directory_decline name options w a rest :
  truthy (Opt.yes options) = false →
  fs_wf (w_fs w) →
  w_fs w !! resolve (w_cwd w) name = Some NDir →
  (∃ x n, w_fs w !! (resolve (w_cwd w) name ++ [x]) = Some n) →
  w_answers w = a :: rest → a ≠ AConfirm true →
  prepare_directory name options w =
    (Ok None, set_answers rest (set_trace (w_trace w ++ [EvPrompt PConfirm "overwrite"]) w)).
Proof.
  intros Hyes Hwf Hdir Hchild Hans Ha.
  destruct (read_dir_dir _ _ Hwf Hdir) as (l & Hread & Hlen).
  assert (0 < List.length l) as Hl by (by apply Hlen).
  unfold prepare_directory, cwd, gets, on_fs, exists_sync, mbind, stM_bind.
  cbn -[read_dir prompt_confirm empty_dir ensure_dir].
  rewrite set_fs_id, bool_decide_eq_true_2 by (rewrite Hdir; eauto).
  rewrite Hread, set_fs_id, bool_decide_eq_true_2 by done. rewrite Hyes. cbn -[prompt_confirm].
  rewrite (prompt_confirm_run _ _ _ a rest Hans).
  destruct a as [s|i|[]| |]; cbn; done || congruence.
Qed.

(** C21. Accepting the overwrite prompt: in interactive mode, when the
    project path is an existing directory with at least one entry and the
    user answers yes, the directory step shows that one prompt, empties
    the directory (everything strictly below it is gone, the directory
    itself and everything outside it stay as they were) and returns its
    path. *)
Theorem prepare_directory_accept name options w rest :
  truthy (Opt.yes options) = false →
  fs_wf (w_fs w) →
  w_fs w !! resolve (w_cwd w) name = Some NDir →
  (∃ x n, w_fs w !! (resolve (w_cwd w) name ++ [x]) = Some n) →
  w_answers w = AConfirm true :: rest →
  ∃ w', prepare_directory name options w = (Ok (Some (resolve (w_cwd w) name)), w') ∧
    w_answers w' = rest ∧ w_trace w' = w_trace w ++ [EvPrompt PConfirm "overwrite"] ∧
    ∀ q, w_fs w' !! q = if strictly_below (resolve (w_cwd w) name) q then None else w_fs w !! q.
Proof.
  intros Hyes Hwf Hdir Hchild Hans.
  destruct (read_dir_dir _ _ Hwf Hdir) as (l & Hread & Hlen).
  assert (0 < List.length l) as Hl by (by apply Hlen).
  set (p := resolve (w_cwd w) name) in *.
  set (m' := filter (λ kv : path * node, strictly_below p kv.1 = false) (w_fs w)).
  assert (fs_wf m') as Hwf'.
  { pose proof (empty_dir_wf p (w_fs w) Hwf) as H. unfold state_of, empty_dir in H.
    by rewrite Hdir in H. }
  assert (m' !! p = Some NDir) as Hp'.
  { apply map_lookup_filter_Some. split; [done|]. apply bool_decide_eq_false_2. tauto. }
  exists (set_fs m' (set_answers rest (set_trace (w_trace w ++ [EvPrompt PConfirm "overwrite"]) w))).
  split_and!; [|done|done|].
  - unfold prepare_directory, cwd, gets, on_fs, exists_sync, mbind, stM_bind.
    cbn -[read_dir prompt_confirm empty_dir ensure_dir]. fold p.
    rewrite set_fs_id, bool_decide_eq_true_2 by (rewrite Hdir; eauto).
    rewrite Hread, set_fs_id, bool_decide_eq_true_2 by done. rewrite Hyes. cbn -[prompt_confirm].
    rewrite (prompt_confirm_run _ _ _ _ rest Hans). cbn -[ensure_dir empty_dir].
    unfold empty_dir. rewrite Hdir. cbn -[ensure_dir]. fold m'.
    by rewrite (ensure_dir_existing m' p Hwf' Hp').
  - intros q. cbn [w_fs set_fs]. unfold m'.
    destruct (strictly_below p q) eqn:Hq.
    + apply map_lookup_filter_None. right. intros n _. cbn. by rewrite Hq.
    + destruct (w_fs w !! q) as [n|] eqn:Hm.
      * by apply map_lookup_filter_Some.
      * apply map_lookup_filter_None. by left.
Qed.

(** C22. Non-interactive mode reuses an existing directory as it is: with
    [--yes], when the project path is a directory (empty or not), the
    directory step shows no prompt, does not empty it, and returns its
    path with the world unchanged; the download then extracts over the
    existing files. *)
Theorem prepare_directory_yes_existing name options w :
  truthy (Opt.yes options) = true →
  fs_wf (w_fs w) →
  w_fs w !! resolve (w_cwd w) name = Some NDir →
  prepare_directory name options w = (Ok (Some (resolve (w_cwd w) name)), w).
Proof.
  intros Hyes Hwf Hdir.
  destruct (read_dir_dir _ _ Hwf Hdir) as (l & Hread & _).
  unfold prepare_directory, cwd, gets, on_fs, exists_sync, mbind, stM_bind.
  cbn -[read_dir ensure_dir].
  rewrite set_fs_id, bool_decide_eq_true_2 by (rewrite Hdir; eauto).
  rewrite Hread, set_fs_id, Hyes, andb_false_r. cbn -[ensure_dir].
  by rewrite (ensure_dir_existing _ _ Hwf Hdir), set_fs_id.
Qed.

(** ** Witnesses *)

Lemma prepare_directory_accept_witness :
  let w := world fs_home_with_app [AConfirm true] all_tools_ok in
  truthy (Opt.yes interactive_options) = false ∧
  fs_wf (w_fs w) ∧
  w_fs w !! resolve (w_cwd w) "my-app" = Some NDir ∧
  (∃ x n, w_fs w !! (resolve (w_cwd w) "my-app" ++ [x]) = Some n) ∧
  w_answers w = [AConfirm true] ∧
  ∃ w', prepare_directory "my-app" interactive_options w =
          (Ok (Some (resolve (w_cwd w) "my-app")), w') ∧
    w_answers w' = [] ∧ w_trace w' = w_trace w ++ [EvPrompt PConfirm "overwrite"] ∧
    ∀ q, w_fs w' !! q = if strictly_below (resolve (w_cwd w) "my-app") q then None else w_fs w !! q.
Proof.
  intros w.
  assert (fs_wf (w_fs w)) as Hwf by (apply fs_wfb_spec; vm_refl).
  assert (w_fs w !! resolve (w_cwd w) "my-app" = Some NDir) as Hd by vm_refl.
  assert (∃ x n, w_fs w !! (resolve (w_cwd w) "my-app" ++ [x]) = Some n) as Hc
    by (exists "notes.txt", (NFile (CText "todo")); vm_refl).
  split_and!; [reflexivity|exact Hwf|exact Hd|exact Hc|reflexivity|].
  exact (prepare_directory_accept "my-app" interactive_options w [] eq_refl Hwf Hd Hc eq_refl).
Defined.

Lemma prepare_directory_yes_existing_witness :
  let w := world fs_home_with_app [] all_tools_ok in
  truthy (Opt.yes (yes_options "default" None)) = true ∧
  fs_wf (w_fs w) ∧
  w_fs w !! resolve (w_cwd w) "my-app" = Some NDir ∧
  prepare_directory "my-app" (yes_options "default" None) w =
    (Ok (Some (resolve (w_cwd w) "my-app")), w).
Proof.
  intros w.
  assert (fs_wf (w_fs w)) as Hwf by (apply fs_wfb_spec; vm_refl).
  assert (w_fs w !! resolve (w_cwd w) "my-app" = Some NDir) as Hd by vm_refl.
  split_and!; [reflexivity|exact Hwf|exact Hd|].
  exact (prepare_directory_yes_existing "my-app" (yes_options "default" None) w eq_refl Hwf Hd).
Defined.

Lemma createProject_yes_no_prompt_witness :
  truthy (Opt.yes (yes_options "default" None)) = true ∧
  ∃ t, w_trace (state_of (createProject (Some "my-app") (yes_options "default" None))
                  (world fs_home [] all_tools_ok)) =
       w_trace (world fs_home [] all_tools_ok) ++ t ∧ Forall (λ e, ¬ is_prompt e) t.
Proof. split; [reflexivity|]. apply createProject_yes_no_prompt. reflexivity. Defined.

Lemma prepare_directory_decline_witness :
  prepare_directory "my-app" interactive_options (world fs_home_with_app [AConfirm false] all_tools_ok) =
  (Ok None, set_answers [] (set_trace (w_trace (world fs_home_with_app [AConfirm false] all_tools_ok)
                                        ++ [EvPrompt PConfirm "overwrite"])
                              (world fs_home_with_app [AConfirm false] all_tools_ok))).
Proof.
  apply (prepare_directory_decline "my-app" interactive_options _ (AConfirm false) []).
  - reflexivity.
  - apply fs_wfb_spec. vm_refl.
  - vm_refl.
  - exists "notes.txt", (NFile (CText "todo")). vm_refl.
  - reflexivity.
  - discriminate.
Defined.


(** ** Errors and cancellation *)

#[local] Hint Extern 1 (fatal_error _) => exact I : forge.

(** The only exceptions that escape [createProject] are download,
    file-system and [TypeError] exceptions: a failed [git init],
    [bun install], [npm install] or [bun install hono] never aborts the
    run.  (Besides a failed download, a malformed or non-object
    [package.json], a project path that is a file, or a failed
    [ensureDirSync] abort it too.) *)
Lemma createProject_raises_fatal d options : raises fatal_error (createProject d options).
Proof.
  unfold createProject, resolve_project_name, resolve_template, prepare_directory,
    after_directory, download_template, resolve_rpc, initialize_git, git_init,
    install_dependencies, install_with_fallback, patchFilesForRPC.
  raises_auto.
Qed.

(** C15. A download that fails is fatal: when the remote has no tree at
    the locator [repo#branch], the body of the [try] throws the download
    error right after starting the download, before touching any file;
    [createProject] rethrows it unchanged. *)
Theorem after_directory_missing_remote name p t options w :
  w_remote w (template_url options t) = None →
  after_directory name p t options w =
  (Exn (EClone (template_url options t)),
   set_trace (w_trace w ++ [EvClone (template_url options t) p]) w).
Proof.
  intros H. unfold after_directory, download_template, clone, emit, modify, gets.
  unfold mbind, stM_bind, throw. cbn. by rewrite H.
Qed.

(** C20. A downloaded [package.json] that is not JSON is fatal: when the
    download extracts a tree whose [package.json] does not parse,
    [fs.readJson] throws and the body of the [try] rethrows it right
    after the download, before the RPC, git and install steps; the
    extracted files stay on disk.  (The spec counts only a failed
    retrieval as fatal.) *)
Theorem after_directory_malformed_manifest name pp t options w tr m s :
  fs_wf (w_fs w) →
  w_remote w (template_url options t) = Some tr →
  extract pp tr (w_fs w) = (Ok (), m) →
  m !! join pp ["package.json"] = Some (NFile (CText s)) →
  after_directory name pp t options w =
  (Exn (EFs (EJSONPARSE (join pp ["package.json"]))),
   set_fs m (set_trace (w_trace w ++ [EvClone (template_url options t) pp]) w)).
Proof.
  intros Hwf Hr Hx Hp.
  assert (fs_wf m) as Hm.
  { pose proof (extract_wf pp tr (w_fs w) Hwf) as H. unfold state_of in H. by rewrite Hx in H. }
  assert (read_json (join pp ["package.json"]) m = (Exn (EJSONPARSE (join pp ["package.json"])), m))
    as Hread.
  { unfold read_json, mbind, stM_bind. by rewrite (read_file_run _ _ _ Hm Hp). }
  unfold after_directory, download_template, clone, emit, modify, gets, on_fs, exists_sync,
    mbind, stM_bind.
  cbn -[extract read_json join]. rewrite Hr. cbn -[extract read_json join]. rewrite Hx.
  cbn -[read_json join]. rewrite bool_decide_eq_true_2 by (rewrite Hp; by eexists).
  cbn -[read_json join]. by rewrite Hread.
Qed.

Lemma after_directory_malformed_manifest_witness :
  let pp := home ++ ["my-app"] in
  let o := yes_options "default" None in
  let m := state_of (extract pp malformed_tree) fs_home in
  fs_wf (w_fs malformed_world) ∧
  w_remote malformed_world (template_url o "default") = Some malformed_tree ∧
  extract pp malformed_tree (w_fs malformed_world) = (Ok (), m) ∧
  m !! join pp ["package.json"] = Some (NFile (CText "{ name: bhvr")) ∧
  after_directory "my-app" pp "default" o malformed_world =
  (Exn (EFs (EJSONPARSE (join pp ["package.json"]))),
   set_fs m (set_trace (w_trace malformed_world ++
                        [EvClone (template_url o "default") pp]) malformed_world)).
Proof.
  intros pp o m.
  assert (fs_wf (w_fs malformed_world)) as Hwf by (apply fs_wfb_spec; vm_refl).
  assert (extract pp malformed_tree (w_fs malformed_world) = (Ok (), m)) as Hx
    by (apply run_eq; vm_refl).
  assert (m !! join pp ["package.json"] = Some (NFile (CText "{ name: bhvr"))) as Hp by vm_refl.
  split_and!; [exact Hwf|reflexivity|exact Hx|exact Hp|].
  exact (after_directory_malformed_manifest "my-app" pp "default" o malformed_world malformed_tree m
           "{ name: bhvr" Hwf eq_refl Hx Hp).
Defined.

(** C18. Cancelling the name prompt: in interactive mode without a
    directory argument, a cancelled first prompt (or an answer of another
    kind) makes [createProject] return [null] after that single prompt,
    with the file system untouched.  (A text answer, or Enter on the
    prompt's initial value ["my-bhvr-app"], is not a cancellation and is
    excluded.) *)
Theorem createProject_name_cancel options w a rest :
  truthy (Opt.yes options) = false →
  w_answers w = a :: rest →
  (match a with AText _ | ADefault => False | _ => True end) →
  createProject None options w =
  (Ok None, set_answers rest (set_trace (w_trace w ++ [EvPrompt PText "projectName"]) w)).
Proof.
  intros Hyes Hans Ha. unfold createProject, resolve_project_name. rewrite Hyes. cbn -[prompt_text].
  unfold mbind, stM_bind. rewrite (prompt_text_run _ _ _ a rest Hans).
  destruct a; done.
Qed.

(** C19. Cancelling the git prompt does not cancel the run: the git step
    returns [false] after the prompt, runs no command and throws nothing,
    and the workflow goes on to the dependency step. *)
Theorem initialize_git_prompt_cancel options p w rest :
  truthy (Opt.yes options) = false →
  w_answers w = AAbort :: rest →
  initialize_git options p w =
  (Ok false, set_answers rest (set_trace (w_trace w ++ [EvPrompt PConfirm "initGit"]) w)).
Proof.
  intros Hyes Hans. unfold initialize_git. rewrite Hyes. cbn -[prompt_confirm].
  unfold mbind, stM_bind. by rewrite (prompt_confirm_run _ _ _ AAbort rest Hans).
Qed.

Lemma after_directory_missing_remote_witness :
  w_remote (world fs_home [] all_tools_ok) (template_url missing_repo_options "default") = None ∧
  after_directory "my-app" (home ++ ["my-app"]) "default" missing_repo_options
    (world fs_home [] all_tools_ok) =
  (Exn (EClone (template_url missing_repo_options "default")),
   set_trace (w_trace (world fs_home [] all_tools_ok) ++
              [EvClone (template_url missing_repo_options "default") (home ++ ["my-app"])])
     (world fs_home [] all_tools_ok)).
Proof. split; [vm_refl|]. apply after_directory_missing_remote. vm_refl. Defined.

Lemma createProject_name_cancel_witness :
  truthy (Opt.yes interactive_options) = false ∧
  createProject None interactive_options (world fs_home [AAbort] all_tools_ok) =
  (Ok None, set_answers [] (set_trace (w_trace (world fs_home [AAbort] all_tools_ok)
                                        ++ [EvPrompt PText "projectName"])
                              (world fs_home [AAbort] all_tools_ok))).
Proof. split; [reflexivity|]. apply (createProject_name_cancel _ _ AAbort); done. Defined.

Lemma initialize_git_prompt_cancel_witness :
  truthy (Opt.yes interactive_options) = false ∧
  initialize_git interactive_options (home ++ ["my-app"]) (world fs_home [AAbort] all_tools_ok) =
  (Ok false, set_answers [] (set_trace (w_trace (world fs_home [AAbort] all_tools_ok)
                                         ++ [EvPrompt PConfirm "initGit"])
                               (world fs_home [AAbort] all_tools_ok))).
Proof. split; [reflexivity|]. apply initialize_git_prompt_cancel; done. Defined.

(** ** The project directory *)

Lemma prepare_directory_some name options w w' pp :
  fs_wf (w_fs w) → prepare_directory name options w = (Ok (Some pp), w') →
  pp = resolve (w_cwd w) name ∧ w_fs w' !! pp = Some NDir.
Proof.
  intros Hwf H. unfold prepare_directory in H.
  apply bind_ok_inv in H as (base & w1 & H1 & H). unfold cwd, gets in H1. injection H1 as <- <-.
  apply bind_ok_inv in H as (ex & w2 & H2 & H).
  apply bind_ok_inv in H as (proceed & w3 & H3 & H).
  assert (fs_wf (w_fs w2)) as Hw2.
  { refine (respects_run (on_fs_rel wf_kept) _ _ _ _ _ H2 Hwf). respects_auto. }
  assert (fs_wf (w_fs w3)) as Hw3.
  { refine (respects_run (on_fs_rel wf_kept) _ _ _ _ _ H3 Hw2). respects_auto. }
  destruct proceed; [|unfold mret, stM_ret in H; congruence].
  apply bind_ok_inv in H as ([] & w4 & H4 & H). unfold mret, stM_ret in H. injection H as <- <-.
  apply on_fs_ok_inv in H4 as (m4 & H4 & ->). split; [done|]. cbn.
  by eapply ensure_dir_dir.
Qed.

Lemma after_directory_result name pp t options :
  ensures (λ res, ∀ r, res = Some r → Res.projectName r = name ∧ Res.template r = t)
    (after_directory name pp t options).
Proof.
  unfold after_directory. apply ensures_bind. intros _. apply ensures_bind. intros [u|].
  - apply ensures_bind. intros _. apply ensures_bind. intros g. apply ensures_bind. intros dd.
    apply ensures_ret. by intros r [= <-].
  - apply ensures_ret. done.
Qed.

Lemma after_directory_keeps_dir name pp t options :
  respects (on_fs_rel (dir_kept pp)) (after_directory name pp t options).
Proof.
  unfold after_directory, download_template, resolve_rpc, initialize_git, git_init,
    install_dependencies, install_with_fallback, patchFilesForRPC.
  respects_auto.
Qed.

Lemma before_directory_env d options :
  respects env_kept (resolve_project_name d options) ∧ respects env_kept (resolve_template options).
Proof. unfold resolve_project_name, resolve_template. split; respects_auto. Qed.

Lemma before_directory_wf d options :
  respects (on_fs_rel wf_kept) (resolve_project_name d options) ∧
  respects (on_fs_rel wf_kept) (resolve_template options).
Proof. unfold resolve_project_name, resolve_template. split; respects_auto. Qed.

(** ** Confinement to the project directory *)






(** C16. A run that creates the project leaves the project directory in
    place: after [createProject] returns a result, the path the name
    resolves to from the working directory is a directory, whether or not
    it existed before (the download, the [.git] removal, the RPC patch,
    git and the installs never remove it). *)
Theorem createProject_dir_exists d options w w' r :
  fs_wf (w_fs w) →
  createProject d options w = (Ok (Some r), w') →
  w_fs w' !! resolve (w_cwd w) (Res.projectName r) = Some NDir.
Proof.
  intros Hwf H. unfold createProject in H.
  destruct (before_directory_env d options) as [Hc1 Hc2].
  destruct (before_directory_wf d options) as [Hf1 Hf2].
  apply bind_ok_inv in H as (on & w1 & H1 & H).
  destruct on as [name|]; [|unfold mret, stM_ret in H; congruence].
  apply bind_ok_inv in H as (ot & w2 & H2 & H).
  destruct ot as [t|]; [|unfold mret, stM_ret in H; congruence].
  apply bind_ok_inv in H as (op & w3 & H3 & H).
  destruct op as [pp|]; [|unfold mret, stM_ret in H; congruence].
  rewrite catch_rethrow in H.
  pose proof (respects_run _ _ _ _ _ Hc1 H1) as E1. pose proof (respects_run _ _ _ _ _ Hc2 H2) as E2.
  pose proof (respects_run _ _ _ _ _ Hf1 H1 Hwf) as W1. pose proof (respects_run _ _ _ _ _ Hf2 H2 W1) as W2.
  destruct (after_directory_result name pp t options _ _ _ H r eq_refl) as [<- _].
  pose proof H3 as Hp. apply prepare_directory_some in Hp as [Epp Hdir]; [|done].
  destruct E1 as [E1 _], E2 as [E2 _]. rewrite Epp, E2, E1 in Hdir. rewrite Epp, E2, E1 in H.
  exact (respects_run _ _ _ _ _ (after_directory_keeps_dir _ _ _ _) H Hdir).
Qed.

Lemma createProject_dir_exists_witness :
  fs_wf (w_fs (world fs_home [] all_tools_ok)) ∧
  w_fs (state_of (createProject (Some "my-app") (yes_options "default" None))
          (world fs_home [] all_tools_ok)) !! resolve home "my-app" = Some NDir.
Proof.
  split; [apply fs_wfb_spec; vm_refl|].
  apply (createProject_dir_exists (Some "my-app") (yes_options "default" None)
           (world fs_home [] all_tools_ok) _
           {| Res.projectName := "my-app"; Res.gitInitialized := true;
              Res.dependenciesInstalled := true; Res.template := "default" |}).
  - apply fs_wfb_spec. vm_refl.
  - apply run_eq. vm_refl.
Defined.

(** ** The result of a non-interactive run *)

(** What the spec's step 9 assembles in non-interactive mode: the name
    given or the default one, whether [git init] succeeds, whether
    [bun install] or else [npm install] succeeds, and the template id
    given or ["default"]. *)
Definition yes_result (d : option string) (options : Opt.ProjectOptions) (w : World)
  : Res.ProjectResult :=
  {| Res.projectName := d ||| DEFAULT_NAME;
     Res.gitInitialized := w_exec_ok w "git" ["init"];
     Res.dependenciesInstalled := w_exec_ok w "bun" ["install"] || w_exec_ok w "npm" ["install"];
     Res.template := Opt.template options ||| "default" |}.

Lemma git_init_run p w :
  git_init p w = (Ok (w_exec_ok w "git" ["init"]), set_trace (w_trace w ++ [EvExec "git" ["init"] p]) w).
Proof.
  unfold git_init, try_catch, exec, emit, modify, gets, mbind, stM_bind. cbn.
  by destruct (w_exec_ok w "git" ["init"]).
Qed.

Lemma download_template_env name p t options :
  respects env_kept (download_template name p t options).
Proof. unfold download_template. respects_auto. Qed.

Lemma prepare_directory_env name options : respects env_kept (prepare_directory name options).
Proof. unfold prepare_directory. respects_auto. Qed.

#[export] Hint Resolve download_template_env prepare_directory_env : forge.

Section yes_result.
Context (options : Opt.ProjectOptions) (Hyes : truthy (Opt.yes options) = true).

Lemma resolve_project_name_yes_run d w :
  resolve_project_name d options w = (Ok (Some (d ||| DEFAULT_NAME)), w).
Proof.
  unfold resolve_project_name. yes_branches Hyes.
  destruct d as [s|]; cbn; [|done]. by destruct (truthy s).
Qed.

Lemma resolve_template_yes_run w :
  resolve_template options w = (Ok (Some (Opt.template options ||| "default")), w).
Proof. unfold resolve_template. by yes_branches Hyes. Qed.

Lemma resolve_rpc_yes_run w : resolve_rpc options w = (Ok (Some (truthy (Opt.rpc options))), w).
Proof. unfold resolve_rpc. by yes_branches Hyes. Qed.

(** With [--yes] the directory step never cancels. *)
Lemma prepare_directory_yes_some name : ensures is_Some (prepare_directory name options).
Proof.
  unfold prepare_directory. yes_branches Hyes.
  apply ensures_bind. intros base. apply ensures_bind. intros ex.
  apply (ensures_bind_post (λ b : bool, b = true)); [ensures_auto; done|].
  intros proceed ->. ensures_auto. by eexists.
Qed.

Lemma after_directory_yes_run name p t w r w' :
  after_directory name p t options w = (Ok r, w') →
  r = Some {| Res.projectName := name;
              Res.gitInitialized := w_exec_ok w "git" ["init"];
              Res.dependenciesInstalled := w_exec_ok w "bun" ["install"] || w_exec_ok w "npm" ["install"];
              Res.template := t |}.
Proof.
  intros H. unfold after_directory in H.
  apply bind_ok_inv in H as (u1 & w1 & H1 & H).
  apply bind_ok_inv in H as (ur & w2 & H2 & H). rewrite resolve_rpc_yes_run in H2.
  injection H2 as <- <-.
  apply bind_ok_inv in H as (u3 & w3 & H3 & H).
  apply bind_ok_inv in H as (g & w4 & H4 & H).
  unfold initialize_git in H4. rewrite Hyes in H4. cbn [negb] in H4. rewrite git_init_run in H4. injection H4 as <- <-.
  apply bind_ok_inv in H as (dd & w5 & H5 & H).
  unfold install_dependencies in H5. rewrite Hyes in H5. cbn [negb] in H5.
  rewrite install_with_fallback_run in H5.
  injection H5 as <- <-. injection H as <- <-.
  destruct (respects_run env_kept _ _ _ _ (download_template_env _ _ _ _) H1) as (_ & _ & E1).
  assert (respects env_kept (if truthy (Opt.rpc options)
                             then patchFilesForRPC p t ≫= (λ _, mret ()) else mret ())) as Hp
    by respects_auto.
  destruct (respects_run _ _ _ _ _ Hp H3) as (_ & _ & E3).
  cbn. by rewrite E3, E1.
Qed.

Lemma createProject_yes_run d w res w' :
  createProject d options w = (Ok res, w') → res = Some (yes_result d options w).
Proof.
  intros H. unfold createProject in H.
  apply bind_ok_inv in H as (on & w1 & H1 & H). rewrite resolve_project_name_yes_run in H1.
  injection H1 as <- <-.
  apply bind_ok_inv in H as (ot & w2 & H2 & H). rewrite resolve_template_yes_run in H2.
  injection H2 as <- <-.
  apply bind_ok_inv in H as (op & w3 & H3 & H).
  destruct (prepare_directory_yes_some _ _ _ _ H3) as [pp ->].
  rewrite catch_rethrow in H. apply after_directory_yes_run in H as ->.
  destruct (respects_run env_kept _ _ _ _ (prepare_directory_env _ _) H3) as (_ & _ & E3).
  unfold yes_result. by rewrite E3.
Qed.
End yes_result.

(** C3. A non-interactive run ([--yes]) refines the spec's result
    assembly: it never cancels, and it either returns exactly the result
    of [yes_result] (the name given or ["my-bhvr-app"], [git init]'s
    success, the success of [bun install] or else [npm install], the
    template id given or ["default"]) or throws a fatal exception. *)
Theorem createProject_yes_result d options w :
  truthy (Opt.yes options) = true →
  match result_of (createProject d options) w with
  | Ok (Some r) => r = yes_result d options w
  | Ok None => False
  | Exn e => fatal_error e
  end.
Proof.
  intros Hyes. pose proof (createProject_raises_fatal d options w) as Hf.
  unfold result_of in *.
  destruct (createProject d options w) as [[res|e] w'] eqn:Hrun; [|by apply Hf].
  apply createProject_yes_run in Hrun as ->; done.
Qed.

Lemma createProject_yes_result_witness :
  truthy (Opt.yes (yes_options "default" None)) = true ∧
  match result_of (createProject None (yes_options "default" None)) (world fs_home [] no_bun) with
  | Ok (Some r) => r = yes_result None (yes_options "default" None) (world fs_home [] no_bun)
  | Ok None => False
  | Exn e => fatal_error e
  end.
Proof. split; [reflexivity|]. apply createProject_yes_result. reflexivity. Defined.

(** ** The download step *)

(** A manifest as the rename leaves it: a JSON object whose [name] is the
    project name, or an array, on which [pkgJson.name = projectName] sets
    a property that [JSON.stringify] does not write. *)
Definition renamed (name : string) (c : content) : Prop :=
  ∃ v, c = CJson v ∧ (get_prop (Some v) "name" = Ok (Some (JStr name)) ∨ ∃ l, v = JArr l).

Lemma exists_sync_run p w b w' :
  on_fs (exists_sync p) w = (Ok b, w') → b = bool_decide (is_Some (w_fs w !! p)) ∧ w' = w.
Proof.
  intros (m & Hm & ->)%on_fs_ok_inv. unfold exists_sync, gets in Hm.
  injection Hm as <- <-. by rewrite set_fs_id.
Qed.

(** Lines 206-211: the rename of an existing manifest. *)
Lemma rename_manifest_post name pj w w' :
  (if bool_decide (is_Some (w_fs w !! pj)) then
     pkgJson ← on_fs (read_json pj);
     pkgJson' ← js (set_prop (Some pkgJson) "name" (JStr name));
     on_fs (write_json pj pkgJson')
   else mret ()) w = (Ok (), w') →
  ∀ c, w_fs w' !! pj = Some (NFile c) → renamed name c.
Proof.
  case_bool_decide as Hex.
  - intros (v & w1 & (m1 & Hr & ->)%on_fs_ok_inv & H)%bind_ok_inv.
    apply read_json_ok_inv in Hr as [-> _]. rewrite set_fs_id in H.
    apply bind_ok_inv in H as (v' & w2 & [Hs ->]%js_ok_inv & (m2 & Hw & ->)%on_fs_ok_inv).
    unfold write_json in Hw. apply write_file_ok_inv in Hw as ->. cbn.
    intros c. rewrite lookup_insert_eq. intros [= <-]. exists v'. split; [done|].
    destruct v as [| | | |l|fs]; cbn in Hs; simplify_eq; [by right; eexists|].
    left. apply get_set_prop_obj.
  - unfold mret, stM_ret. intros [= <-] c Hc. exfalso. apply Hex. by eexists.
Qed.

(** Lines 213-217: the removal of a downloaded [.git]. *)
Lemma remove_git_post g w w' :
  fs_wf (w_fs w) →
  (if bool_decide (is_Some (w_fs w !! g)) then on_fs (remove g) else mret ()) w = (Ok (), w') →
  (∀ q, at_or_below g q = true → w_fs w' !! q = None) ∧
  (∀ q, at_or_below g q = false → w_fs w' !! q = w_fs w !! q).
Proof.
  intros Hwf. case_bool_decide as Hex.
  - intros (m & Hm & ->)%on_fs_ok_inv. unfold remove in Hm. injection Hm as <-. cbn.
    split; intros q Hq; destruct (w_fs w !! q) eqn:E.
    + apply map_lookup_filter_None. right. intros n' _. cbn. by rewrite Hq.
    + apply map_lookup_filter_None. by left.
    + by apply map_lookup_filter_Some.
    + apply map_lookup_filter_None. by left.
  - unfold mret, stM_ret. intros [= <-]. split; [|done]. intros q Hq.
    destruct (w_fs w !! q) as [n|] eqn:E; [exfalso|done].
    apply bool_decide_eq_true in Hq as [r ->]. apply Hex.
    destruct r as [|x r]; [rewrite app_nil_r in E; by eexists|].
    eexists. by eapply wf_ancestor.
Qed.

Lemma package_json_not_below_git p :
  at_or_below (p ++ [".git"]) (p ++ ["package.json"]) = false.
Proof.
  apply bool_decide_eq_false_2. intros Hpre%prefix_app_inv.
  by apply prefix_cons_inv_1 in Hpre.
Qed.

(** C17. The post-download normalisation: after a download step that
    completes, nothing is left at or below [<project>/.git], and a file
    at [<project>/package.json] is JSON whose [name] is the project name
    (or a JSON array, which the rename leaves as it is). *)
Theorem download_template_post name p t options w w' :
  fs_wf (w_fs w) →
  download_template name p t options w = (Ok (), w') →
  (∀ q, at_or_below (p ++ [".git"]) q = true → w_fs w' !! q = None) ∧
  (∀ c, w_fs w' !! (p ++ ["package.json"]) = Some (NFile c) → renamed name c).
Proof.
  intros Hwf H. unfold download_template in H. cbv zeta in H.
  rewrite !join_segment in H by done.
  apply bind_ok_inv in H as ([] & w1 & H1 & H).
  apply bind_ok_inv in H as (hasPkg & w2 & [-> ->]%exists_sync_run & H).
  apply bind_ok_inv in H as ([] & w3 & H3 & H).
  apply bind_ok_inv in H as (hasGit & w4 & [-> ->]%exists_sync_run & H).
  assert (fs_wf (w_fs w1)) as W1.
  { refine (respects_run (on_fs_rel wf_kept) _ _ _ _ _ H1 Hwf). respects_auto. }
  assert (fs_wf (w_fs w3)) as W3.
  { refine (respects_run (on_fs_rel wf_kept) _ _ _ _ _ H3 W1). respects_auto. }
  apply remove_git_post in H as [Hg Hk]; [|done].
  split; [done|]. intros c Hc. eapply rename_manifest_post; [exact H3|].
  by rewrite <-Hk, Hc by apply package_json_not_below_git.
Qed.

Lemma download_template_post_witness :
  let w := world fs_home [] all_tools_ok in
  let w' := state_of (download_template "my-app" (home ++ ["my-app"]) "default"
                        (yes_options "default" None)) w in
  fs_wf (w_fs w) ∧
  (∀ q, at_or_below (home ++ ["my-app"] ++ [".git"]) q = true → w_fs w' !! q = None) ∧
  (∀ c, w_fs w' !! (home ++ ["my-app"] ++ ["package.json"]) = Some (NFile c) → renamed "my-app" c).
Proof.
  intros w w'. split; [apply fs_wfb_spec; vm_refl|].
  rewrite !app_assoc.
  apply (download_template_post "my-app" (home ++ ["my-app"]) "default" (yes_options "default" None) w).
  - apply fs_wfb_spec. vm_refl.
  - exact (run_eq (download_template "my-app" (home ++ ["my-app"]) "default"
                     (yes_options "default" None)) w (Ok ()) ltac:(vm_refl)).
Defined.

(** ** Pressing Enter at every prompt *)

Section defaults.
Context (options : Opt.ProjectOptions) (Hyes : truthy (Opt.yes options) = false)
  (Hbranch : truthy (Opt.branch options) = false).

Lemma resolve_project_name_default w rest :
  w_answers w = ADefault :: rest →
  resolve_project_name None options w =
    (Ok (Some DEFAULT_NAME),
     set_answers rest (set_trace (w_trace w ++ [EvPrompt PText "projectName"]) w)).
Proof.
  intros Ha. unfold resolve_project_name. rewrite Hyes. cbn -[prompt_text].
  unfold mbind, stM_bind. by rewrite (prompt_text_run _ _ _ _ _ Ha).
Qed.

Lemma resolve_template_default w rest :
  w_answers w = ADefault :: rest →
  resolve_template options w =
    (Ok (Some "default"),
     set_answers rest (set_trace (w_trace w ++ [EvPrompt PSelect "template"]) w)).
Proof.
  intros Ha. unfold resolve_template. rewrite Hyes, Hbranch. cbn -[prompt_select].
  unfold mbind, stM_bind. by rewrite (prompt_select_run _ _ _ _ _ _ Ha).
Qed.

(** A directory that does not exist is created without a question. *)
Lemma prepare_directory_absent name w r w' :
  w_fs w !! resolve (w_cwd w) name = None →
  prepare_directory name options w = (r, w') → r ≠ Ok None ∧ w_answers w' = w_answers w.
Proof.
  intros Habs. unfold prepare_directory, cwd, gets, on_fs, exists_sync, mbind, stM_bind.
  cbn -[ensure_dir]. rewrite set_fs_id, bool_decide_eq_false_2 by (rewrite Habs; by intros []).
  cbn -[ensure_dir]. by destruct (ensure_dir _ _) as [[]?]; intros [= <- <-].
Qed.

Lemma after_directory_default name p t w w' r rest :
  w_answers w = ADefault :: rest →
  after_directory name p t options w = (Ok r, w') → is_Some r.
Proof.
  intros Ha H. unfold after_directory in H.
  apply bind_ok_inv in H as (u1 & w1 & H1 & H).
  assert (w_answers w1 = ADefault :: rest) as Ha1.
  { rewrite <-Ha. refine (respects_run answers_kept _ _ _ _ _ H1).
    unfold download_template. respects_auto. }
  apply bind_ok_inv in H as (ur & w2 & H2 & H).
  assert (is_Some ur) as [u ->].
  { unfold resolve_rpc in H2. rewrite Hyes in H2. cbn [negb andb] in H2.
    destruct (truthy (Opt.rpc options)); cbn in H2.
    - injection H2 as <- _. by eexists.
    - unfold mbind, stM_bind in H2. rewrite (prompt_confirm_run _ _ _ _ _ Ha1) in H2.
      injection H2 as <- _. by eexists. }
  apply bind_ok_inv in H as (u3 & w3 & _ & H).
  apply bind_ok_inv in H as (g & w4 & _ & H).
  apply bind_ok_inv in H as (dd & w5 & _ & H).
  injection H as <- _. by eexists.
Qed.
End defaults.

(** C9. Liveness of the interactive run: when neither [--yes] nor
    [--branch] is given and the user presses Enter at the three prompts
    (project name, template, RPC confirmation) and [my-bhvr-app] does not
    exist yet, [createProject] is never cancelled: it either finishes with a
    result or fails with an error, never returns [null]. *)
Theorem createProject_defaults_complete options w rest :
  truthy (Opt.yes options) = false → truthy (Opt.branch options) = false →
  w_answers w = ADefault :: ADefault :: ADefault :: rest →
  w_fs w !! resolve (w_cwd w) DEFAULT_NAME = None →
  result_of (createProject None options) w ≠ Ok None.
Proof.
  intros Hy Hb Ha Habs. unfold result_of, createProject, mbind, stM_bind at 1.
  rewrite (resolve_project_name_default _ Hy _ _ Ha). cbv beta iota.
  unfold mbind, stM_bind at 1. rewrite (resolve_template_default _ Hy Hb _ (ADefault :: rest)) by done.
  cbv beta iota. unfold mbind, stM_bind at 1.
  destruct (prepare_directory _ _ _) as [r3 w3] eqn:H3.
  apply prepare_directory_absent in H3 as [Hr3 Ha3]; [|done].
  destruct r3 as [[p|]|e]; [|done|done]. rewrite catch_rethrow.
  destruct (after_directory _ _ _ _ _) as [[r|e] w4] eqn:H4; [|done].
  cbn in Ha3. apply (after_directory_default _ Hy _ _ _ _ _ _ rest) in H4 as [? ->]; done.
Qed.

Lemma createProject_defaults_complete_witness :
  truthy (Opt.yes interactive_options) = false ∧ truthy (Opt.branch interactive_options) = false ∧
  w_answers (world fs_home [ADefault; ADefault; ADefault] all_tools_ok) = [ADefault; ADefault; ADefault] ∧
  w_fs (world fs_home [ADefault; ADefault; ADefault] all_tools_ok)
    !! resolve (w_cwd (world fs_home [ADefault; ADefault; ADefault] all_tools_ok)) DEFAULT_NAME = None ∧
  result_of (createProject None interactive_options) (world fs_home [ADefault; ADefault; ADefault] all_tools_ok)
    ≠ Ok None.
Proof.
  split_and!; [vm_refl|vm_refl|vm_refl|vm_refl|].
  apply (createProject_defaults_complete _ _ []); vm_refl.
Defined.
