(* ===== verification/Bounds.v ===== *)
(** * How much a run can do

    Every observable action of the program is an event of the trace: a
    prompt shown, a command run, a download started.  [adds_at_most k m]
    says that a run of [m], from any world and whether it returns or
    throws, appends at most [k] events to the trace.  The rules below
    compose such budgets through bind, catch and the branches of the
    code; each step of [createProject] gets its budget, and the whole
    workflow is bounded by their sum.

    The bound is reached: the scenario at the end answers every prompt
    so that each step does the most it can, and the run then adds exactly
    as many events as the bound allows. *)

From S2P Require Import Prelude JsValue Paths Types Templates FsModel Effects Fixtures RpcPatch Workflow.

Definition adds_at_most {A} (k : nat) (m : M A) : Prop :=
  ∀ w, ∃ t, w_trace (state_of m w) = w_trace w ++ t ∧ List.length t ≤ k.

Create HintDb bound.

(** ** The rules *)

Section rules.
Context {A B : Type}.

Lemma adds_mono k k' (m : M A) : adds_at_most k m → k ≤ k' → adds_at_most k' m.
Proof. intros Hm Hk w. destruct (Hm w) as (t & Ht & Hl). exists t. split; [done|lia]. Qed.

Lemma adds_ret k (a : A) : adds_at_most k (mret a).
Proof. intros w. exists []. split; [by rewrite app_nil_r|cbn; lia]. Qed.

Lemma adds_throw k e : adds_at_most (A:=A) k (throw e).
Proof. intros w. exists []. split; [by rewrite app_nil_r|cbn; lia]. Qed.

Lemma adds_gets k (f : World → A) : adds_at_most k (gets f).
Proof. intros w. exists []. split; [by rewrite app_nil_r|cbn; lia]. Qed.

Lemma adds_bind k1 k2 (m : M A) (f : A → M B) :
  adds_at_most k1 m → (∀ a, adds_at_most k2 (f a)) → adds_at_most (k1 + k2) (m ≫= f).
Proof.
  intros Hm Hf w. specialize (Hm w). unfold state_of, mbind, stM_bind in *.
  destruct (m w) as [[a|e] w1]; cbn in *; destruct Hm as (t1 & Ht1 & Hl1).
  - destruct (Hf a w1) as (t2 & Ht2 & Hl2). unfold state_of in Ht2.
    destruct (f a w1) as [r w2]; cbn in *.
    exists (t1 ++ t2). rewrite Ht2, Ht1, app_assoc, length_app. split; [done|lia].
  - exists t1. split; [done|lia].
Qed.

Lemma adds_catch k1 k2 (m : M A) (h : error → M A) :
  adds_at_most k1 m → (∀ e, adds_at_most k2 (h e)) → adds_at_most (k1 + k2) (try_catch m h).
Proof.
  intros Hm Hh w. specialize (Hm w). unfold state_of, try_catch in *.
  destruct (m w) as [[a|e] w1]; cbn in *; destruct Hm as (t1 & Ht1 & Hl1).
  - exists t1. split; [done|lia].
  - destruct (Hh e w1) as (t2 & Ht2 & Hl2). unfold state_of in Ht2.
    destruct (h e w1) as [r w2]; cbn in *.
    exists (t1 ++ t2). rewrite Ht2, Ht1, app_assoc, length_app. split; [done|lia].
Qed.

Lemma adds_if k (b : bool) (m1 m2 : M A) :
  adds_at_most k m1 → adds_at_most k m2 → adds_at_most k (if b then m1 else m2).
Proof. by destruct b. Qed.
End rules.

(** A budget the proof search can compute: the first computation of a
    bind gets its budget from the instances, the rest of the code gets
    what remains. *)
Class Budget {A} (m : M A) (n : nat) : Prop := budget_ok : adds_at_most n m.

Lemma adds_bind_le {A B} k j (m : M A) (f : A → M B) :
  Budget m j → (∀ a, adds_at_most (k - j) (f a)) → j ≤ k → adds_at_most k (m ≫= f).
Proof. intros Hm Hf Hj. eapply adds_mono; [by apply adds_bind|lia]. Qed.

Lemma adds_catch_le {A} k j (m : M A) (h : error → M A) :
  Budget m j → (∀ e, adds_at_most (k - j) (h e)) → j ≤ k → adds_at_most k (try_catch m h).
Proof. intros Hm Hh Hj. eapply adds_mono; [by apply adds_catch|lia]. Qed.

(** ** The primitives *)

Lemma adds_emit e : adds_at_most 1 (emit e).
Proof. intros w. exists [e]. done. Qed.

Lemma adds_next_answer (k : nat) : adds_at_most k next_answer.
Proof.
  intros w. exists []. unfold state_of, next_answer. rewrite app_nil_r.
  destruct (w_answers w); split; cbn; (done || lia).
Qed.

Lemma adds_on_fs {A : Type} (k : nat) (op : fsM A) : adds_at_most k (on_fs op).
Proof.
  intros w. exists []. unfold state_of, on_fs. rewrite app_nil_r.
  destruct (op (w_fs w)) as [[] ?]; split; cbn; (done || lia).
Qed.

Lemma adds_js {A : Type} (k : nat) (r : outcome type_error A) : adds_at_most k (js r).
Proof. destruct r; [apply adds_ret|apply adds_throw]. Qed.

#[export] Instance budget_ret {A} (a : A) : Budget (mret a) 0 := adds_ret 0 a.
#[export] Instance budget_throw {A} e : Budget (A:=A) (throw e) 0 := adds_throw 0 e.
#[export] Instance budget_gets {A} (f : World → A) : Budget (gets f) 0 := adds_gets 0 f.
#[export] Instance budget_next_answer : Budget next_answer 0 := adds_next_answer 0.
#[export] Instance budget_on_fs {A} (op : fsM A) : Budget (on_fs op) 0 := adds_on_fs 0 op.
#[export] Instance budget_js {A} (r : outcome type_error A) : Budget (js r) 0 := adds_js 0 r.
#[export] Instance budget_emit e : Budget (emit e) 1 := adds_emit e.

#[export] Instance budget_bind {A B} (m : M A) (f : A → M B) n1 n2 :
  Budget m n1 → (∀ a, Budget (f a) n2) → Budget (m ≫= f) (n1 + n2) | 10.
Proof. apply adds_bind. Qed.

#[export] Instance budget_if {A} (b : bool) (m1 m2 : M A) n1 n2 :
  Budget m1 n1 → Budget m2 n2 → Budget (if b then m1 else m2) (max n1 n2) | 10.
Proof.
  intros H1 H2. destruct b; (eapply adds_mono; [done|lia]).
Qed.

(** Prove a budget by following the code. *)
Ltac bound_auto :=
  repeat (match goal with
  | |- adds_at_most _ (if _ then _ else _) => apply adds_if
  | |- adds_at_most _ (match ?x with _ => _ end) => destruct x
  | |- adds_at_most ?k (_ ≫= _) =>
      eapply (adds_bind_le k); [typeclasses eauto|intros ?|lia]
  | |- adds_at_most ?k (try_catch _ _) =>
      eapply (adds_catch_le k); [typeclasses eauto|intros ?|lia]
  | |- adds_at_most ?k (mret _) => apply adds_ret
  | |- adds_at_most ?k (throw _) => apply adds_throw
  | |- adds_at_most ?k ?m => eapply (adds_mono _ k); [apply budget_ok; typeclasses eauto|lia]
  end; cbn [Nat.sub]).

Lemma adds_exec cmd args dir : adds_at_most 1 (exec cmd args dir).
Proof. unfold exec. bound_auto. Qed.

Lemma adds_clone url dst : adds_at_most 1 (clone url dst).
Proof. unfold clone. bound_auto. Qed.

Lemma adds_prompt_text name initial : adds_at_most 1 (prompt_text name initial).
Proof. unfold prompt_text. bound_auto. Qed.

Lemma adds_prompt_select {A : Type} name (choices : list (string * A)) initial :
  adds_at_most 1 (prompt_select name choices initial).
Proof. unfold prompt_select. bound_auto. Qed.

Lemma adds_prompt_confirm name initial : adds_at_most 1 (prompt_confirm name initial).
Proof. unfold prompt_confirm. bound_auto. Qed.

#[export] Instance budget_exec cmd args dir : Budget (exec cmd args dir) 1 := adds_exec cmd args dir.
#[export] Instance budget_clone url dst : Budget (clone url dst) 1 := adds_clone url dst.
#[export] Instance budget_prompt_text name initial : Budget (prompt_text name initial) 1 :=
  adds_prompt_text name initial.
#[export] Instance budget_prompt_select {A : Type} name (choices : list (string * A)) initial :
  Budget (prompt_select name choices initial) 1 := adds_prompt_select name choices initial.
#[export] Instance budget_prompt_confirm name initial : Budget (prompt_confirm name initial) 1 :=
  adds_prompt_confirm name initial.

(** ** The steps of [createProject] *)

Lemma adds_resolve_project_name d options : adds_at_most 1 (resolve_project_name d options).
Proof. unfold resolve_project_name. bound_auto. Qed.

Lemma adds_resolve_template options : adds_at_most 1 (resolve_template options).
Proof. unfold resolve_template. bound_auto. Qed.

Lemma adds_prepare_directory name options : adds_at_most 1 (prepare_directory name options).
Proof. unfold prepare_directory, cwd. bound_auto. Qed.

Lemma adds_download_template name p t options :
  adds_at_most 1 (download_template name p t options).
Proof. unfold download_template. bound_auto. Qed.

Lemma adds_resolve_rpc options : adds_at_most 1 (resolve_rpc options).
Proof. unfold resolve_rpc. bound_auto. Qed.

Lemma adds_patchFilesForRPC p t : adds_at_most 1 (patchFilesForRPC p t).
Proof. unfold patchFilesForRPC. bound_auto. Qed.

Lemma adds_initialize_git options p : adds_at_most 2 (initialize_git options p).
Proof. unfold initialize_git, git_init. bound_auto. Qed.

Lemma adds_install_dependencies options p : adds_at_most 3 (install_dependencies options p).
Proof. unfold install_dependencies, install_with_fallback. bound_auto. Qed.

#[export] Instance budget_resolve_project_name d options : Budget (resolve_project_name d options) 1 :=
  adds_resolve_project_name d options.
#[export] Instance budget_resolve_template options : Budget (resolve_template options) 1 :=
  adds_resolve_template options.
#[export] Instance budget_prepare_directory name options : Budget (prepare_directory name options) 1 :=
  adds_prepare_directory name options.
#[export] Instance budget_download_template name p t options :
  Budget (download_template name p t options) 1 := adds_download_template name p t options.
#[export] Instance budget_resolve_rpc options : Budget (resolve_rpc options) 1 :=
  adds_resolve_rpc options.
#[export] Instance budget_patchFilesForRPC p t : Budget (patchFilesForRPC p t) 1 :=
  adds_patchFilesForRPC p t.
#[export] Instance budget_initialize_git options p : Budget (initialize_git options p) 2 :=
  adds_initialize_git options p.
#[export] Instance budget_install_dependencies options p : Budget (install_dependencies options p) 3 :=
  adds_install_dependencies options p.

Lemma adds_after_directory name p t options : adds_at_most 8 (after_directory name p t options).
Proof. unfold after_directory. bound_auto. Qed.

#[export] Instance budget_after_directory name p t options :
  Budget (after_directory name p t options) 8 := adds_after_directory name p t options.

(** The run that does the most: no directory argument, an existing
    non-empty [my-app], yes to every question, and no [bun]. *)
Definition busiest_answers : list answer :=
  [AText "my-app"; AChoice 0; AConfirm true; AConfirm true; AConfirm true; AConfirm true].

(** C8. Every run of [createProject], whatever its arguments and world
    and whether it returns, cancels or throws, adds at most eleven events
    to the trace (at most six prompts, one download and four commands),
    and the bound is reached: answering yes to everything over an
    existing non-empty directory on a machine without [bun] shows the six
    prompts, starts the download and runs [bun install hono], [git init],
    [bun install] and [npm install]. *)
Theorem createProject_event_bound :
  (∀ d options, adds_at_most 11 (createProject d options)) ∧
  List.length (w_trace (state_of (createProject None interactive_options)
                          (world fs_home_with_app busiest_answers no_bun))) = 11.
Proof.
  split; [|vm_refl]. intros d options. unfold createProject. bound_auto.
Qed.
