(* ===== verification/Cli.v ===== *)
(** * The command line of [src/src/index.ts]

    [index.ts] declares one commander program: an optional positional
    [project-directory], the boolean flags [-y/--yes], [--ts/--typescript]
    and [--rpc], and the valued options [--repo] (default [DEFAULT_REPO]),
    [--template] (default ["default"]) and [--branch].  Its action prints
    the banner, runs [createProject], prints the next steps and exits with
    0 when a result comes back, and prints the error and exits with 1 when
    [createProject] throws.  A cancelled run (no result) calls no
    [process.exit]: the process ends by itself, with status 0.

    [parse_args] is commander's parse of that declaration on the
    arguments after the program name; [action] is the action handler in
    the monad of [Effects], returning the lines it prints, banner
    ([displayBanner]) first, and the code it passes to [process.exit];
    [main] composes them. *)

From S2P Require Import Prelude JsValue Paths Types Templates TemplateText FsModel Effects Fixtures Workflow.

(** ** Parsing: [program ... .option(...) ... .parse()] *)

(** The options object before any argument is read: commander stores
    the declared defaults of [--repo] and [--template]; the other keys are
    absent. *)
Definition default_options : Opt.ProjectOptions :=
  {| Opt.yes := None; Opt.typescript := None; Opt.repo := Some DEFAULT_REPO;
     Opt.template := Some "default"; Opt.branch := None; Opt.rpc := None |}.

Definition set_yes (o : Opt.ProjectOptions) : Opt.ProjectOptions :=
  {| Opt.yes := Some true; Opt.typescript := Opt.typescript o; Opt.repo := Opt.repo o;
     Opt.template := Opt.template o; Opt.branch := Opt.branch o; Opt.rpc := Opt.rpc o |}.
Definition set_typescript (o : Opt.ProjectOptions) : Opt.ProjectOptions :=
  {| Opt.yes := Opt.yes o; Opt.typescript := Some true; Opt.repo := Opt.repo o;
     Opt.template := Opt.template o; Opt.branch := Opt.branch o; Opt.rpc := Opt.rpc o |}.
Definition set_repo (v : string) (o : Opt.ProjectOptions) : Opt.ProjectOptions :=
  {| Opt.yes := Opt.yes o; Opt.typescript := Opt.typescript o; Opt.repo := Some v;
     Opt.template := Opt.template o; Opt.branch := Opt.branch o; Opt.rpc := Opt.rpc o |}.
Definition set_template (v : string) (o : Opt.ProjectOptions) : Opt.ProjectOptions :=
  {| Opt.yes := Opt.yes o; Opt.typescript := Opt.typescript o; Opt.repo := Opt.repo o;
     Opt.template := Some v; Opt.branch := Opt.branch o; Opt.rpc := Opt.rpc o |}.
Definition set_branch (v : string) (o : Opt.ProjectOptions) : Opt.ProjectOptions :=
  {| Opt.yes := Opt.yes o; Opt.typescript := Opt.typescript o; Opt.repo := Opt.repo o;
     Opt.template := Opt.template o; Opt.branch := Some v; Opt.rpc := Opt.rpc o |}.
Definition set_rpc (o : Opt.ProjectOptions) : Opt.ProjectOptions :=
  {| Opt.yes := Opt.yes o; Opt.typescript := Opt.typescript o; Opt.repo := Opt.repo o;
     Opt.template := Opt.template o; Opt.branch := Opt.branch o; Opt.rpc := Some true |}.

(** Commander's [maybeOption]: a token of two characters or more that
    starts with a dash is an option; a lone [-] is an operand. *)
Definition is_option_token (a : string) : bool :=
  match a with
  | String "-" (String _ _) => true
  | _ => false
  end.

(** Commander's parse: a declared flag sets its key to [true]; a valued
    option takes the next argument, whatever it is, and a later
    occurrence overrides an earlier one; the first other argument is the
    project directory and later ones are ignored; after [--] every
    argument is an operand; an undeclared option, or a valued option at
    the end of the line, is an error ([None]), on which commander prints
    a message and exits with 1. *)
Fixpoint parse_args (args : list string) (dir : option string) (o : Opt.ProjectOptions)
  : option (option string * Opt.ProjectOptions) :=
  match args with
  | [] => Some (dir, o)
  | a :: rest =>
      if bool_decide (a = "--") then
        Some (match dir with Some d => Some d | None => hd_error rest end, o)
      else if bool_decide (a = "-y") || bool_decide (a = "--yes") then parse_args rest dir (set_yes o)
      else if bool_decide (a = "--ts") || bool_decide (a = "--typescript") then
        parse_args rest dir (set_typescript o)
      else if bool_decide (a = "--rpc") then parse_args rest dir (set_rpc o)
      else if bool_decide (a = "--repo") then
        match rest with v :: rest' => parse_args rest' dir (set_repo v o) | [] => None end
      else if bool_decide (a = "--template") then
        match rest with v :: rest' => parse_args rest' dir (set_template v o) | [] => None end
      else if bool_decide (a = "--branch") then
        match rest with v :: rest' => parse_args rest' dir (set_branch v o) | [] => None end
      else if is_option_token a then None
      else parse_args rest (match dir with Some d => Some d | None => Some a end) o
  end.

(** ** The banner *)

(** [displayBanner()] (helpers.ts): the values it passes to [console.log],
    without chalk's colours.  [figlet] is [figlet.textSync]'s rendering of
    ["bhvr forge"], or [None] when it throws and the plain fallback is
    printed. *)
Definition displayBanner (figlet : option string) : list string :=
  match figlet with
  | Some text => [nl; text]
  | None => [nl; "B H V R"; "=========="]
  end ++
  [(nl ++ "ðŸ¦« Lets build ðŸ¦«" ++ nl)%string;
   ("https://github.com/stevedylandev/bhvr-forge" ++ nl)%string].

(** ** The action handler *)

(** The lines printed after a successful run, without chalk's colours. *)
Definition success_lines (result : Res.ProjectResult) : list string :=
  ["🎉 Project created successfully!"; "
Next steps:"] ++
  (if negb (Res.dependenciesInstalled result)
   then [("  cd " ++ Res.projectName result)%string; "  bun install"]
   else [("  cd " ++ Res.projectName result)%string]) ++
  ["  bun run dev:client   # Start the client";
   "  bun run dev:server   # Start the server in another terminal";
   "  bun run dev          # Start all"].

(** [.action(async (projectDirectory, options) => { try { ... } catch ... })]:
    the lines it prints, and the argument of the [process.exit] it calls,
    if any.  The banner comes first; [displayBanner] catches figlet's
    errors itself, so it never reaches the [catch]. *)
Definition action (figlet : option string) (projectDirectory : option string)
  (options : Opt.ProjectOptions) : M (list string * option Z) :=
  TRY (result ← createProject projectDirectory options;
       match result with
       | Some result => mret (displayBanner figlet ++ success_lines result, Some 0%Z)
       | None => mret (displayBanner figlet, None)
       end)
  CATCH err => mret (displayBanner figlet ++ ["Error creating project:"], Some 1%Z).

(** The status the process ends with: the argument of [process.exit],
    or 0 when the event loop drains without one. *)
Definition exit_status (code : option Z) : Z :=
  match code with Some c => c | None => 0%Z end.

(** [program.parse()] on the arguments after the program name. *)
Definition main (figlet : option string) (argv : list string) : M (list string * option Z) :=
  match parse_args argv None default_options with
  | None => mret (["error: invalid arguments"], Some 1%Z)
  | Some (projectDirectory, options) => action figlet projectDirectory options
  end.

(** ** Lemmas *)

(** The action on each outcome of [createProject]: it adds no effect of
    its own, and turns a result, a cancellation and an exception into its
    lines and exit code. *)
Lemma action_run f d options w :
  action f d options w =
  match createProject d options w with
  | (Ok (Some r), w') => (Ok (displayBanner f ++ success_lines r, Some 0%Z), w')
  | (Ok None, w') => (Ok (displayBanner f, None), w')
  | (Exn _, w') => (Ok (displayBanner f ++ ["Error creating project:"], Some 1%Z), w')
  end.
Proof.
  unfold action, try_catch, mbind, stM_bind.
  by destruct (createProject d options w) as [[[r|]|e] w'].
Qed.

(** The projection of [createProject]'s outcome that fixes the process's
    exit status. *)
Definition outcome_status {A} (r : outcome error A) : Z :=
  match r with Ok _ => 0%Z | Exn _ => 1%Z end.

Lemma action_status f d options w :
  state_of (action f d options) w = state_of (createProject d options) w ∧
  ∃ out code, result_of (action f d options) w = Ok (out, code) ∧
  displayBanner f `prefix_of` out ∧
  exit_status code = outcome_status (result_of (createProject d options) w).
Proof.
  unfold state_of, result_of. rewrite action_run.
  destruct (createProject d options w) as [[[r|]|e] w']; cbn;
    (split; [done|]; eexists _, _; split_and!; [done| |done]);
    first [reflexivity | apply prefix_app_r; reflexivity].
Qed.

(** ** Theorems *)

(** C6. The output and exit status of the command: once commander has
    parsed the arguments, the banner is printed first, and the process ends with 0 exactly when [createProject]
    returns (a project or a cancellation) and with 1 exactly when it
    throws, and then the exception is a fatal one (a download, file-system
    or [TypeError] failure, never a failed [git], [bun] or [npm] command);
    the handler adds no effect to [createProject]'s. *)
Theorem main_exit_status f argv d options w :
  parse_args argv None default_options = Some (d, options) →
  state_of (main f argv) w = state_of (createProject d options) w ∧
  ∃ out code, result_of (main f argv) w = Ok (out, code) ∧
  displayBanner f `prefix_of` out ∧
  (exit_status code = 0%Z ↔ ∃ res, result_of (createProject d options) w = Ok res) ∧
  (exit_status code = 1%Z ↔
   ∃ e, result_of (createProject d options) w = Exn e ∧ fatal_error e).
Proof.
  intros Hp. unfold main. rewrite Hp.
  destruct (action_status f d options w) as [Hs (out & code & Hr & Hb & Hc)].
  pose proof (createProject_raises_fatal d options w) as Hf.
  split; [done|]. exists out, code. split_and!; [done|done|..]; rewrite Hc;
  destruct (result_of (createProject d options) w) as [res|e]; cbn; split;
    first [ intros _; by eexists | intros _; lia | lia | by intros [] | by intros (? & ? & _)
          | intros _; exists e; split; [done|]; by apply Hf ].
Qed.

Lemma main_exit_status_witness :
  parse_args ["my-app"; "--yes"] None default_options =
    Some (Some "my-app", set_yes default_options) ∧
  state_of (main None ["my-app"; "--yes"]) (world fs_home [] all_tools_ok) =
    state_of (createProject (Some "my-app") (set_yes default_options))
      (world fs_home [] all_tools_ok) ∧
  ∃ out code, result_of (main None ["my-app"; "--yes"]) (world fs_home [] all_tools_ok) = Ok (out, code) ∧
  displayBanner None `prefix_of` out ∧
  (exit_status code = 0%Z ↔ ∃ res, result_of (createProject (Some "my-app") (set_yes default_options))
                                     (world fs_home [] all_tools_ok) = Ok res) ∧
  (exit_status code = 1%Z ↔
   ∃ e, result_of (createProject (Some "my-app") (set_yes default_options))
          (world fs_home [] all_tools_ok) = Exn e ∧ fatal_error e).
Proof. split; [reflexivity|]. apply (main_exit_status None). reflexivity. Defined.

